(** * reglet-hostlib: capability lifecycle and plugin acquisition

    A shallow embedding of the host-side SDK (Go) and the properties its
    specification states about it.  Part I holds the embedding, one module
    per Go package, and the vocabulary of the statements; Part II holds
    the lemmas and theorems.

    Conventions.
    - Go strings are byte strings: [string] of Stdlib, one [ascii] per byte.
    - Go [int] / [int64] values are [Z]; wrap-around is written out where
      the source can reach it.
    - A Go [(T, error)] result is [result T]; a bare [error] is
      [option error] with [None] for [nil].
    - Calls on collaborators (prompter, grant store, file system, inner
      handler, transport) are recorded in an event trace that the embedded
      function returns next to its result. *)

From Stdlib Require Import ZArith Lia List String Ascii Bool DecimalString.
From stdpp Require Import base strings gmap.

Import ListNotations.
Local Open Scope string_scope.

(* ===================================================================== *)
(** * Part I.  The embedding                                             *)
(* ===================================================================== *)

(** ** Errors and results *)

Inductive result (E A : Type) : Type :=
| Ok (a : A)
| Err (e : E).
Arguments Ok {E A} a.
Arguments Err {E A} e.

Definition is_ok {E A} (r : result E A) : bool :=
  match r with Ok _ => true | Err _ => false end.

(** ** Package [strings] (Go standard library)

    Written from the documented behaviour of the functions the repository
    calls.  [Split] is only ever called with a one-byte separator
    (["/"] and [":"]); [SplitByte] is that instance. *)

Module strings.

Fixpoint HasPrefix (s prefix : string) : bool :=
  match prefix, s with
  | EmptyString, _ => true
  | String _ _, EmptyString => false
  | String a p', String b s' => if Ascii.eqb a b then HasPrefix s' p' else false
  end.

(** [strings.Index]: byte offset of the first occurrence, [None] for -1. *)
Fixpoint Index (s substr : string) : option nat :=
  if HasPrefix s substr then Some 0%nat
  else match s with
       | EmptyString => None
       | String _ t => option_map S (Index t substr)
       end.

(** [strings.LastIndex]: byte offset of the last occurrence. *)
Fixpoint LastIndex (s substr : string) : option nat :=
  match s with
  | EmptyString => if HasPrefix s substr then Some 0%nat else None
  | String _ t =>
      match LastIndex t substr with
      | Some i => Some (S i)
      | None => if HasPrefix s substr then Some 0%nat else None
      end
  end.

Definition Contains (s substr : string) : bool :=
  match Index s substr with Some _ => true | None => false end.

(** [strings.Split s sep] for a one-byte [sep]; never returns [[]]. *)
Fixpoint SplitByte (sep : ascii) (s : string) : list string :=
  match s with
  | EmptyString => [EmptyString]
  | String c t =>
      if Ascii.eqb c sep then EmptyString :: SplitByte sep t
      else match SplitByte sep t with
           | [] => [String c EmptyString]
           | h :: r => String c h :: r
           end
  end.

(** [strings.Join]. *)
Fixpoint Join (elems : list string) (sep : string) : string :=
  match elems with
  | [] => ""
  | [e] => e
  | e :: rest => e +:+ sep +:+ Join rest sep
  end.

(** Go slice expressions [s[:i]] and [s[i:]] on strings. *)
Definition upto (s : string) (i : nat) : string := String.substring 0 i s.
Definition from (s : string) (i : nat) : string :=
  String.substring i (String.length s - i) s.

(** [strings.SplitN s sep 2] for a non-empty [sep]: cut at the first
    occurrence. *)
Definition SplitN2 (s sep : string) : list string :=
  match Index s sep with
  | Some i => [upto s i; from s (i + String.length sep)]
  | None => [s]
  end.

End strings.

(** [%v] / [%s] of a [[]string] under [fmt]: the elements, space separated,
    in square brackets. *)
Definition fmtStrings (l : list string) : string :=
  "[" +:+ strings.Join l " " +:+ "]".

(** ** Package [plugin/values] *)

Module values.

(** [PluginReference] (plugin_reference.go). *)
Record PluginReference : Type := mkPluginReference {
  registry : string;
  org : string;
  repo : string;
  name : string;
  version : string
}.

Definition NewPluginReference (registry org repo name version : string)
  : PluginReference :=
  mkPluginReference registry org repo name version.

Inductive RefError : Type :=
| ErrInvalidOCIReference (ref : string)
| ErrMissingVersionTag (ref : string).

(** Last element of a non-empty slice, [parts[len(parts)-1]]. *)
Definition lastPart (parts : list string) : string := List.last parts "".

Definition ParsePluginReference (ref : string)
  : result RefError PluginReference :=
  if negb (strings.Contains ref "/") && negb (strings.Contains ref ":") then
    Ok (mkPluginReference "" "" "" ref "")
  else
    let parts := strings.SplitByte "/" ref in
    if (length parts <? 4)%nat then Err (ErrInvalidOCIReference ref)
    else
      let nameVersion := strings.SplitByte ":" (lastPart parts) in
      match nameVersion with
      | [n; v] =>
          Ok (mkPluginReference (nth 0 parts "") (nth 1 parts "")
                (nth 2 parts "") n v)
      | _ => Err (ErrMissingVersionTag ref)
      end.

Definition IsEmbedded (r : PluginReference) : bool :=
  String.eqb (registry r) "".

Definition String_ (r : PluginReference) : string :=
  if IsEmbedded r then name r
  else registry r +:+ "/" +:+ org r +:+ "/" +:+ repo r +:+ "/"
       +:+ name r +:+ ":" +:+ version r.

Definition Equals (r other : PluginReference) : bool :=
  String.eqb (registry r) (registry other)
  && String.eqb (org r) (org other)
  && String.eqb (repo r) (repo other)
  && String.eqb (name r) (name other)
  && String.eqb (version r) (version other).

(** [Digest] (digest.go). *)
Record Digest : Type := mkDigest {
  algorithm : string;
  value : string
}.

Definition DigestEquals (d other : Digest) : bool :=
  String.eqb (algorithm d) (algorithm other)
  && String.eqb (value d) (value other).

Definition DigestString (d : Digest) : string :=
  algorithm d +:+ ":" +:+ value d.

(** [PluginMetadata] (metadata.go). *)
Record PluginMetadata : Type := mkPluginMetadata {
  metaName : string;
  metaVersion : string;
  metaDescription : string;
  metaCapabilities : list string
}.

(** [NewDigest] and [ParseDigest] (digest.go). *)
Inductive DigestError : Type :=
| ErrUnsupportedAlgorithm (algorithm : string)
| ErrInvalidDigestFormat (s : string).

Definition NewDigest (algorithm hexValue : string)
  : result DigestError Digest :=
  if String.eqb algorithm "sha256" || String.eqb algorithm "sha512" then
    Ok (mkDigest algorithm hexValue)
  else Err (ErrUnsupportedAlgorithm algorithm).

Definition ParseDigest (s : string) : result DigestError Digest :=
  match strings.SplitN2 s ":" with
  | [a; v] => NewDigest a v
  | _ => Err (ErrInvalidDigestFormat s)
  end.

End values.

(** ** Package [path/filepath] (Go standard library, Unix)

    [Clean] is written over the slash-separated elements of the path, which
    is what the byte loop of the library computes: empty and ["."] elements
    are dropped, [".."] removes the element before it when there is one to
    remove, is dropped at the root, and is kept in front of a relative
    path. *)

Module filepath.

Definition IsAbs (path : string) : bool := strings.HasPrefix path "/".

(** [out] is the stack of kept elements, the most recent first. *)
Fixpoint cleanElems (rooted : bool) (elems out : list string) : list string :=
  match elems with
  | [] => out
  | e :: rest =>
      if String.eqb e "" || String.eqb e "." then cleanElems rooted rest out
      else if String.eqb e ".." then
        match out with
        | top :: below =>
            if String.eqb top ".." then cleanElems rooted rest (e :: out)
            else cleanElems rooted rest below
        | [] =>
            if rooted then cleanElems rooted rest []
            else cleanElems rooted rest [e]
        end
      else cleanElems rooted rest (e :: out)
  end.

Definition Clean (path : string) : string :=
  if String.eqb path "" then "."
  else
    let rooted := strings.HasPrefix path "/" in
    let out := rev (cleanElems rooted (strings.SplitByte "/" path) []) in
    if rooted then "/" +:+ strings.Join out "/"
    else match out with
         | [] => "."
         | _ => strings.Join out "/"
         end.

(** [filepath.Join]: the first non-empty element onwards, joined and
    cleaned; [""] when every element is empty. *)
Fixpoint Join (elem : list string) : string :=
  match elem with
  | [] => ""
  | e :: rest =>
      if String.eqb e "" then Join rest else Clean (strings.Join elem "/")
  end.

End filepath.

(** ** Package [plugin/entities] *)

Module entities.

(** [Plugin] aggregate (plugin.go). *)
Record Plugin : Type := NewPlugin {
  Reference : values.PluginReference;
  Digest : values.Digest;
  Metadata : values.PluginMetadata
}.

(** [IntegrityError] (errors.go) carries the expected and the actual
    digest. *)
Record IntegrityError : Type := mkIntegrityError {
  Expected : values.Digest;
  Actual : values.Digest
}.

Definition VerifyIntegrity (p : Plugin) (expected : values.Digest)
  : option IntegrityError :=
  if negb (values.DigestEquals (Digest p) expected) then
    Some (mkIntegrityError expected (Digest p))
  else None.

(** [PluginSpec] and [ParsePluginDeclaration] (plugin_spec.go). *)
Record PluginSpec : Type := mkPluginSpec {
  Name : string;
  Source : string;
  Version : string;
  SpecDigest : string;
  Verify : bool
}.

Inductive DeclError : Type :=
| ErrEmptyDeclaration.

Definition ParsePluginDeclaration (declaration : string)
  : result DeclError PluginSpec :=
  if String.eqb declaration "" then Err ErrEmptyDeclaration
  else
    (* spec := &PluginSpec{Source: declaration} *)
    let source0 := declaration in
    (* digest pin *)
    let '(declaration1, digest1, source1) :=
      match strings.Index declaration "@sha256:" with
      | Some idx =>
          let dg := strings.from declaration (idx + 1) in
          let d := strings.upto declaration idx in
          (d, dg, d +:+ "@" +:+ dg)
      | None => (declaration, "", source0)
      end in
    (* version suffix *)
    let '(declaration2, version2) :=
      match strings.LastIndex declaration1 "@" with
      | Some idx =>
          (strings.upto declaration1 idx, strings.from declaration1 (idx + 1))
      | None => (declaration1, "")
      end in
    if strings.Contains declaration2 "/" then
      let parts := strings.SplitByte "/" declaration2 in
      let name := values.lastPart parts in
      let '(name3, version3) :=
        match strings.LastIndex name ":" with
        | Some idx => (strings.upto name idx, strings.from name (idx + 1))
        | None => (name, version2)
        end in
      Ok (mkPluginSpec name3 source1 version3 digest1 false)
    else
      let source3 :=
        if negb (String.eqb version2 "") then declaration2 else source1 in
      Ok (mkPluginSpec declaration2 source3 version2 digest1 false).

(** [Lockfile] (lockfile.go).  A [time.Time] is an instant on an integer
    clock; a Go map that may be nil is an optional [gmap]. *)
Definition Time : Type := Z.

Record PluginLock : Type := mkPluginLock {
  Fetched : Time;
  Modified : Time;
  Requested : string;
  Resolved : string;
  LockSource : string;
  LockDigest : string
}.

Record ProfileLock : Type := mkProfileLock {
  ProfFetched : Time;
  ProfModified : Time;
  ProfRequested : string;
  ProfResolved : string;
  ProfSource : string;
  ProfDigest : string
}.

Record Lockfile : Type := mkLockfile {
  Generated : Time;
  Plugins : option (gmap string PluginLock);
  Profiles : option (gmap string ProfileLock);
  LockVersion : Z
}.

(** [NewLockfile], given the reading of the clock. *)
Definition NewLockfile (now : Time) : Lockfile :=
  mkLockfile now (Some ∅) None 1%Z.

Inductive LockError : Type :=
| ErrDigestRequired (name : string).

Definition AddPlugin (l : Lockfile) (name : string) (lock : PluginLock)
  : result LockError Lockfile :=
  if String.eqb (LockDigest lock) "" then Err (ErrDigestRequired name)
  else
    let m := match Plugins l with Some m => m | None => ∅ end in
    Ok (mkLockfile (Generated l) (Some (<[name := lock]> m)) (Profiles l)
          (LockVersion l)).

Definition GetPlugin (l : Lockfile) (name : string) : option PluginLock :=
  match Plugins l with
  | None => None
  | Some m => m !! name
  end.

Definition PluginCount (l : Lockfile) : nat :=
  match Plugins l with
  | None => 0%nat
  | Some m => size m
  end.

(** [AddProfile], [GetProfile], [ProfileCount] (lockfile.go). *)
Inductive ProfileLockError : Type :=
| ErrProfileDigestRequired (url : string).

Definition AddProfile (l : Lockfile) (url : string) (lock : ProfileLock)
  : result ProfileLockError Lockfile :=
  if String.eqb (ProfDigest lock) "" then Err (ErrProfileDigestRequired url)
  else
    let m := match Profiles l with Some m => m | None => ∅ end in
    Ok (mkLockfile (Generated l) (Plugins l) (Some (<[url := lock]> m))
          (LockVersion l)).

Definition GetProfile (l : Lockfile) (url : string) : option ProfileLock :=
  match Profiles l with
  | None => None
  | Some m => m !! url
  end.

Definition ProfileCount (l : Lockfile) : nat :=
  match Profiles l with
  | None => 0%nat
  | Some m => size m
  end.

(** [Validate].  The zero [time.Time] is the instant 0 of the clock.  The
    two loops range over Go maps, whose order of iteration is not fixed:
    of several entries without a digest, the one named in the error is
    the first in the order of [map_to_list] here. *)
Inductive ValidateError : Type :=
| ErrInvalidGenerated
| ErrInvalidPlugin (name : string)
| ErrInvalidProfile (url : string).

Definition IsZero (t : Time) : bool := Z.eqb t 0.

Definition Validate (l : Lockfile) : option ValidateError :=
  if ((0 <? PluginCount l)%nat || (0 <? ProfileCount l)%nat)
     && IsZero (Generated l)
  then Some ErrInvalidGenerated
  else
    match
      List.find (fun kv => String.eqb (LockDigest (snd kv)) "")
        (map_to_list (match Plugins l with Some m => m | None => ∅ end))
    with
    | Some (name, _) => Some (ErrInvalidPlugin name)
    | None =>
        match
          List.find (fun kv => String.eqb (ProfDigest (snd kv)) "")
            (map_to_list (match Profiles l with Some m => m | None => ∅ end))
        with
        | Some (url, _) => Some (ErrInvalidProfile url)
        | None => None
        end
    end.

(** [PluginRegistry] (plugin_spec.go).  The registry holds the
    specifications by value: a registered specification is not changed
    afterwards. *)
Record PluginRegistry : Type := mkPluginRegistry {
  specs : gmap string PluginSpec
}.

Definition NewPluginRegistry : PluginRegistry := mkPluginRegistry ∅.

Inductive RegisterError : Type :=
| ErrEmptySpecName
| ErrEmptySpecSource (name : string).

Definition Register (pr : PluginRegistry) (spec : PluginSpec)
  : result RegisterError PluginRegistry :=
  if String.eqb (Name spec) "" then Err ErrEmptySpecName
  else if String.eqb (Source spec) "" then Err (ErrEmptySpecSource (Name spec))
  else Ok (mkPluginRegistry (<[Name spec := spec]> (specs pr))).

Definition Resolve (pr : PluginRegistry) (alias : string) : PluginSpec :=
  match specs pr !! alias with
  | Some spec => spec
  | None => mkPluginSpec alias alias "" "" false
  end.

Definition HasPlugin (pr : PluginRegistry) (name : string) : bool :=
  match specs pr !! name with
  | Some _ => true
  | None => false
  end.

End entities.

(** ** Package [plugin/filesystem]: the YAML form of a lockfile
    (lockfile.go) *)

Module filesystem.

Record PluginLock : Type := mkPluginLock {
  Fetched : entities.Time;
  Modified : entities.Time;
  Requested : string;
  Resolved : string;
  Source : string;
  Digest : string
}.

Record Lockfile : Type := mkLockfile {
  Generated : entities.Time;
  Plugins : option (gmap string PluginLock);
  Version : Z
}.

Definition ToEntity (l : Lockfile) : entities.Lockfile :=
  entities.mkLockfile (Generated l)
    (Some
       ((fun lock =>
           entities.mkPluginLock (Fetched lock) (Modified lock)
             (Requested lock) (Resolved lock) (Source lock) (Digest lock))
        <$> (match Plugins l with Some m => m | None => ∅ end)))
    None
    (Version l).

Definition FromEntity (entity : option entities.Lockfile)
  : option Lockfile :=
  match entity with
  | None => None
  | Some entity =>
      Some
        (mkLockfile (entities.Generated entity)
           (Some
              ((fun lock =>
                  mkPluginLock (entities.Fetched lock) (entities.Modified lock)
                    (entities.Requested lock) (entities.Resolved lock)
                    (entities.LockSource lock) (entities.LockDigest lock))
               <$> (match entities.Plugins entity with
                    | Some m => m
                    | None => ∅
                    end)))
           (entities.LockVersion entity))
  end.

End filesystem.

(** ** Package [plugin/services]: [IntegrityService] *)

Module services.

Record IntegrityService : Type := NewIntegrityService {
  requireSigning : bool
}.

Definition VerifyDigest (s : IntegrityService) (plugin : entities.Plugin)
  (expected : values.Digest) : option entities.IntegrityError :=
  entities.VerifyIntegrity plugin expected.

Definition ShouldVerifySignature (s : IntegrityService) : bool :=
  requireSigning s.

End services.

(** ** Package [plugin/repository]: [FSPluginRepository] *)

Module repository.

(** A call on the operating system's file interface, as the repository
    issues it. *)
Inductive FsOp : Type :=
| OpMkdirAll (path : string) (perm : Z)
| OpCreate (path : string)
| OpCopy (path : string) (wasm : string)
| OpEncodeMetadata (path : string) (metadata : values.PluginMetadata)
| OpWriteFile (path : string) (data : string) (perm : Z)
| OpClose (path : string)
| OpRemoveAll (path : string).

Inductive RepoError : Type :=
| ErrSecurityAbsolutePath (refStr : string)
| ErrSecurityPathTraversal (refStr : string)
| ErrIO (op : FsOp)
| ErrWriteWasm (op : FsOp).

Definition IsSecurityViolation (e : RepoError) : bool :=
  match e with
  | ErrSecurityAbsolutePath _ | ErrSecurityPathTraversal _ => true
  | _ => false
  end.

Record FSPluginRepository : Type := mkFSPluginRepository {
  root : string
}.

(** [os.PathSeparator] on Unix. *)
Definition PathSeparator : string := "/".

Definition pluginPath (r : FSPluginRepository) (ref : values.PluginReference)
  : result RepoError string :=
  let refStr := values.String_ ref in
  if filepath.IsAbs refStr then Err (ErrSecurityAbsolutePath refStr)
  else
    let fullPath := filepath.Join [root r; refStr] in
    let cleanRoot := filepath.Clean (root r) in
    let cleanPath := filepath.Clean fullPath in
    if negb (strings.HasPrefix cleanPath (cleanRoot +:+ PathSeparator))
       && negb (String.eqb cleanPath cleanRoot)
    then Err (ErrSecurityPathTraversal refStr)
    else Ok cleanPath.

Section FileSystem.

(** Whether the operating system carries out an operation. *)
Variable fsOk : FsOp -> bool.

Definition saveMetadata (path : string) (metadata : values.PluginMetadata)
  : option RepoError * list FsOp :=
  let cleanPath := filepath.Clean (filepath.Join [path; "metadata.json"]) in
  let create := OpCreate cleanPath in
  if negb (fsOk create) then (Some (ErrIO create), [create])
  else
    let encode := OpEncodeMetadata cleanPath metadata in
    (* the deferred Close runs on return *)
    ((if fsOk encode then None else Some (ErrIO encode)),
     [create; encode; OpClose cleanPath]).

Definition saveDigest (path : string) (digest : values.Digest)
  : option RepoError * list FsOp :=
  let write :=
    OpWriteFile (filepath.Join [path; "digest.txt"])
      (values.DigestString digest) 384%Z (* 0o600 *) in
  ((if fsOk write then None else Some (ErrIO write)), [write]).

(** [Store]: the result and the file operations issued, in order. *)
Definition Store (r : FSPluginRepository) (plugin : entities.Plugin)
  (wasm : string) : result RepoError string * list FsOp :=
  match pluginPath r (entities.Reference plugin) with
  | Err e => (Err e, [])
  | Ok path =>
      let mkdir := OpMkdirAll path 488%Z (* 0o750 *) in
      if negb (fsOk mkdir) then (Err (ErrIO mkdir), [mkdir])
      else
        let wasmPath := filepath.Join [path; "plugin.wasm"] in
        let create := OpCreate (filepath.Clean wasmPath) in
        if negb (fsOk create) then (Err (ErrIO create), [mkdir; create])
        else
          let close := OpClose (filepath.Clean wasmPath) in
          let copy := OpCopy (filepath.Clean wasmPath) wasm in
          if negb (fsOk copy) then
            (Err (ErrWriteWasm copy), [mkdir; create; copy; close])
          else
            let '(merr, mops) := saveMetadata path (entities.Metadata plugin) in
            match merr with
            | Some e => (Err e, ([mkdir; create; copy] ++ mops ++ [close])%list)
            | None =>
                let '(derr, dops) := saveDigest path (entities.Digest plugin) in
                match derr with
                | Some e =>
                    (Err e, ([mkdir; create; copy] ++ mops ++ dops ++ [close])%list)
                | None =>
                    (Ok wasmPath,
                     ([mkdir; create; copy] ++ mops ++ dops ++ [close])%list)
                end
            end
  end.

Definition Delete (r : FSPluginRepository) (ref : values.PluginReference)
  : option RepoError * list FsOp :=
  match pluginPath r ref with
  | Err e => (Some e, [])
  | Ok path =>
      let rm := OpRemoveAll path in
      ((if fsOk rm then None else Some (ErrIO rm)), [rm])
  end.

End FileSystem.

(** *** Reading back: [Find], [loadMetadata], [loadDigest]

    The machine's files by path, with their contents, and its
    directories. *)
Record FS : Type := mkFS {
  files : gmap string string;
  dirs : gset string
}.

Inductive FindError : Type :=
| ErrPluginPath (e : RepoError)
| PluginNotFoundError (ref : values.PluginReference)
| ErrOpenMetadata (path : string)
| ErrDecodeMetadata (path : string)
| ErrReadDigest (path : string)
| ErrParseDigest (e : values.DigestError).

Section Files.

(** [json.NewEncoder(file).Encode] and [json.NewDecoder(file).Decode] at
    the metadata struct. *)
Variable encode : values.PluginMetadata -> string.
Variable decode : string -> option values.PluginMetadata.

(** [os.Stat] succeeds on what is there, file or directory. *)
Definition Stat (fs : FS) (path : string) : bool :=
  match files fs !! path with
  | Some _ => true
  | None => bool_decide (path ∈ dirs fs)
  end.

Definition loadMetadata (fs : FS) (path : string)
  : result FindError values.PluginMetadata :=
  let cleanPath := filepath.Clean (filepath.Join [path; "metadata.json"]) in
  match files fs !! cleanPath with
  | None =>
      (* a directory opens, and fails when read *)
      if bool_decide (cleanPath ∈ dirs fs) then Err (ErrDecodeMetadata cleanPath)
      else Err (ErrOpenMetadata cleanPath)
  | Some data =>
      match decode data with
      | None => Err (ErrDecodeMetadata cleanPath)
      | Some meta =>
          Ok (values.mkPluginMetadata (values.metaName meta)
                (values.metaVersion meta) (values.metaDescription meta)
                (values.metaCapabilities meta))
      end
  end.

Definition loadDigest (fs : FS) (path : string)
  : result FindError values.Digest :=
  let cleanPath := filepath.Clean (filepath.Join [path; "digest.txt"]) in
  match files fs !! cleanPath with
  | None => Err (ErrReadDigest cleanPath)
  | Some data =>
      match values.ParseDigest data with
      | Err e => Err (ErrParseDigest e)
      | Ok digest => Ok digest
      end
  end.

Definition Find (fs : FS) (r : FSPluginRepository)
  (ref : values.PluginReference)
  : result FindError (entities.Plugin * string) :=
  match pluginPath r ref with
  | Err e => Err (ErrPluginPath e)
  | Ok path =>
      let wasmPath := filepath.Join [path; "plugin.wasm"] in
      if negb (Stat fs wasmPath) then Err (PluginNotFoundError ref)
      else
        match loadMetadata fs path with
        | Err e => Err e
        | Ok metadata =>
            match loadDigest fs path with
            | Err e => Err e
            | Ok digest =>
                Ok (entities.NewPlugin ref digest metadata, wasmPath)
            end
        end
  end.

(** What a file operation that succeeds leaves behind.  [OpCreate]
    truncates, [OpCopy] and [OpEncodeMetadata] write at the end of the
    open file, [OpRemoveAll] removes the path and everything below it;
    paths are cleaned paths and are compared as such. *)
Definition below (dir path : string) : Prop :=
  path = dir
  \/ strings.HasPrefix path (if String.eqb dir "/" then "/" else dir +:+ "/")
     = true.

Definition applyOp (fs : FS) (op : FsOp) : FS :=
  match op with
  | OpMkdirAll path _ => mkFS (files fs) ({[path]} ∪ dirs fs)
  | OpCreate path => mkFS (<[path := ""]> (files fs)) (dirs fs)
  | OpCopy path wasm =>
      mkFS (<[path := default "" (files fs !! path) +:+ wasm]> (files fs))
        (dirs fs)
  | OpEncodeMetadata path metadata =>
      mkFS (<[path := default "" (files fs !! path) +:+ encode metadata]>
              (files fs))
        (dirs fs)
  | OpWriteFile path data _ => mkFS (<[path := data]> (files fs)) (dirs fs)
  | OpClose _ => fs
  | OpRemoveAll path =>
      mkFS (filter (fun kv => ~ below path kv.1) (files fs))
        (filter (fun p => ~ below path p) (dirs fs))
  end.

Definition applyOps (fs : FS) (ops : list FsOp) : FS :=
  fold_left applyOp ops fs.

End Files.

End repository.

(** ** Package [plugin/dto]: [PluginSpecDTO] *)

Module dto.

Record PluginSpecDTO : Type := mkPluginSpecDTO {
  Name : string;
  Digest : string
}.

Definition ToPluginReference (s : PluginSpecDTO)
  : result values.RefError values.PluginReference :=
  values.ParsePluginReference (Name s).

(** An empty digest string stands for "no digest": the zero [Digest]. *)
Definition ToDigest (s : PluginSpecDTO)
  : result values.DigestError values.Digest :=
  if String.eqb (Digest s) "" then Ok (values.mkDigest "" "")
  else values.ParseDigest (Digest s).

End dto.

(** ** Package [plugin]: [PluginService] and [LockfileService] *)

Module plugin.

(** *** [PluginService.LoadPlugin]: the digest step

    [LoadPlugin] calls [VerifyDigest] only for an expected digest whose
    value is not empty. *)
Definition LoadPlugin_verifyDigest (s : services.IntegrityService)
  (plugin : entities.Plugin) (expectedDigest : values.Digest)
  : option entities.IntegrityError :=
  if negb (String.eqb (values.value expectedDigest) "") then
    services.VerifyDigest s plugin expectedDigest
  else None.

(** *** [LockfileService]

    The lockfile repository ([ports.LockfileRepository]) is a store holding
    at most one lockfile for the path, together with the log of [Save]
    calls it received; [Load] and [Save] may be made to fail. *)
Record Repo : Type := mkRepo {
  stored : option entities.Lockfile;
  loadFails : bool;
  saveFails : bool;
  saveCalls : list entities.Lockfile
}.

Inductive ServiceError : Type :=
| ErrLoadingLockfile
| ErrParsingDeclaration (decl : string) (e : entities.DeclError)
| ErrAddPlugin (e : entities.LockError)
| ErrSavingLockfile.

Definition Load (r : Repo) : result ServiceError (option entities.Lockfile) :=
  if loadFails r then Err ErrLoadingLockfile else Ok (stored r).

Definition Save (r : Repo) (lock : entities.Lockfile)
  : option ServiceError * Repo :=
  if saveFails r then
    (Some ErrSavingLockfile,
     mkRepo (stored r) (loadFails r) (saveFails r)
       (saveCalls r ++ [lock])%list)
  else
    (None,
     mkRepo (Some lock) (loadFails r) (saveFails r)
       (saveCalls r ++ [lock])%list).

(** The state of the declaration loop: the lockfile being edited, the
    [updated] flag and the clock, which advances at every [time.Now()]. *)
Record LoopState : Type := mkLoopState {
  lock : entities.Lockfile;
  updated : bool;
  clock : entities.Time
}.

(** One iteration of [for _, pluginDecl := range pluginDeclarations]. *)
Definition resolveOne (st : LoopState) (pluginDecl : string)
  : result ServiceError LoopState :=
  match entities.ParsePluginDeclaration pluginDecl with
  | Err e => Err (ErrParsingDeclaration pluginDecl e)
  | Ok spec =>
      let name := entities.Name spec in
      let constraint :=
        if String.eqb (entities.Version spec) "" then "latest"
        else entities.Version spec in
      let locked := entities.GetPlugin (lock st) name in
      let satisfied :=
        match locked with
        | Some l => String.eqb (entities.Requested l) constraint
        | None => false
        end in
      if satisfied then Ok st (* continue *)
      else
        let resolvedVersion := constraint in
        let newLock :=
          entities.mkPluginLock (clock st) 0%Z constraint resolvedVersion
            (entities.Source spec) "sha256:placeholder" in
        match entities.AddPlugin (lock st) name newLock with
        | Err e => Err (ErrAddPlugin e)
        | Ok lock' => Ok (mkLoopState lock' true (clock st + 1)%Z)
        end
  end.

Fixpoint resolveLoop (st : LoopState) (pluginDeclarations : list string)
  : result ServiceError LoopState :=
  match pluginDeclarations with
  | [] => Ok st
  | d :: rest =>
      match resolveOne st d with
      | Err e => Err e
      | Ok st' => resolveLoop st' rest
      end
  end.

(** [ResolvePlugins]: the result, the repository afterwards and the clock
    afterwards. *)
Definition ResolvePlugins (r : Repo) (now : entities.Time)
  (pluginDeclarations : list string)
  : result ServiceError entities.Lockfile * Repo * entities.Time :=
  match Load r with
  | Err e => (Err e, r, now)
  | Ok loaded =>
      let '(lock0, now0) :=
        match loaded with
        | Some l => (l, now)
        | None => (entities.NewLockfile now, (now + 1)%Z)
        end in
      match resolveLoop (mkLoopState lock0 false now0) pluginDeclarations with
      | Err e => (Err e, r, now0)
      | Ok st =>
          if updated st then
            let lock1 :=
              entities.mkLockfile (clock st) (entities.Plugins (lock st))
                (entities.Profiles (lock st)) (entities.LockVersion (lock st)) in
            match Save r lock1 with
            | (Some e, r') => (Err e, r', (clock st + 1)%Z)
            | (None, r') => (Ok lock1, r', (clock st + 1)%Z)
            end
          else (Ok (lock st), r, clock st)
      end
  end.

(** *** [LockProfile] and [GetLockedProfile] *)

Inductive ProfileServiceError : Type :=
| ErrLockfile (e : ServiceError)
| ErrAddingProfileLock (e : entities.ProfileLockError).

(** [LockProfile]: the error, the repository afterwards and the clock
    afterwards. *)
Definition LockProfile (r : Repo) (now : entities.Time)
  (profileURL version digest : string)
  : option ProfileServiceError * Repo * entities.Time :=
  match Load r with
  | Err e => (Some (ErrLockfile e), r, now)
  | Ok loaded =>
      let '(lock0, now0) :=
        match loaded with
        | Some l => (l, now)
        | None => (entities.NewLockfile now, (now + 1)%Z)
        end in
      (* if lock.Profiles == nil { lock.Profiles = make(...) } *)
      let lock1 :=
        entities.mkLockfile (entities.Generated lock0) (entities.Plugins lock0)
          (Some (match entities.Profiles lock0 with
                 | Some m => m
                 | None => ∅
                 end))
          (entities.LockVersion lock0) in
      let profileLock :=
        entities.mkProfileLock now0 0%Z profileURL version profileURL digest in
      match entities.AddProfile lock1 profileURL profileLock with
      | Err e => (Some (ErrAddingProfileLock e), r, (now0 + 1)%Z)
      | Ok lock2 =>
          let lock3 :=
            entities.mkLockfile (now0 + 1)%Z (entities.Plugins lock2)
              (entities.Profiles lock2) 2%Z in
          match Save r lock3 with
          | (Some e, r') => (Some (ErrLockfile e), r', (now0 + 2)%Z)
          | (None, r') => (None, r', (now0 + 2)%Z)
          end
      end
  end.

Definition GetLockedProfile (r : Repo) (profileURL : string)
  : result ServiceError (option entities.ProfileLock) :=
  match Load r with
  | Err e => Err e
  | Ok None => Ok None
  | Ok (Some lock) => Ok (entities.GetProfile lock profileURL)
  end.

(** *** [PluginService.LoadPlugin]

    The collaborators of the service answer the one call each of them
    receives: the resolution strategy, the signature verifier (its error,
    if any) and the repository's [Find]. *)
Record PluginService : Type := mkPluginService {
  resolver : values.PluginReference -> result string entities.Plugin;
  integrityVerifier : values.PluginReference -> option string;
  repositoryFind :
    values.PluginReference -> result string (entities.Plugin * string);
  integrityService : services.IntegrityService
}.

Inductive LoadError : Type :=
| ErrInvalidPluginReference (e : values.RefError)
| ErrInvalidDigest (e : values.DigestError)
| ErrResolutionFailed (e : string)
| ErrIntegrityVerification (e : entities.IntegrityError)
| ErrSignatureVerification (e : string)
| ErrLocateBinary (e : string).

Inductive LoadEvent : Type :=
| EvResolve (ref : values.PluginReference)
| EvVerifySignature (ref : values.PluginReference)
| EvFind (ref : values.PluginReference).

(** [LoadPlugin]: the path of the binary, or the error, and the calls on
    the collaborators in order. *)
Definition LoadPlugin (s : PluginService) (spec : dto.PluginSpecDTO)
  : result LoadError string * list LoadEvent :=
  match dto.ToPluginReference spec with
  | Err e => (Err (ErrInvalidPluginReference e), [])
  | Ok ref =>
      match dto.ToDigest spec with
      | Err e => (Err (ErrInvalidDigest e), [])
      | Ok expectedDigest =>
          match resolver s ref with
          | Err e => (Err (ErrResolutionFailed e), [EvResolve ref])
          | Ok plugin =>
              match
                LoadPlugin_verifyDigest (integrityService s) plugin
                  expectedDigest
              with
              | Some e => (Err (ErrIntegrityVerification e), [EvResolve ref])
              | None =>
                  let locate (evs : list LoadEvent) :=
                    match repositoryFind s ref with
                    | Err e => (Err (ErrLocateBinary e), (evs ++ [EvFind ref])%list)
                    | Ok (_, wasmPath) => (Ok wasmPath, (evs ++ [EvFind ref])%list)
                    end in
                  if services.ShouldVerifySignature (integrityService s) then
                    match integrityVerifier s ref with
                    | Some e =>
                        (Err (ErrSignatureVerification e),
                         [EvResolve ref; EvVerifySignature ref])
                    | None => locate [EvResolve ref; EvVerifySignature ref]
                    end
                  else locate [EvResolve ref]
              end
          end
      end
  end.

End plugin.

(** ** Package [netutil] *)

Module netutil.

Local Open Scope Z_scope.

(** *** I/O errors and byte streams *)

Inductive IoError : Type :=
| EOF
| ErrRead (msg : string)
| SizeLimitExceededError (Limit Read : Z).

Definition IsSizeLimitExceededError (err : IoError) : bool :=
  match err with
  | SizeLimitExceededError _ _ => true
  | _ => false
  end.

(** An underlying [io.Reader]: the data still to come, in the segments in
    which the reader hands it out, and the error it reports once the data
    is exhausted ([EOF] for a stream that ends normally).  A [Read] into a
    buffer of [k] bytes returns at most [k] bytes of the first segment. *)
Record Stream : Type := mkStream {
  segments : list (list Byte.byte);
  final : IoError
}.

Definition content (s : Stream) : list Byte.byte := concat (segments s).

Definition streamRead (s : Stream) (k : nat)
  : list Byte.byte * option IoError * Stream :=
  match segments s with
  | [] => ([], Some (final s), s)
  | seg :: rest =>
      if (length seg <=? k)%nat then (seg, None, mkStream rest (final s))
      else (firstn k seg, None, mkStream (skipn k seg :: rest) (final s))
  end.

(** *** [LimitedReader] (limitreader.go) *)

Record LimitedReader : Type := mkLimitedReader {
  R : Stream;
  N : Z;
  Limit : Z;
  read : Z
}.

Definition NewLimitedReader (r : Stream) (limit : Z) : LimitedReader :=
  mkLimitedReader r limit limit 0.

(** [Read] into a buffer of [k] bytes: the bytes placed in the buffer, the
    error, and the reader afterwards. *)
Definition Read (l : LimitedReader) (k : nat)
  : list Byte.byte * option IoError * LimitedReader :=
  if N l <=? 0 then
    ([], Some (SizeLimitExceededError (Limit l) (read l)), l)
  else
    let k' := if Z.of_nat k >? N l then Z.to_nat (N l) else k in
    let '(data, err, r1) := streamRead (R l) k' in
    let n := Z.of_nat (length data) in
    let l1 := mkLimitedReader r1 (N l - n) (Limit l) (read l + n) in
    match err with
    | None =>
        if N l1 =? 0 then
          (* one more byte, to see whether more data is there *)
          let '(extra, extraErr, r2) := streamRead r1 1 in
          let l2 := mkLimitedReader r2 (N l1) (Limit l1) (read l1) in
          if (0 <? length extra)%nat then
            (data, Some (SizeLimitExceededError (Limit l) (read l1 + 1)), l2)
          else
            match extraErr with
            | Some EOF | None => (data, err, l2)
            | Some e => (data, Some e, l2)
            end
        else (data, err, l1)
    | Some _ => (data, err, l1)
    end.

(** [io.ReadAll] over a [LimitedReader].  The free space of the buffer
    offered to the [i]-th [Read] is at least one byte and otherwise up to
    the allocator: [S (space i)].  [fuel] bounds the number of [Read]s;
    [None] is "ran out of fuel". *)
Fixpoint ReadAllFrom (space : nat -> nat) (fuel i : nat) (l : LimitedReader)
  (b : list Byte.byte)
  : option (list Byte.byte * option IoError * LimitedReader) :=
  match fuel with
  | O => None
  | S fuel' =>
      let '(data, err, l') := Read l (S (space i)) in
      let b' := (b ++ data)%list in
      match err with
      | Some EOF => Some (b', None, l')
      | Some e => Some (b', Some e, l')
      | None => ReadAllFrom space fuel' (S i) l' b'
      end
  end.

Definition ReadAll (space : nat -> nat) (fuel : nat) (l : LimitedReader)
  : option (list Byte.byte * option IoError * LimitedReader) :=
  ReadAllFrom space fuel 0%nat l [].

(** *** [RetryTransport] (retry.go) *)

Record TransportError : Type := mkTransportError {
  ssrfBlocked : bool;
  errText : string
}.

(** [IsSSRFBlockedError] (secure_dialer.go): the error is, or wraps, an
    [SSRFBlockedError]. *)
Definition IsSSRFBlockedError (err : TransportError) : bool := ssrfBlocked err.

Record Response : Type := mkResponse {
  StatusCode : Z;
  RetryAfter : string
}.

(** What one call of the underlying [RoundTrip] yields. *)
Inductive Outcome : Type :=
| Responded (resp : Response)
| Failed (err : TransportError).

Record RetryTransport : Type := mkRetryTransport {
  hasOnRetry : bool;
  MaxRetries : Z;
  InitialBackoff : Z;
  MaxBackoff : Z
}.

(** The request: [GetBody] is nil, or succeeds or fails at each attempt. *)
Record Request : Type := mkRequest {
  GetBody : option (Z -> option TransportError)
}.

Inductive Event : Type :=
| EvRoundTrip (call : nat)
| EvOnRetry (attempt wait status : Z)
| EvCloseBody
| EvSleep (wait : Z).

Definition isRetryableStatus (statusCode : Z) : bool :=
  if statusCode =? 429 then true
  else if statusCode =? 502 then true
  else if statusCode =? 503 then true
  else if statusCode =? 504 then true
  else false.

(** Two's-complement wrap-around of [int64] / [time.Duration]. *)
Definition wrap64 (z : Z) : Z := (z + 2 ^ 63) mod 2 ^ 64 - 2 ^ 63.

Definition Second : Z := 1000000000.

Section RoundTrip.

(** [strconv.Atoi] on the header value, and [time.Until (http.ParseTime v)]
    read at the time of the call; [None] when the value does not parse. *)
Variable Atoi : string -> option Z.
Variable untilHTTPDate : string -> option Z.

Variable t : RetryTransport.

(** The underlying transport: the outcome of its [n]-th call. *)
Variable base : nat -> Outcome.

Variable req : Request.

Definition calculateBackoff (attempt initial maxDuration : Z)
  (resp : option Response) : Z :=
  let exponential :=
    let backoff := wrap64 (initial * wrap64 (2 ^ attempt)) in
    if backoff >? maxDuration then maxDuration else backoff in
  match resp with
  | Some r =>
      if negb (String.eqb (RetryAfter r) "") then
        match Atoi (RetryAfter r) with
        | Some seconds =>
            let duration := wrap64 (seconds * Second) in
            if duration >? maxDuration then maxDuration else duration
        | None =>
            match untilHTTPDate (RetryAfter r) with
            | Some duration =>
                if duration <? 0 then initial
                else if duration >? maxDuration then maxDuration
                else duration
            | None => exponential
            end
        end
      else exponential
  | None => exponential
  end.

Definition maxRetries : Z := if MaxRetries t =? 0 then 3 else MaxRetries t.
Definition initialBackoff : Z :=
  if InitialBackoff t =? 0 then Second else InitialBackoff t.
Definition maxBackoff : Z :=
  if MaxBackoff t =? 0 then 30 * Second else MaxBackoff t.

Definition onRetry (attempt wait status : Z) : list Event :=
  if hasOnRetry t then [EvOnRetry attempt wait status] else [].

(** The body of [for attempt := 0; attempt <= maxRetries; attempt++];
    [left] is the number of iterations still allowed by the loop
    condition, [maxRetries + 1 - attempt].  Returns the pair
    [(resp, err)] and the events of the remaining iterations. *)
Fixpoint attempts (left : nat) (attempt : Z) (lastResp : option Response)
  (lastErr : option TransportError)
  : (option Response * option TransportError) * list Event :=
  match left with
  | O =>
      match lastResp with
      | Some r => ((Some r, None), [])
      | None => ((None, lastErr), [])
      end
  | S left' =>
      match
        match GetBody req with
        | Some getBody => getBody attempt
        | None => None
        end
      with
      | Some err => ((None, Some err), [])
      | None =>
          let call := EvRoundTrip (Z.to_nat attempt) in
          match base (Z.to_nat attempt) with
          | Failed err =>
              if IsSSRFBlockedError err then ((None, Some err), [call])
              else if attempt <? maxRetries then
                let waitDuration :=
                  calculateBackoff attempt initialBackoff maxBackoff None in
                let '(res, evs) :=
                  attempts left' (attempt + 1) lastResp (Some err) in
                (res,
                 (call :: onRetry (attempt + 1) waitDuration 0
                    ++ EvSleep waitDuration :: evs)%list)
              else ((None, Some err), [call])
          | Responded resp =>
              if negb (isRetryableStatus (StatusCode resp)) then
                ((Some resp, None), [call])
              else if (StatusCode resp >=? 400) && (StatusCode resp <? 500)
                      && negb (StatusCode resp =? 429) then
                ((Some resp, None), [call])
              else if attempt <? maxRetries then
                let waitDuration :=
                  calculateBackoff attempt initialBackoff maxBackoff
                    (Some resp) in
                let '(res, evs) :=
                  attempts left' (attempt + 1) (Some resp) None in
                (res,
                 (call :: onRetry (attempt + 1) waitDuration (StatusCode resp)
                    ++ EvCloseBody :: EvSleep waitDuration :: evs)%list)
              else
                let '(res, evs) :=
                  attempts left' (attempt + 1) (Some resp) None in
                (res, call :: evs)
          end
      end
  end.

Definition RoundTrip
  : (option Response * option TransportError) * list Event :=
  attempts (Z.to_nat (maxRetries + 1)) 0 None None.

End RoundTrip.

(** The calls made on the underlying transport, in order. *)
Definition transportCalls (evs : list Event) : list nat :=
  flat_map (fun e => match e with EvRoundTrip n => [n] | _ => [] end) evs.

(** *** The secure dialer (secure_dialer.go)

    [net.IP] and [net.Conn] are types of the Go library.  The library
    functions the dialer calls - [net.SplitHostPort], [net.ParseIP],
    [ip.To4() != nil], [ip.String()], [net.JoinHostPort] - and
    [ValidateAddress] with its options, whose code is not in the files at
    hand, are parameters.  What the resolver answers and what the dial
    gives may change from call to call, and so may the clock: each call
    takes them as arguments.  Times and durations are in nanoseconds.
    A nil [cache] map reads like an empty one, and is the empty map
    here. *)

Inductive NetfilterOption : Type :=
| WithResolveDNS (resolve : bool)
| WithBlockPrivate (block : bool)
| WithBlockLocalhost (block : bool).

Record ValidationResult : Type := mkValidationResult {
  Allowed : bool;
  Reason : string
}.

Inductive DialError : Type :=
| ErrInvalidAddress (addr e : string)
| ErrDNSLookup (host e : string)
| ErrNoIPAddresses (host : string)
| SSRFBlockedError (Address Reason : string)
| ErrDial (e : string).

Definition Minute : Z := 60 * Second.

(** [t.Sub(u)], which saturates at the ends of [int64]. *)
Definition Sub (t u : Z) : Z := Z.max (- 2 ^ 63) (Z.min (2 ^ 63 - 1) (t - u)).

(** The library as the dialer uses it. *)
Class NetLib : Type := {
  IP : Type;
  Conn : Type;
  SplitHostPort : string -> result string (string * string);
  ParseIP : string -> option IP;
  To4 : IP -> bool;
  IPString : IP -> string;
  JoinHostPort : string -> string -> string;
  ValidateAddress : string -> list NetfilterOption -> ValidationResult
}.

Section SecureDialer.

Context {lib : NetLib}.

Record pinnedEntry : Type := mkPinnedEntry {
  ip : IP;
  timestamp : Z
}.

Record SecureDialer : Type := mkSecureDialer {
  hasOnBlocked : bool;
  hasOnDNSPinning : bool;
  Timeout : Z;
  CacheTTL : Z;
  AllowPrivateNetwork : bool;
  cache : gmap string pinnedEntry
}.

(** The network as one call meets it: [resolver.LookupIPAddr] and
    [net.Dialer.DialContext] at a timeout, a network and an address. *)
Record World : Type := mkWorld {
  LookupIPAddr : string -> result string (list IP);
  netDial : Z -> string -> string -> result string Conn
}.

Inductive DialEvent : Type :=
| EvLookupIPAddr (host : string)
| EvOnDNSPinning (host : string) (ip : IP)
| EvValidateAddress (addr : string) (opts : list NetfilterOption)
| EvOnBlocked (addr reason : string)
| EvDial (timeout : Z) (network addr : string).

(** The options both validations pass to [ValidateAddress]. *)
Definition netfilterOpts (d : SecureDialer) : list NetfilterOption :=
  (WithResolveDNS false
   :: (if AllowPrivateNetwork d
       then [WithBlockPrivate false; WithBlockLocalhost false]
       else []))%list.

Definition validate (d : SecureDialer) (addr : string)
  : option DialError * list DialEvent :=
  let result := ValidateAddress addr (netfilterOpts d) in
  if negb (Allowed result) then
    (Some (SSRFBlockedError addr (Reason result)),
     (EvValidateAddress addr (netfilterOpts d)
      :: (if hasOnBlocked d then [EvOnBlocked addr (Reason result)] else []))
     %list)
  else (None, [EvValidateAddress addr (netfilterOpts d)]).

Definition validateWithNetfilter (d : SecureDialer) (host port : string)
  : option DialError * list DialEvent :=
  let addr := if String.eqb port "" then host else JoinHostPort host port in
  validate d addr.

Definition validateResolvedIP (d : SecureDialer) (ip : IP)
  : option DialError * list DialEvent :=
  validate d (IPString ip).

(** [getCached] at the time [now] that [time.Since] reads. *)
Definition getCached (d : SecureDialer) (now : Z) (host : string)
  : option IP :=
  match cache d !! host with
  | None => None
  | Some entry =>
      let ttl := if CacheTTL d =? 0 then 5 * Minute else CacheTTL d in
      if Sub now (timestamp entry) >=? ttl then None else Some (ip entry)
  end.

(** [cacheIP] at the time [now] that [time.Now] reads. *)
Definition cacheIP (d : SecureDialer) (now : Z) (host : string) (ip : IP)
  : SecureDialer :=
  mkSecureDialer (hasOnBlocked d) (hasOnDNSPinning d) (Timeout d)
    (CacheTTL d) (AllowPrivateNetwork d)
    (<[host := mkPinnedEntry ip now]> (cache d)).

Definition dialIP (d : SecureDialer) (w : World) (network : string) (ip : IP)
  (port : string) : result DialError Conn * list DialEvent :=
  let timeout := if Timeout d =? 0 then 30 * Second else Timeout d in
  let addr := JoinHostPort (IPString ip) port in
  (match netDial w timeout network addr with
   | Ok conn => Ok conn
   | Err e => Err (ErrDial e)
   end,
   [EvDial timeout network addr]).

(** The address the dialer picks from a DNS answer: the first IPv4
    address, or else the first address. *)
Definition selectIP (ips : list IP) : option IP :=
  match List.find To4 ips with
  | Some ip => Some ip
  | None => head ips
  end.

(** [DialContext]: the result, the dialer with its cache afterwards, and
    the events in order.  [tSince] is the clock when the cache is read,
    [tNow] the clock when an entry is written. *)
Definition DialContext (d : SecureDialer) (w : World) (tSince tNow : Z)
  (network addr : string)
  : result DialError Conn * SecureDialer * list DialEvent :=
  match SplitHostPort addr with
  | Err e => (Err (ErrInvalidAddress addr e), d, [])
  | Ok (host, port) =>
      match getCached d tSince host with
      | Some ip =>
          let '(res, evs) := dialIP d w network ip port in (res, d, evs)
      | None =>
          match ParseIP host with
          | Some ip =>
              match validateWithNetfilter d host port with
              | (Some e, evs) => (Err e, d, evs)
              | (None, evs) =>
                  let d' := cacheIP d tNow host ip in
                  let '(res, evs') := dialIP d' w network ip port in
                  (res, d', (evs ++ evs')%list)
              end
          | None =>
              match LookupIPAddr w host with
              | Err e => (Err (ErrDNSLookup host e), d, [EvLookupIPAddr host])
              | Ok ips =>
                  match selectIP ips with
                  | None =>
                      (Err (ErrNoIPAddresses host), d, [EvLookupIPAddr host])
                  | Some selectedIP =>
                      let pinning :=
                        if hasOnDNSPinning d
                        then [EvOnDNSPinning host selectedIP] else [] in
                      match validateResolvedIP d selectedIP with
                      | (Some e, evs) =>
                          (Err e, d,
                           (EvLookupIPAddr host :: pinning ++ evs)%list)
                      | (None, evs) =>
                          let d' := cacheIP d tNow host selectedIP in
                          let '(res, evs') :=
                            dialIP d' w network selectedIP port in
                          (res, d',
                           (EvLookupIPAddr host :: pinning ++ evs ++ evs')
                           %list)
                      end
                  end
              end
          end
      end
  end.

End SecureDialer.

End netutil.

(** ** Package [hostlib]: the HTTP response reader (http.go) *)

Module http.

Record HTTPError : Type := mkHTTPError {
  Code : string;
  Message : string
}.

Record HTTPResponse : Type := mkHTTPResponse {
  Headers : list (string * list string);
  Error : option HTTPError;
  Proto : string;
  Body : list Byte.byte;
  LatencyMs : Z;
  StatusCode : Z;
  BodyTruncated : bool
}.

(** The [*http.Response] handed to [readHTTPResponse]. *)
Record Response : Type := mkResponse {
  RespStatusCode : Z;
  RespHeader : list (string * list string);
  RespProto : string;
  RespBody : netutil.Stream
}.

(** [err.Error()] of an I/O error. *)
Definition errorText (e : netutil.IoError) : string :=
  match e with
  | netutil.EOF => "EOF"
  | netutil.ErrRead msg => msg
  | netutil.SizeLimitExceededError _ _ => "size limit exceeded"
  end.

(** [readHTTPResponse]; [None] only when [fuel] does not cover the reads
    of [io.ReadAll]. *)
Definition readHTTPResponse (space : nat -> nat) (fuel : nat)
  (resp : Response) (latencyMs : Z) (maxBodySize : Z) : option HTTPResponse :=
  let limitedReader := netutil.NewLimitedReader (RespBody resp) maxBodySize in
  match netutil.ReadAll space fuel limitedReader with
  | None => None
  | Some (respBody, Some err, _) =>
      let truncated := netutil.IsSizeLimitExceededError err in
      if truncated then
        Some (mkHTTPResponse (RespHeader resp) None (RespProto resp) respBody
                latencyMs (RespStatusCode resp) true)
      else
        Some (mkHTTPResponse (RespHeader resp)
                (Some (mkHTTPError "READ_BODY_FAILED" (errorText err)))
                "" [] latencyMs (RespStatusCode resp) false)
  | Some (respBody, None, _) =>
      Some (mkHTTPResponse (RespHeader resp) None (RespProto resp) respBody
              latencyMs (RespStatusCode resp) false)
  end.

(** *** Request parameters and configuration (http.go) *)

Record HTTPRequest : Type := mkHTTPRequest {
  ReqHeaders : list (string * string);
  FollowRedirects : option bool;
  Method : string;
  URL : string;
  ReqBody : list Byte.byte;
  Timeout : Z;
  MaxRedirects : Z
}.

Record httpConfig : Type := mkHttpConfig {
  timeout : Z;
  maxRedirects : Z;
  maxBodySize : Z;
  followRedirects : bool;
  ssrfProtection : bool;
  allowPrivate : bool
}.

Definition Millisecond : Z := 1000000.

Definition defaultHTTPConfig : httpConfig :=
  mkHttpConfig (30 * netutil.Second) 10 (10 * 1024 * 1024) true false false.

(** An [HTTPOption] is a function on the unexported [httpConfig]; the
    package's five constructors are the only way to make one. *)
Inductive HTTPOption : Type :=
| WithHTTPRequestTimeout (d : Z)
| WithHTTPMaxRedirects (n : Z)
| WithHTTPFollowRedirects (follow : bool)
| WithHTTPMaxBodySize (size : Z)
| WithHTTPSSRFProtection (allowPrivate : bool).

(** [opt(&cfg)]. *)
Definition applyOption (opt : HTTPOption) (c : httpConfig) : httpConfig :=
  match opt with
  | WithHTTPRequestTimeout d =>
      if (d >? 0)%Z then
        mkHttpConfig d (maxRedirects c) (maxBodySize c) (followRedirects c)
          (ssrfProtection c) (allowPrivate c)
      else c
  | WithHTTPMaxRedirects n =>
      if (n >=? 0)%Z then
        mkHttpConfig (timeout c) n (maxBodySize c) (followRedirects c)
          (ssrfProtection c) (allowPrivate c)
      else c
  | WithHTTPFollowRedirects follow =>
      mkHttpConfig (timeout c) (maxRedirects c) (maxBodySize c) follow
        (ssrfProtection c) (allowPrivate c)
  | WithHTTPMaxBodySize size =>
      if (size >? 0)%Z then
        mkHttpConfig (timeout c) (maxRedirects c) size (followRedirects c)
          (ssrfProtection c) (allowPrivate c)
      else c
  | WithHTTPSSRFProtection allowPrivate =>
      mkHttpConfig (timeout c) (maxRedirects c) (maxBodySize c)
        (followRedirects c) true allowPrivate
  end.

Definition applyRequestConfig (req : HTTPRequest) (cfg : httpConfig)
  : httpConfig :=
  let cfg1 :=
    if (Timeout req >? 0)%Z then
      mkHttpConfig (netutil.wrap64 (Timeout req * Millisecond))
        (maxRedirects cfg) (maxBodySize cfg) (followRedirects cfg)
        (ssrfProtection cfg) (allowPrivate cfg)
    else cfg in
  let cfg2 :=
    if (MaxRedirects req >? 0)%Z then
      mkHttpConfig (timeout cfg1) (MaxRedirects req) (maxBodySize cfg1)
        (followRedirects cfg1) (ssrfProtection cfg1) (allowPrivate cfg1)
    else cfg1 in
  match FollowRedirects req with
  | Some follow =>
      mkHttpConfig (timeout cfg2) (maxRedirects cfg2) (maxBodySize cfg2)
        follow (ssrfProtection cfg2) (allowPrivate cfg2)
  | None => cfg2
  end.

(** [validateHTTPRequest]: the error, and the request with its method
    defaulted. *)
Definition validateHTTPRequest (req : HTTPRequest)
  : option HTTPError * HTTPRequest :=
  if String.eqb (URL req) "" then
    (Some (mkHTTPError "INVALID_REQUEST" "URL is required"), req)
  else
    (None,
     if String.eqb (Method req) "" then
       mkHTTPRequest (ReqHeaders req) (FollowRedirects req) "GET" (URL req)
         (ReqBody req) (Timeout req) (MaxRedirects req)
     else req).

(** The configuration [PerformHTTPRequest] works with: the default, the
    SSRF setting found in the context under ["ssrf_allow_private"], the
    options in order, then the request's own parameters. *)
Definition PerformHTTPRequest_config (ssrfAllowPrivate : option bool)
  (opts : list HTTPOption) (req : HTTPRequest) : httpConfig :=
  let cfg := defaultHTTPConfig in
  let cfg :=
    match ssrfAllowPrivate with
    | Some allowPrivate => applyOption (WithHTTPSSRFProtection allowPrivate) cfg
    | None => cfg
    end in
  let cfg := fold_left (fun c opt => applyOption opt c) opts cfg in
  applyRequestConfig req cfg.

(** The redirect policy of the client [createHTTPClient] builds: what is
    decided when a redirect arrives after [via] requests.  With
    [CheckRedirect] left nil the policy is that of [net/http]: stop after
    ten requests. *)
Inductive RedirectDecision : Type :=
| FollowRedirect
| UseLastResponse
| StopRedirects (n : Z).

Definition CheckRedirect (cfg : httpConfig) (via : nat) : RedirectDecision :=
  if negb (followRedirects cfg) then UseLastResponse
  else if (maxRedirects cfg >? 0)%Z then
    if (Z.of_nat via >=? maxRedirects cfg)%Z
    then StopRedirects (maxRedirects cfg) else FollowRedirect
  else
    if (10 <=? via)%nat then StopRedirects 10 else FollowRedirect.

End http.

(** ** Package [hostfunc] (module reglet-abi): the grant model

    The types are declared outside this repository; the records below hold
    the fields the repository reads and writes. *)

Module hostfunc.

Record NetworkRule : Type := mkNetworkRule {
  Hosts : list string;
  Ports : list string
}.

Record NetworkCapability : Type := mkNetworkCapability {
  NetRules : list NetworkRule
}.

Record FileSystemRule : Type := mkFileSystemRule {
  Read : list string;
  Write : list string
}.

Record FileSystemCapability : Type := mkFileSystemCapability {
  FSRules : list FileSystemRule
}.

Record EnvironmentCapability : Type := mkEnvironmentCapability {
  Variables : list string
}.

Record ExecCapability : Type := mkExecCapability {
  Commands : list string
}.

Record GrantSet : Type := mkGrantSet {
  Network : option NetworkCapability;
  FS : option FileSystemCapability;
  Env : option EnvironmentCapability;
  Exec : option ExecCapability
}.

(** [&hostfunc.GrantSet{}]. *)
Definition emptyGrantSet : GrantSet := mkGrantSet None None None None.

(** The methods of [*GrantSet] the gatekeeper calls; their code is not part
    of this repository, so they are an interface here.  [Deduplicate] and
    [Merge] update the receiver in place: they return the updated set. *)
Class GrantSetOps : Type := {
  IsEmpty : GrantSet -> bool;
  Clone : GrantSet -> GrantSet;
  Difference : GrantSet -> GrantSet -> GrantSet;
  Deduplicate : GrantSet -> GrantSet;
  Merge : GrantSet -> GrantSet -> GrantSet
}.

Record NetworkRequest : Type := mkNetworkRequest {
  Host : string;
  Port : Z
}.

Record ExecCapabilityRequest : Type := mkExecCapabilityRequest {
  Command : string
}.

End hostfunc.

(** ** Package [capability]: risk analysis (risk.go) and ports (ports.go) *)

Module capability.

Inductive RiskLevel : Type :=
| RiskNone
| RiskLow
| RiskMedium
| RiskHigh
| RiskCritical.

(** The [iota] value of a level. *)
Definition rank (l : RiskLevel) : Z :=
  match l with
  | RiskNone => 0
  | RiskLow => 1
  | RiskMedium => 2
  | RiskHigh => 3
  | RiskCritical => 4
  end.

Record RiskFactor : Type := mkRiskFactor {
  FactorDescription : string;
  FactorRule : string;
  FactorLevel : RiskLevel
}.

Record RiskReport : Type := mkRiskReport {
  RiskFactors : list RiskFactor;
  Level : RiskLevel
}.

(** The closure [addFactor], with the report it updates made explicit. *)
Definition addFactor (report : RiskReport) (level : RiskLevel)
  (desc rule : string) : RiskReport :=
  if (rank level >? rank RiskNone)%Z then
    mkRiskReport
      (RiskFactors report ++ [mkRiskFactor desc rule level])%list
      (if (rank level >? rank (Level report))%Z then level else Level report)
  else report.

(** The inner loop over [rule.Hosts], which stops at the first match. *)
Definition isWildcardHost (hosts : list string) : bool :=
  existsb (fun h => String.eqb h "*" || String.eqb h "0.0.0.0") hosts.

Definition analyzeNetworkRule (report : RiskReport)
  (rule : hostfunc.NetworkRule) : RiskReport :=
  let ruleStr :=
    "Network: " +:+ fmtStrings (hostfunc.Hosts rule) +:+ ":"
    +:+ fmtStrings (hostfunc.Ports rule) in
  if isWildcardHost (hostfunc.Hosts rule) then
    addFactor report RiskCritical "Unrestricted network access" ruleStr
  else addFactor report RiskMedium "Outbound network access" ruleStr.

Definition analyzeFSRule (report : RiskReport)
  (rule : hostfunc.FileSystemRule) : RiskReport :=
  let report1 :=
    if (0 <? length (hostfunc.Write rule))%nat then
      addFactor report RiskHigh "Filesystem write access"
        ("FS Write: " +:+ fmtStrings (hostfunc.Write rule))
    else report in
  if (0 <? length (hostfunc.Read rule))%nat then
    addFactor report1 RiskMedium "Filesystem read access"
      ("FS Read: " +:+ fmtStrings (hostfunc.Read rule))
  else report1.

Definition AnalyzeRisk (grants : option hostfunc.GrantSet) : RiskReport :=
  let report := mkRiskReport [] RiskNone in
  match grants with
  | None => report
  | Some grants =>
      (* 1. Network *)
      let report1 :=
        match hostfunc.Network grants with
        | Some net => fold_left analyzeNetworkRule (hostfunc.NetRules net) report
        | None => report
        end in
      (* 2. FS *)
      let report2 :=
        match hostfunc.FS grants with
        | Some fs => fold_left analyzeFSRule (hostfunc.FSRules fs) report1
        | None => report1
        end in
      (* 3. Exec *)
      let report3 :=
        match hostfunc.Exec grants with
        | Some ex =>
            if (0 <? length (hostfunc.Commands ex))%nat then
              addFactor report2 RiskCritical "Arbitrary command execution"
                ("Exec: " +:+ fmtStrings (hostfunc.Commands ex))
            else report2
        | None => report2
        end in
      (* 4. Env *)
      match hostfunc.Env grants with
      | Some env =>
          if (0 <? length (hostfunc.Variables env))%nat then
            addFactor report3 RiskLow "Environment variable access"
              ("Env: " +:+ fmtStrings (hostfunc.Variables env))
          else report3
      | None => report3
      end
  end.

(** [Request.Rule] is an [interface{}] holding one of three things. *)
Inductive RuleValue : Type :=
| RuleNetwork (rule : hostfunc.NetworkRule)
| RuleFS (rule : hostfunc.FileSystemRule)
| RuleString (s : string).

Record Request : Type := mkRequest {
  Rule : RuleValue;
  Kind : string;
  Description : string;
  IsBroad : bool
}.

End capability.

(** ** Package [capability/gatekeeper] (gatekeeper.go)

    Log lines ([slog], [fmt.Fprintf os.Stderr]) are not part of the model;
    calls on the prompter and on the grant store are recorded as events.
    The [capabilityInfo] argument is passed along but never read by the
    source and is left out. *)

Module gatekeeper.

Import hostfunc capability.

Definition SecurityLevel : Type := string.
Definition SecurityStrict : SecurityLevel := "strict".
Definition SecurityStandard : SecurityLevel := "standard".
Definition SecurityPermissive : SecurityLevel := "permissive".

Inductive Event : Type :=
| EvStoreLoad
| EvStoreSave (grants : GrantSet)
| EvStoreConfigPath
| EvIsInteractive
| EvFormatNonInteractiveError (missing : GrantSet)
| EvPromptForCapability (req : Request).

(** [capability.Prompter]: what the user answers may depend on everything
    that happened before, so the answer takes the events so far. *)
Record Prompter : Type := mkPrompter {
  IsInteractive : bool;
  PromptForCapability : list Event -> Request -> bool * bool * option string;
  FormatNonInteractiveError : GrantSet -> string
}.

(** [capability.GrantStore]. *)
Record GrantStore : Type := mkGrantStore {
  Load : result string GrantSet;
  Save : GrantSet -> option string
}.

Record Gatekeeper : Type := mkGatekeeper {
  store : GrantStore;
  prompter : Prompter;
  securityLevel : SecurityLevel
}.

(** What the prompting functions share through pointers: the grants being
    built, the [shouldSave] flag, and the events so far. *)
Record PromptState : Type := mkPromptState {
  newGrants : GrantSet;
  shouldSave : bool;
  events : list Event
}.

Section Gatekeeper.

Context {ops : GrantSetOps}.
Variable g : Gatekeeper.

(** [evaluateWithSecurityLevel]: [(granted, always, err)] and the events
    it adds.  [riskFactors] only feeds the log line of the strict case. *)
Definition evaluateWithSecurityLevel (history : list Event) (req : Request)
  (riskFactors : list RiskFactor)
  : (bool * bool * option string) * list Event :=
  let ask :=
    if String.eqb (securityLevel g) SecurityPermissive then
      ((true, false, None), [])
    else
      (PromptForCapability (prompter g) history req,
       [EvPromptForCapability req]) in
  if IsBroad req then
    if String.eqb (securityLevel g) SecurityStrict then
      ((false, false,
        Some ("broad capability denied by strict security policy: "
              +:+ Description req)), [])
    else if String.eqb (securityLevel g) SecurityPermissive then
      ((true, false, None), [])
    else ask
  else ask.

(** The tail every prompting loop body shares: evaluate, then merge the
    rule on a grant, or return the denial. *)
Definition grantOrDeny (st : PromptState) (req : Request)
  (gs toMerge : GrantSet) (denied : string) : option string * PromptState :=
  let '((granted, always, err), evs) :=
    evaluateWithSecurityLevel (events st) req
      (RiskFactors (AnalyzeRisk (Some gs))) in
  let st1 := mkPromptState (newGrants st) (shouldSave st)
               (events st ++ evs)%list in
  match err with
  | Some e => (Some e, st1)
  | None =>
      if granted then
        (None,
         mkPromptState (Merge (newGrants st1) toMerge)
           (if always then true else shouldSave st1) (events st1))
      else (Some denied, st1)
  end.

(** [for _, x := range xs] with a body that may return an error. *)
Fixpoint forEach {A : Type}
  (body : PromptState -> A -> option string * PromptState)
  (xs : list A) (st : PromptState) : option string * PromptState :=
  match xs with
  | [] => (None, st)
  | x :: rest =>
      match body st x with
      | (Some e, st') => (Some e, st')
      | (None, st') => forEach body rest st'
      end
  end.

Definition networkRequest (rule : NetworkRule) : Request :=
  let isBroad :=
    (length (Hosts rule) =? 1)%nat && String.eqb (nth 0 (Hosts rule) "") "*"
    && (length (Ports rule) =? 1)%nat && String.eqb (nth 0 (Ports rule) "") "*" in
  mkRequest (RuleNetwork rule) "network"
    ("network " +:+ fmtStrings (Hosts rule) +:+ ":" +:+ fmtStrings (Ports rule))
    isBroad.

Definition promptForNetwork (missing : GrantSet) (st : PromptState)
  : option string * PromptState :=
  match Network missing with
  | None => (None, st)
  | Some net =>
      forEach
        (fun st rule =>
           let gs := mkGrantSet (Some (mkNetworkCapability [rule]))
                       None None None in
           let req := networkRequest rule in
           let toMerge := mkGrantSet (Some (mkNetworkCapability [rule]))
                            None None None in
           grantOrDeny st req gs toMerge
             ("capability denied by user: network "
              +:+ fmtStrings (Hosts rule) +:+ ":" +:+ fmtStrings (Ports rule)))
        (NetRules net) st
  end.

Definition fsReadRequest (path : string) : Request :=
  let isBroad := String.eqb path "/**" || String.eqb path "**" in
  mkRequest (RuleFS (mkFileSystemRule [path] [])) "fs"
    ("fs read:" +:+ path) isBroad.

Definition fsWriteRequest (path : string) : Request :=
  let isBroad := String.eqb path "/**" || String.eqb path "**" in
  mkRequest (RuleFS (mkFileSystemRule [] [path])) "fs"
    ("fs write:" +:+ path) isBroad.

Definition promptForFS (missing : GrantSet) (st : PromptState)
  : option string * PromptState :=
  match FS missing with
  | None => (None, st)
  | Some fs =>
      forEach
        (fun st rule =>
           match
             forEach
               (fun st path =>
                  let gs := mkGrantSet None
                    (Some (mkFileSystemCapability [mkFileSystemRule [path] []]))
                    None None in
                  grantOrDeny st (fsReadRequest path) gs gs
                    ("capability denied by user: fs read:" +:+ path))
               (Read rule) st
           with
           | (Some e, st') => (Some e, st')
           | (None, st') =>
               forEach
                 (fun st path =>
                    let gs := mkGrantSet None
                      (Some (mkFileSystemCapability [mkFileSystemRule [] [path]]))
                      None None in
                    grantOrDeny st (fsWriteRequest path) gs gs
                      ("capability denied by user: fs write:" +:+ path))
                 (Write rule) st'
           end)
        (FSRules fs) st
  end.

Definition envRequest (v : string) : Request :=
  let isBroad := String.eqb v "*" in
  mkRequest (RuleString v) "env" ("env " +:+ v) isBroad.

Definition promptForEnv (missing : GrantSet) (st : PromptState)
  : option string * PromptState :=
  match Env missing with
  | None => (None, st)
  | Some env =>
      forEach
        (fun st v =>
           let gs := mkGrantSet None None
                       (Some (mkEnvironmentCapability [v])) None in
           grantOrDeny st (envRequest v) gs gs
             ("capability denied by user: env " +:+ v))
        (Variables env) st
  end.

Definition execRequest (cmd : string) : Request :=
  let isBroad := String.eqb cmd "**" || String.eqb cmd "*" in
  mkRequest (RuleString cmd) "exec" ("exec " +:+ cmd) isBroad.

Definition promptForExec (missing : GrantSet) (st : PromptState)
  : option string * PromptState :=
  match Exec missing with
  | None => (None, st)
  | Some ex =>
      forEach
        (fun st cmd =>
           let gs := mkGrantSet None None None
                       (Some (mkExecCapability [cmd])) in
           grantOrDeny st (execRequest cmd) gs gs
             ("capability denied by user: exec " +:+ cmd))
        (Commands ex) st
  end.

Definition promptForCapabilities (missing : GrantSet) (st : PromptState)
  : option string * PromptState :=
  match promptForNetwork missing st with
  | (Some e, st1) => (Some e, st1)
  | (None, st1) =>
      match promptForFS missing st1 with
      | (Some e, st2) => (Some e, st2)
      | (None, st2) =>
          match promptForEnv missing st2 with
          | (Some e, st3) => (Some e, st3)
          | (None, st3) => promptForExec missing st3
          end
      end
  end.

(** [GrantCapabilities]: the result and the events, in order. *)
Definition GrantCapabilities (required : option GrantSet) (trustAll : bool)
  : result string GrantSet * list Event :=
  match required with
  | None => (Ok emptyGrantSet, [])
  | Some required =>
      if IsEmpty required then (Ok emptyGrantSet, [])
      else if trustAll then (Ok (Clone required), [])
      else
        let existingGrants :=
          match Load (store g) with
          | Ok grants => grants
          | Err _ => emptyGrantSet
          end in
        let missing := Difference required existingGrants in
        if IsEmpty missing then (Ok existingGrants, [EvStoreLoad])
        else
          let missing := Deduplicate missing in
          if negb (IsInteractive (prompter g)) then
            (Err (FormatNonInteractiveError (prompter g) missing),
             [EvStoreLoad; EvIsInteractive;
              EvFormatNonInteractiveError missing])
          else
            let st0 := mkPromptState (Clone existingGrants) false
                         [EvStoreLoad; EvIsInteractive] in
            match promptForCapabilities missing st0 with
            | (Some e, st) => (Err e, events st)
            | (None, st) =>
                if shouldSave st then
                  match Save (store g) (newGrants st) with
                  | Some _ =>
                      (Ok (newGrants st),
                       (events st ++ [EvStoreSave (newGrants st)])%list)
                  | None =>
                      (Ok (newGrants st),
                       (events st ++ [EvStoreSave (newGrants st);
                                      EvStoreConfigPath])%list)
                  end
                else (Ok (newGrants st), events st)
            end
  end.

End Gatekeeper.

(** The requests made to the prompter, in order. *)
Definition prompts (evs : list Event) : list Request :=
  flat_map
    (fun e => match e with EvPromptForCapability r => [r] | _ => [] end) evs.

(** The calls on the grant store. *)
Definition storeCalls (evs : list Event) : list Event :=
  List.filter
    (fun e =>
       match e with
       | EvStoreLoad | EvStoreSave _ | EvStoreConfigPath => true
       | _ => false
       end) evs.

End gatekeeper.

(** ** Package [hostlib]: capability enforcement (capability.go) *)

Module hostlib.

Import hostfunc.

(** Request payloads of the host functions (module reglet-abi), with the
    fields the middleware reads. *)
Record DNSRequest : Type := mkDNSRequest { Hostname : string }.
Record TCPRequest : Type := mkTCPRequest { TCPHost : string; TCPPort : string }.
Record SMTPRequest : Type := mkSMTPRequest { SMTPHost : string; SMTPPort : string }.
Record HTTPRequest : Type := mkHTTPRequest { URL : string }.
Record ExecRequest : Type := mkExecRequest { ExecCommand : string; Args : list string }.

(** What the middleware reads of a parsed [*url.URL]. *)
Record ParsedURL : Type := mkParsedURL {
  Scheme : string;
  URLHostname : string;
  URLPort : string
}.

(** Library and sibling functions the middleware calls and whose code is
    not in the files at hand: [json.Unmarshal] at each request type,
    [url.Parse], [strconv.Atoi], [NewValidationError(msg).ToJSON()],
    [IsDangerousExecution] and [GetExecutionTypeDescription]. *)
Class Externals : Type := {
  unmarshalDNS : string -> option DNSRequest;
  unmarshalTCP : string -> option TCPRequest;
  unmarshalSMTP : string -> option SMTPRequest;
  unmarshalHTTP : string -> option HTTPRequest;
  unmarshalExec : string -> option ExecRequest;
  urlParse : string -> result string ParsedURL;
  Atoi : string -> option Z;
  validationErrorJSON : string -> string;
  IsDangerousExecution : string -> list string -> bool;
  GetExecutionTypeDescription : string -> list string -> string
}.

(** [policy.Policy], the methods the checker uses here. *)
Record Policy : Type := mkPolicy {
  PolicyCheckNetwork : NetworkRequest -> GrantSet -> bool;
  PolicyEvaluateNetwork : NetworkRequest -> GrantSet -> bool;
  PolicyCheckExec : ExecCapabilityRequest -> GrantSet -> bool
}.

(** The context of a call: the function name when the context is a
    [HostContext], the plugin name stored by [WithCapabilityPluginName],
    and the value under ["ssrf_allow_private"]. *)
Record Context : Type := mkContext {
  hostFunctionName : option string;
  capabilityPluginName : option string;
  ssrfAllowPrivate : option bool
}.

Definition CapabilityPluginNameFromContext (ctx : Context) : option string :=
  capabilityPluginName ctx.

Definition withSSRFAllowPrivate (ctx : Context) (allowPrivate : bool)
  : Context :=
  mkContext (hostFunctionName ctx) (capabilityPluginName ctx)
    (Some allowPrivate).

(** Calls on the checker, on the denial handler and on the inner handler. *)
Inductive Event : Type :=
| EvAllowsPrivateNetwork (pluginName : string)
| EvCheckNetwork (pluginName : string) (req : NetworkRequest)
| EvCheckNetworkConnection (pluginName host : string) (port : Z)
| EvCheckExec (pluginName : string) (req : ExecCapabilityRequest)
| EvDenialHandler (pluginName kind pattern message : string)
| EvNext (ctx : Context) (payload : string).

(** The events that are capability checks. *)
Definition isCapabilityCheck (e : Event) : bool :=
  match e with
  | EvCheckNetwork _ _ | EvCheckNetworkConnection _ _ _ | EvCheckExec _ _ => true
  | _ => false
  end.

Record CapabilityChecker : Type := mkCapabilityChecker {
  policy : Policy;
  grantedCapabilities : gmap string (option GrantSet);
  hasDenialHandler : bool
}.

(** [%d] of an [int]. *)
Definition fmtInt (z : Z) : string :=
  DecimalString.NilZero.string_of_int (Z.to_int z).

Section Checker.

Variable c : CapabilityChecker.

(** [grants, ok := c.grantedCapabilities[pluginName]] with
    [!ok || grants == nil] mapped to [None]. *)
Definition grantsOf (pluginName : string) : option GrantSet :=
  match grantedCapabilities c !! pluginName with
  | Some (Some grants) => Some grants
  | _ => None
  end.

Definition handleDeny (pluginName kind pattern message : string)
  : option string * list Event :=
  let fullMsg := message +:+ ": " +:+ pattern in
  (Some fullMsg,
   if hasDenialHandler c then [EvDenialHandler pluginName kind pattern fullMsg]
   else []).

Definition CheckNetwork (pluginName : string) (req : NetworkRequest)
  : option string * list Event :=
  let pattern := Host req +:+ ":" +:+ fmtInt (Port req) in
  let '(err, evs) :=
    match grantsOf pluginName with
    | None => handleDeny pluginName "network" pattern "no capabilities granted"
    | Some grants =>
        if PolicyCheckNetwork (policy c) req grants then (None, [])
        else handleDeny pluginName "network" pattern "network capability denied"
    end in
  (err, EvCheckNetwork pluginName req :: evs).

Definition CheckNetworkConnection (pluginName host : string) (port : Z)
  : option string * list Event :=
  let pattern := host +:+ ":" +:+ fmtInt port in
  let '(err, evs) :=
    match grantsOf pluginName with
    | None => handleDeny pluginName "network" pattern "no capabilities granted"
    | Some grants =>
        let req := mkNetworkRequest host port in
        (* 1. silent check; 2. loud check *)
        if PolicyEvaluateNetwork (policy c) req grants then (None, [])
        else
          let _ := PolicyCheckNetwork (policy c) req grants in
          handleDeny pluginName "network" pattern "network capability denied"
    end in
  (err, EvCheckNetworkConnection pluginName host port :: evs).

Definition CheckExec (pluginName : string) (req : ExecCapabilityRequest)
  : option string * list Event :=
  let '(err, evs) :=
    match grantsOf pluginName with
    | None =>
        handleDeny pluginName "exec" (Command req) "no capabilities granted"
    | Some grants =>
        if PolicyCheckExec (policy c) req grants then (None, [])
        else handleDeny pluginName "exec" (Command req) "exec capability denied"
    end in
  (err, EvCheckExec pluginName req :: evs).

Definition AllowsPrivateNetwork (pluginName : string) : bool :=
  match grantsOf pluginName with
  | None => false
  | Some grants =>
      PolicyEvaluateNetwork (policy c) (mkNetworkRequest "127.0.0.1" 0) grants
  end.

Context {ext : Externals}.

(** [port, _ := strconv.Atoi(s)]: zero when [s] does not parse. *)
Definition atoiOrZero (s : string) : Z :=
  match Atoi s with Some z => z | None => 0%Z end.

Definition checkHTTPCapability (pluginName rawURL : string)
  : option string * list Event :=
  match urlParse rawURL with
  | Err e => (Some ("invalid URL: " +:+ e), [])
  | Ok parsedURL =>
      let portStr :=
        if String.eqb (URLPort parsedURL) "" then
          if String.eqb (Scheme parsedURL) "https" then "443" else "80"
        else URLPort parsedURL in
      let port := atoiOrZero portStr in
      CheckNetworkConnection pluginName (URLHostname parsedURL) port
  end.

(** The inner handler: its response and error. *)
Variable next : Context -> string -> string * option string.

(** Ends of the handler: pass the call on, or answer with a validation
    error. *)
Definition callNext (ctx : Context) (payload : string) (evs : list Event)
  : (string * option string) * list Event :=
  (next ctx payload, (evs ++ [EvNext ctx payload])%list).

Definition deny (msg : string) (evs : list Event)
  : (string * option string) * list Event :=
  ((validationErrorJSON msg, None), evs).

(** [CapabilityMiddleware(checker)(next)]. *)
Definition CapabilityMiddleware (ctx : Context) (payload : string)
  : (string * option string) * list Event :=
  let funcName :=
    match hostFunctionName ctx with Some fn => fn | None => "" end in
  match CapabilityPluginNameFromContext ctx with
  | None => callNext ctx payload []
  | Some pluginName =>
      let allowPrivate := AllowsPrivateNetwork pluginName in
      let ev0 := [EvAllowsPrivateNetwork pluginName] in
      let ctx := withSSRFAllowPrivate ctx allowPrivate in
      if String.eqb funcName "dns_lookup" then
        match unmarshalDNS payload with
        | Some req =>
            match CheckNetwork pluginName
                    (mkNetworkRequest (Hostname req) 53) with
            | (Some err, evs) => deny err (ev0 ++ evs)%list
            | (None, evs) => callNext ctx payload (ev0 ++ evs)%list
            end
        | None => callNext ctx payload ev0
        end
      else if String.eqb funcName "tcp_connect" then
        match unmarshalTCP payload with
        | Some req =>
            let port := atoiOrZero (TCPPort req) in
            match CheckNetwork pluginName
                    (mkNetworkRequest (TCPHost req) port) with
            | (Some err, evs) => deny err (ev0 ++ evs)%list
            | (None, evs) => callNext ctx payload (ev0 ++ evs)%list
            end
        | None => callNext ctx payload ev0
        end
      else if String.eqb funcName "smtp_connect" then
        match unmarshalSMTP payload with
        | Some req =>
            let port := atoiOrZero (SMTPPort req) in
            match CheckNetwork pluginName
                    (mkNetworkRequest (SMTPHost req) port) with
            | (Some err, evs) => deny err (ev0 ++ evs)%list
            | (None, evs) => callNext ctx payload (ev0 ++ evs)%list
            end
        | None => callNext ctx payload ev0
        end
      else if String.eqb funcName "http_request" then
        match unmarshalHTTP payload with
        | Some req =>
            match checkHTTPCapability pluginName (URL req) with
            | (Some err, evs) => deny err (ev0 ++ evs)%list
            | (None, evs) => callNext ctx payload (ev0 ++ evs)%list
            end
        | None => callNext ctx payload ev0
        end
      else if String.eqb funcName "exec_command" then
        match unmarshalExec payload with
        | Some req =>
            let execType :=
              GetExecutionTypeDescription (ExecCommand req) (Args req) in
            if IsDangerousExecution (ExecCommand req) (Args req) then
              match CheckExec pluginName
                      (mkExecCapabilityRequest (ExecCommand req)) with
              | (Some _, evs) =>
                  deny (execType +:+ " requires 'exec:" +:+ ExecCommand req
                        +:+ "' capability") (ev0 ++ evs)%list
              | (None, evs) => callNext ctx payload (ev0 ++ evs)%list
              end
            else
              match CheckExec pluginName
                      (mkExecCapabilityRequest (ExecCommand req)) with
              | (Some err, evs) => deny err (ev0 ++ evs)%list
              | (None, evs) => callNext ctx payload (ev0 ++ evs)%list
              end
        | None => callNext ctx payload ev0
        end
      else callNext ctx payload ev0
  end.

(** Whether the payload unmarshals as the request type the middleware
    expects for the function name; [false] for any other name. *)
Definition payloadParses (funcName payload : string) : bool :=
  if String.eqb funcName "dns_lookup" then
    match unmarshalDNS payload with Some _ => true | None => false end
  else if String.eqb funcName "tcp_connect" then
    match unmarshalTCP payload with Some _ => true | None => false end
  else if String.eqb funcName "smtp_connect" then
    match unmarshalSMTP payload with Some _ => true | None => false end
  else if String.eqb funcName "http_request" then
    match unmarshalHTTP payload with Some _ => true | None => false end
  else if String.eqb funcName "exec_command" then
    match unmarshalExec payload with Some _ => true | None => false end
  else false.

End Checker.

End hostlib.

(** ** Vocabulary of the statements *)

(** A plugin reference in one of its two canonical forms: a bare name, or
    [registry/org/repo/name:version] with a registry, where no component
    holds a separator that the form gives a meaning to. *)
Definition canonicalReference (r : values.PluginReference) : Prop :=
  (values.registry r = "" /\ values.org r = "" /\ values.repo r = ""
   /\ values.version r = ""
   /\ strings.Contains (values.name r) "/" = false
   /\ strings.Contains (values.name r) ":" = false)
  \/
  (values.registry r <> ""
   /\ strings.Contains (values.registry r) "/" = false
   /\ strings.Contains (values.org r) "/" = false
   /\ strings.Contains (values.repo r) "/" = false
   /\ strings.Contains (values.name r) "/" = false
   /\ strings.Contains (values.name r) ":" = false
   /\ strings.Contains (values.version r) "/" = false
   /\ strings.Contains (values.version r) ":" = false).

(** A path lies under a directory when it is the directory or begins with
    the directory followed by the separator. *)
Definition liesUnder (dir path : string) : Prop :=
  path = dir \/ strings.HasPrefix path (dir +:+ repository.PathSeparator) = true.

(** Risk classification in the words of the specification. *)
Definition wildcardHost (rule : hostfunc.NetworkRule) : Prop :=
  Exists (fun h => h = "*" \/ h = "0.0.0.0") (hostfunc.Hosts rule).

Definition classifyNetworkRule (rule : hostfunc.NetworkRule)
  : capability.RiskLevel :=
  if bool_decide (wildcardHost rule) then capability.RiskCritical
  else capability.RiskMedium.

Definition classifyFSRule (rule : hostfunc.FileSystemRule)
  : list capability.RiskLevel :=
  ((match hostfunc.Write rule with
    | [] => []
    | _ => [capability.RiskHigh]
    end)
   ++
   (match hostfunc.Read rule with
    | [] => []
    | _ => [capability.RiskMedium]
    end))%list.

Definition classify (grants : hostfunc.GrantSet) : list capability.RiskLevel :=
  ((match hostfunc.Network grants with
    | Some net => map classifyNetworkRule (hostfunc.NetRules net)
    | None => []
    end)
   ++
   (match hostfunc.FS grants with
    | Some fs => flat_map classifyFSRule (hostfunc.FSRules fs)
    | None => []
    end)
   ++
   (match hostfunc.Exec grants with
    | Some (hostfunc.mkExecCapability (_ :: _)) => [capability.RiskCritical]
    | _ => []
    end)
   ++
   (match hostfunc.Env grants with
    | Some (hostfunc.mkEnvironmentCapability (_ :: _)) => [capability.RiskLow]
    | _ => []
    end))%list.

(** The greater of two levels, and the greatest level of a list ([RiskNone]
    for the empty list). *)
Definition levelMax (a b : capability.RiskLevel) : capability.RiskLevel :=
  if (capability.rank a <? capability.rank b)%Z then b else a.

Definition maxLevel (ls : list capability.RiskLevel) : capability.RiskLevel :=
  fold_right levelMax capability.RiskNone ls.

(** A grant set without any rule. *)
Definition noRules (grants : hostfunc.GrantSet) : Prop :=
  (forall net, hostfunc.Network grants = Some net -> hostfunc.NetRules net = [])
  /\ (forall fs, hostfunc.FS grants = Some fs -> hostfunc.FSRules fs = [])
  /\ (forall ex, hostfunc.Exec grants = Some ex -> hostfunc.Commands ex = [])
  /\ (forall env, hostfunc.Env grants = Some env -> hostfunc.Variables env = []).

(** A report whose level is the greatest level among its factors. *)
Definition coherent (report : capability.RiskReport) : Prop :=
  capability.Level report
  = maxLevel (map capability.FactorLevel (capability.RiskFactors report)).

(** The requests a set of missing grants gives rise to, in the order in
    which the gatekeeper takes them up - network rules, then for each
    filesystem rule its read paths and its write paths, then environment
    variables, then commands - each with the grant merged on approval and
    the error returned on denial. *)
Record PromptItem : Type := mkPromptItem {
  itemRequest : capability.Request;
  itemGrant : hostfunc.GrantSet;
  itemDenied : string
}.

Definition networkItem (rule : hostfunc.NetworkRule) : PromptItem :=
  mkPromptItem (gatekeeper.networkRequest rule)
    (hostfunc.mkGrantSet (Some (hostfunc.mkNetworkCapability [rule]))
       None None None)
    ("capability denied by user: network "
     +:+ fmtStrings (hostfunc.Hosts rule) +:+ ":"
     +:+ fmtStrings (hostfunc.Ports rule)).

Definition fsReadItem (path : string) : PromptItem :=
  mkPromptItem (gatekeeper.fsReadRequest path)
    (hostfunc.mkGrantSet None
       (Some (hostfunc.mkFileSystemCapability
                [hostfunc.mkFileSystemRule [path] []])) None None)
    ("capability denied by user: fs read:" +:+ path).

Definition fsWriteItem (path : string) : PromptItem :=
  mkPromptItem (gatekeeper.fsWriteRequest path)
    (hostfunc.mkGrantSet None
       (Some (hostfunc.mkFileSystemCapability
                [hostfunc.mkFileSystemRule [] [path]])) None None)
    ("capability denied by user: fs write:" +:+ path).

Definition envItem (v : string) : PromptItem :=
  mkPromptItem (gatekeeper.envRequest v)
    (hostfunc.mkGrantSet None None
       (Some (hostfunc.mkEnvironmentCapability [v])) None)
    ("capability denied by user: env " +:+ v).

Definition execItem (cmd : string) : PromptItem :=
  mkPromptItem (gatekeeper.execRequest cmd)
    (hostfunc.mkGrantSet None None None
       (Some (hostfunc.mkExecCapability [cmd])))
    ("capability denied by user: exec " +:+ cmd).

Definition promptItems (missing : hostfunc.GrantSet) : list PromptItem :=
  ((match hostfunc.Network missing with
    | Some net => map networkItem (hostfunc.NetRules net)
    | None => []
    end)
   ++
   (match hostfunc.FS missing with
    | Some fs =>
        flat_map
          (fun rule =>
             map fsReadItem (hostfunc.Read rule)
             ++ map fsWriteItem (hostfunc.Write rule))
          (hostfunc.FSRules fs)
    | None => []
    end)
   ++
   (match hostfunc.Env missing with
    | Some env => map envItem (hostfunc.Variables env)
    | None => []
    end)
   ++
   (match hostfunc.Exec missing with
    | Some ex => map execItem (hostfunc.Commands ex)
    | None => []
    end))%list.

Definition requestsOf (missing : hostfunc.GrantSet)
  : list capability.Request :=
  map itemRequest (promptItems missing).

(** The requests in front of the first broad one. *)
Fixpoint beforeBroad (reqs : list capability.Request)
  : list capability.Request :=
  match reqs with
  | [] => []
  | q :: rest =>
      if capability.IsBroad q then [] else q :: beforeBroad rest
  end.

(** The error of the strict level for a broad request. *)
Definition strictDenial (req : capability.Request) : string :=
  "broad capability denied by strict security policy: "
  +:+ capability.Description req.

(** A prompter that grants whatever it is asked. *)
Definition grantsEverything (p : gatekeeper.Prompter) : Prop :=
  forall history req,
    exists always,
      gatekeeper.PromptForCapability p history req = (true, always, None).

(** "Broad" in the words of the specification: the pattern is ["*"],
    ["/**"] or ["**"]. *)
Definition broadPattern (pattern : string) : bool :=
  String.eqb pattern "*" || String.eqb pattern "/**" || String.eqb pattern "**".

(** The prompting loops, as one loop over the items. *)
Definition runItems {ops : hostfunc.GrantSetOps} (g : gatekeeper.Gatekeeper)
  (items : list PromptItem) (st : gatekeeper.PromptState)
  : option string * gatekeeper.PromptState :=
  gatekeeper.forEach
    (fun st it =>
       gatekeeper.grantOrDeny g st (itemRequest it) (itemGrant it)
         (itemGrant it) (itemDenied it))
    items st.

(** Stand-ins for the grant-set methods, for running the gatekeeper on
    concrete inputs: a set is empty when it has no rule, nothing is stored
    so the difference is the required set, and merging appends. *)
Definition sampleIsEmpty (s : hostfunc.GrantSet) : bool :=
  match hostfunc.Network s with
  | Some (hostfunc.mkNetworkCapability (_ :: _)) => false
  | _ =>
      match hostfunc.FS s with
      | Some (hostfunc.mkFileSystemCapability (_ :: _)) => false
      | _ =>
          match hostfunc.Env s with
          | Some (hostfunc.mkEnvironmentCapability (_ :: _)) => false
          | _ =>
              match hostfunc.Exec s with
              | Some (hostfunc.mkExecCapability (_ :: _)) => false
              | _ => true
              end
          end
      end
  end.

Definition sampleMerge (a b : hostfunc.GrantSet) : hostfunc.GrantSet :=
  hostfunc.mkGrantSet
    (match hostfunc.Network a, hostfunc.Network b with
     | Some x, Some y =>
         Some (hostfunc.mkNetworkCapability
                 (hostfunc.NetRules x ++ hostfunc.NetRules y)%list)
     | Some x, None => Some x
     | None, y => y
     end)
    (match hostfunc.FS a, hostfunc.FS b with
     | Some x, Some y =>
         Some (hostfunc.mkFileSystemCapability
                 (hostfunc.FSRules x ++ hostfunc.FSRules y)%list)
     | Some x, None => Some x
     | None, y => y
     end)
    (match hostfunc.Env a, hostfunc.Env b with
     | Some x, Some y =>
         Some (hostfunc.mkEnvironmentCapability
                 (hostfunc.Variables x ++ hostfunc.Variables y)%list)
     | Some x, None => Some x
     | None, y => y
     end)
    (match hostfunc.Exec a, hostfunc.Exec b with
     | Some x, Some y =>
         Some (hostfunc.mkExecCapability
                 (hostfunc.Commands x ++ hostfunc.Commands y)%list)
     | Some x, None => Some x
     | None, y => y
     end).

Definition sampleOps : hostfunc.GrantSetOps :=
  {| hostfunc.IsEmpty := sampleIsEmpty;
     hostfunc.Clone := fun s => s;
     hostfunc.Difference := fun required _ => required;
     hostfunc.Deduplicate := fun s => s;
     hostfunc.Merge := sampleMerge |}.

(** A grant store that holds nothing, and an interactive prompter that
    grants once whatever it is asked. *)
Definition emptyStore : gatekeeper.GrantStore :=
  gatekeeper.mkGrantStore (Ok hostfunc.emptyGrantSet) (fun _ => None).

Definition yesPrompter : gatekeeper.Prompter :=
  gatekeeper.mkPrompter true (fun _ _ => (true, false, None)) (fun _ => "").

(** What [grantOrDeny] does once the request is put to the prompter. *)
Definition afterPrompt {ops : hostfunc.GrantSetOps} (g : gatekeeper.Gatekeeper)
  (st : gatekeeper.PromptState) (req : capability.Request)
  (toMerge : hostfunc.GrantSet) (denied : string)
  : option string * gatekeeper.PromptState :=
  let '(granted, always, err) :=
    gatekeeper.PromptForCapability (gatekeeper.prompter g)
      (gatekeeper.events st) req in
  let evs :=
    (gatekeeper.events st ++ [gatekeeper.EvPromptForCapability req])%list in
  match err with
  | Some e =>
      (Some e,
       gatekeeper.mkPromptState (gatekeeper.newGrants st)
         (gatekeeper.shouldSave st) evs)
  | None =>
      if granted then
        (None,
         gatekeeper.mkPromptState
           (hostfunc.Merge (gatekeeper.newGrants st) toMerge)
           (if always then true else gatekeeper.shouldSave st) evs)
      else
        (Some denied,
         gatekeeper.mkPromptState (gatekeeper.newGrants st)
           (gatekeeper.shouldSave st) evs)
  end.

(** An outcome of the underlying transport after which [RoundTrip] may
    call it again: an error that is not an SSRF block, or a response with
    a status for which [isRetryableStatus] holds. *)
Definition retryable (o : netutil.Outcome) : bool :=
  match o with
  | netutil.Failed err => negb (netutil.IsSSRFBlockedError err)
  | netutil.Responded resp => netutil.isRetryableStatus (netutil.StatusCode resp)
  end.

(** A bound on the number of reads a stream can serve: every read takes a
    segment or at least one byte. *)
Definition streamMeasure (s : netutil.Stream) : nat :=
  length (netutil.segments s) + length (netutil.content s).

(** A limited reader that is bound to report the limit: its budget is
    spent, or the stream holds more than the budget. *)
Definition overLimit (l : netutil.LimitedReader) : Prop :=
  (netutil.N l <= 0
   \/ Z.of_nat (length (netutil.content (netutil.R l))) > netutil.N l)%Z.

(** The constraint a declaration asks for: its version, or ["latest"]. *)
Definition requestedConstraint (spec : entities.PluginSpec) : string :=
  if String.eqb (entities.Version spec) "" then "latest"
  else entities.Version spec.

(** A lockfile satisfies a declaration when it has the declared name with
    the requested constraint. *)
Definition satisfiedBy (l : entities.Lockfile) (decl : string) : Prop :=
  exists spec locked,
    entities.ParsePluginDeclaration decl = Ok spec
    /\ entities.GetPlugin l (entities.Name spec) = Some locked
    /\ entities.Requested locked = requestedConstraint spec.

(** Two declarations agree when they do not ask different constraints of
    one name; a declaration list is consistent when its members agree with
    one another. *)
Definition agree (d1 d2 : string) : Prop :=
  forall s1 s2,
    entities.ParsePluginDeclaration d1 = Ok s1 ->
    entities.ParsePluginDeclaration d2 = Ok s2 ->
    entities.Name s1 = entities.Name s2 ->
    requestedConstraint s1 = requestedConstraint s2.

Definition consistent (decls : list string) : Prop :=
  forall d1 d2, In d1 decls -> In d2 decls -> agree d1 d2.

(** Whether the inner handler was invoked. *)
Definition nextInvoked (evs : list hostlib.Event) : bool :=
  existsb
    (fun e => match e with hostlib.EvNext _ _ => true | _ => false end) evs.

(** The function name the middleware dispatches on. *)
Definition dispatchName (ctx : hostlib.Context) : string :=
  match hostlib.hostFunctionName ctx with Some fn => fn | None => "" end.

(** Stand-ins for the library functions of the middleware, for running
    it on concrete inputs: a payload parses when it opens with a brace. *)
Definition sampleExternals : hostlib.Externals :=
  let parses (payload : string) := strings.HasPrefix payload "{" in
  {| hostlib.unmarshalDNS := fun payload =>
       if parses payload then Some (hostlib.mkDNSRequest "example.com")
       else None;
     hostlib.unmarshalTCP := fun payload =>
       if parses payload then Some (hostlib.mkTCPRequest "example.com" "443")
       else None;
     hostlib.unmarshalSMTP := fun payload =>
       if parses payload then Some (hostlib.mkSMTPRequest "example.com" "25")
       else None;
     hostlib.unmarshalHTTP := fun payload =>
       if parses payload then Some (hostlib.mkHTTPRequest "https://example.com/x")
       else None;
     hostlib.unmarshalExec := fun payload =>
       if parses payload then Some (hostlib.mkExecRequest "/bin/ls" [])
       else None;
     hostlib.urlParse := fun _ =>
       Ok (hostlib.mkParsedURL "https" "example.com" "");
     hostlib.Atoi := fun _ => None;
     hostlib.validationErrorJSON := fun msg => msg;
     hostlib.IsDangerousExecution := fun _ _ => false;
     hostlib.GetExecutionTypeDescription := fun _ _ => "command" |}.

(** A checker without grants, and an inner handler that echoes. *)
Definition sampleChecker : hostlib.CapabilityChecker :=
  hostlib.mkCapabilityChecker
    (hostlib.mkPolicy (fun _ _ => false) (fun _ _ => false) (fun _ _ => false))
    ∅ false.

Definition echo (ctx : hostlib.Context) (payload : string)
  : string * option string :=
  (payload, None).

(** The ways a dispatched call ends: passed on without a plugin name,
    passed on because the payload does not parse, passed on after the
    checks, or answered with a validation error. *)
Inductive Ending {ext : hostlib.Externals} (c : hostlib.CapabilityChecker)
  (next : hostlib.Context -> string -> string * option string)
  (ctx : hostlib.Context) (payload : string)
  : (string * option string) * list hostlib.Event -> Prop :=
| EndUnnamed :
    hostlib.CapabilityPluginNameFromContext ctx = None ->
    Ending c next ctx payload
      (next ctx payload, [hostlib.EvNext ctx payload])
| EndUnparsed (p : string) :
    hostlib.CapabilityPluginNameFromContext ctx = Some p ->
    hostlib.payloadParses (dispatchName ctx) payload = false ->
    let ctx' :=
      hostlib.withSSRFAllowPrivate ctx (hostlib.AllowsPrivateNetwork c p) in
    Ending c next ctx payload
      (next ctx' payload,
       [hostlib.EvAllowsPrivateNetwork p; hostlib.EvNext ctx' payload])
| EndAllowed (p : string) (evs : list hostlib.Event) :
    hostlib.CapabilityPluginNameFromContext ctx = Some p ->
    hostlib.payloadParses (dispatchName ctx) payload = true ->
    let ctx' :=
      hostlib.withSSRFAllowPrivate ctx (hostlib.AllowsPrivateNetwork c p) in
    Ending c next ctx payload
      (next ctx' payload,
       (hostlib.EvAllowsPrivateNetwork p :: evs
        ++ [hostlib.EvNext ctx' payload])%list)
| EndDenied (p msg : string) (evs : list hostlib.Event) :
    hostlib.CapabilityPluginNameFromContext ctx = Some p ->
    hostlib.payloadParses (dispatchName ctx) payload = true ->
    nextInvoked evs = false ->
    Ending c next ctx payload
      ((hostlib.validationErrorJSON msg, None),
       hostlib.EvAllowsPrivateNetwork p :: evs).

(** The lockfile a service call starts from: the stored one, or a new
    one. *)
Definition initialLock (r : plugin.Repo) (now : entities.Time)
  : entities.Lockfile :=
  match plugin.stored r with
  | Some l => l
  | None => entities.NewLockfile now
  end.

(** An entry as [ResolvePlugins] writes it: the digest is a placeholder
    and the resolved version is the requested constraint. *)
Definition placeholderLock (lk : entities.PluginLock) : Prop :=
  entities.LockDigest lk = "sha256:placeholder"
  /\ entities.Resolved lk = entities.Requested lk
  /\ entities.Modified lk = 0%Z.

(** A declaration names [n]. *)
Definition declares (decls : list string) (n : string) : Prop :=
  exists d spec,
    In d decls /\ entities.ParsePluginDeclaration d = Ok spec
    /\ entities.Name spec = n.

(** Registering a list of specifications in order; a specification that
    [Register] rejects leaves the registry as it is. *)
Definition registerAll (specs : list entities.PluginSpec)
  (pr : entities.PluginRegistry) : entities.PluginRegistry :=
  fold_left
    (fun pr spec =>
       match entities.Register pr spec with
       | Ok pr' => pr'
       | Err _ => pr
       end)
    specs pr.

(** The waits of a [RoundTrip], in order, and the [OnRetry] callbacks as
    pairs of attempt number and wait. *)
Definition sleeps (evs : list netutil.Event) : list Z :=
  flat_map (fun e => match e with netutil.EvSleep w => [w] | _ => [] end) evs.

Definition retryCallbacks (evs : list netutil.Event) : list (Z * Z) :=
  flat_map
    (fun e =>
       match e with netutil.EvOnRetry a w _ => [(a, w)] | _ => [] end) evs.

(** Whether an option list sets the SSRF protection itself. *)
Definition setsSSRF (opts : list http.HTTPOption) : bool :=
  existsb
    (fun opt =>
       match opt with http.WithHTTPSSRFProtection _ => true | _ => false end)
    opts.

(** The calls of the inner handler, and the calls of the denial handler,
    in a trace of the middleware. *)
Definition nextCalls (evs : list hostlib.Event)
  : list (hostlib.Context * string) :=
  flat_map
    (fun e => match e with hostlib.EvNext ctx p => [(ctx, p)] | _ => [] end)
    evs.

Definition denialCalls (evs : list hostlib.Event) : list hostlib.Event :=
  List.filter
    (fun e => match e with hostlib.EvDenialHandler _ _ _ _ => true | _ => false end)
    evs.

(** A prompter that never answers "always". *)
Definition neverAlways (p : gatekeeper.Prompter) : Prop :=
  forall history req,
    snd (fst (gatekeeper.PromptForCapability p history req)) = false.

(** A path element that [Clean] keeps as it is. *)
Definition normalElem (e : string) : Prop :=
  e <> "" /\ e <> "." /\ e <> ".." /\ strings.Contains e "/" = false.

(** The stack of [filepath.cleanElems] at rest: normal elements on top of
    [".."] elements, and no [".."] under a rooted path. *)
Definition cleanStack (rooted : bool) (stack : list string) : Prop :=
  exists normals dotdots,
    stack = (normals ++ dotdots)%list
    /\ Forall normalElem normals
    /\ Forall (fun e => e = "..") dotdots
    /\ (rooted = true -> dotdots = []).

(** The path [filepath.Clean] prints for a stack. *)
Definition render (rooted : bool) (stack : list string) : string :=
  if rooted then "/" +:+ strings.Join (rev stack) "/"
  else match rev stack with
       | [] => "."
       | out => strings.Join out "/"
       end.


(** The secure dialer over a sequence of calls, each meeting the cache
    the calls before it left; the dials of a trace; the effective TTL;
    and an address that passed the dialer's validation for a host: as
    the address a lookup gave, or as the host itself when the host is an
    IP literal (then validated together with the port of that call). *)
Section DialerVocabulary.

Import netutil.

Context {lib : NetLib}.

Record DialCall : Type := mkDialCall {
  callWorld : World;
  callSince : Z;
  callNow : Z;
  callNetwork : string;
  callAddress : string
}.

Fixpoint dialAll (d : SecureDialer) (calls : list DialCall)
  : SecureDialer * list (DialCall * list DialEvent) :=
  match calls with
  | [] => (d, [])
  | c :: rest =>
      let '(_, d', evs) :=
        DialContext d (callWorld c) (callSince c) (callNow c)
          (callNetwork c) (callAddress c) in
      let '(d'', trace) := dialAll d' rest in
      (d'', (c, evs) :: trace)
  end.

Definition dials (evs : list DialEvent)
  : list (Z * string * string) :=
  flat_map
    (fun e =>
       match e with
       | EvDial timeout network addr => [(timeout, network, addr)]
       | _ => []
       end) evs.

Definition lookups (evs : list DialEvent) : list string :=
  flat_map
    (fun e =>
       match e with netutil.EvLookupIPAddr host => [host] | _ => [] end) evs.

Definition effectiveTTL (d : SecureDialer) : Z :=
  if (netutil.CacheTTL d =? 0)%Z then (5 * netutil.Minute)%Z
  else netutil.CacheTTL d.

Definition effectiveTimeout (d : SecureDialer) : Z :=
  if (netutil.Timeout d =? 0)%Z then (30 * netutil.Second)%Z
  else netutil.Timeout d.

Definition vettedFor (d : SecureDialer) (host : string) (ip : IP)
  : Prop :=
  netutil.Allowed
    (ValidateAddress (IPString ip) (netutil.netfilterOpts d)) = true
  \/ (ParseIP host = Some ip
      /\ exists port,
           netutil.Allowed
             (ValidateAddress
                (if String.eqb port "" then host else JoinHostPort host port)
                (netutil.netfilterOpts d)) = true).

(** Every pinned address passed the validation for its host. *)
Definition cacheVetted (d : SecureDialer) : Prop :=
  forall host entry,
    cache d !! host = Some entry -> vettedFor d host (ip entry).

End DialerVocabulary.

(* ===================================================================== *)
(** * Part II.  Properties                                               *)
(* ===================================================================== *)

(** ** Strings *)

Section StringFacts.

Lemma append_nil (b : string) : "" +:+ b = b.
Proof. reflexivity. Qed.

Lemma append_cons (x : ascii) (a b : string) :
  String x a +:+ b = String x (a +:+ b).
Proof. reflexivity. Qed.

Lemma HasPrefix_empty (s : string) : strings.HasPrefix s "" = true.
Proof. destruct s; reflexivity. Qed.

Lemma Contains_byte_cons (c a : ascii) (t : string) :
  strings.Contains (String a t) (String c "")
  = Ascii.eqb c a || strings.Contains t (String c "").
Proof.
  unfold strings.Contains. cbn [strings.Index strings.HasPrefix].
  rewrite HasPrefix_empty.
  destruct (Ascii.eqb c a); [reflexivity|].
  cbn. destruct (strings.Index t (String c "")); reflexivity.
Qed.

Lemma Contains_byte_empty (c : ascii) :
  strings.Contains "" (String c "") = false.
Proof. reflexivity. Qed.

Lemma Contains_byte_app (c : ascii) (a b : string) :
  strings.Contains (a +:+ b) (String c "")
  = strings.Contains a (String c "") || strings.Contains b (String c "").
Proof.
  induction a as [|x a IH]; [reflexivity|].
  rewrite append_cons, !Contains_byte_cons, IH.
  now rewrite orb_assoc.
Qed.

Lemma SplitByte_not_nil (sep : ascii) (s : string) :
  strings.SplitByte sep s <> [].
Proof.
  induction s as [|x s IH]; cbn; [discriminate|].
  destruct (Ascii.eqb x sep); [discriminate|].
  destruct (strings.SplitByte sep s); [contradiction|discriminate].
Qed.

Lemma SplitByte_no_sep (sep : ascii) (s : string) :
  strings.Contains s (String sep "") = false ->
  strings.SplitByte sep s = [s].
Proof.
  induction s as [|x s IH]; intros H; [reflexivity|].
  rewrite Contains_byte_cons in H. apply orb_false_iff in H as [Hx Hs].
  cbn. rewrite Ascii.eqb_sym, Hx, (IH Hs). reflexivity.
Qed.

Lemma SplitByte_app_sep (sep : ascii) (a b : string) :
  strings.Contains a (String sep "") = false ->
  strings.SplitByte sep (a +:+ String sep b) = a :: strings.SplitByte sep b.
Proof.
  induction a as [|x a IH]; intros H.
  - rewrite append_nil. cbn. now rewrite Ascii.eqb_refl.
  - rewrite Contains_byte_cons in H. apply orb_false_iff in H as [Hx Ha].
    rewrite append_cons. cbn. rewrite Ascii.eqb_sym, Hx, (IH Ha). reflexivity.
Qed.

End StringFacts.

(** ** Plugin references (C8) *)

Section PluginReference.

Import values.

Lemma String_full (r : PluginReference) :
  registry r <> "" ->
  String_ r
  = registry r +:+ String "/" (org r +:+ String "/" (repo r +:+ String "/"
      (name r +:+ String ":" (version r)))).
Proof.
  intros H. unfold String_, IsEmbedded.
  destruct (String.eqb_spec (registry r) ""); [contradiction|reflexivity].
Qed.

Lemma ParsePluginReference_full (reg o rp n v : string) :
  strings.Contains reg "/" = false ->
  strings.Contains o "/" = false ->
  strings.Contains rp "/" = false ->
  strings.Contains n "/" = false ->
  strings.Contains n ":" = false ->
  strings.Contains v "/" = false ->
  strings.Contains v ":" = false ->
  ParsePluginReference
    (reg +:+ String "/" (o +:+ String "/" (rp +:+ String "/"
       (n +:+ String ":" v))))
  = Ok (mkPluginReference reg o rp n v).
Proof.
  intros Hreg Ho Hrp Hn Hn' Hv Hv'.
  unfold ParsePluginReference.
  assert (Hlast : strings.Contains (n +:+ String ":" v) "/" = false).
  { rewrite Contains_byte_app, Hn, Contains_byte_cons, Hv. reflexivity. }
  assert (Hslash : strings.Contains
            (reg +:+ String "/" (o +:+ String "/" (rp +:+ String "/"
               (n +:+ String ":" v)))) "/" = true).
  { rewrite Contains_byte_app, Contains_byte_cons, Ascii.eqb_refl.
    now rewrite orb_true_r. }
  rewrite Hslash. cbn [negb andb].
  rewrite (SplitByte_app_sep _ _ _ Hreg), (SplitByte_app_sep _ _ _ Ho),
    (SplitByte_app_sep _ _ _ Hrp), (SplitByte_no_sep _ _ Hlast).
  cbn [length Nat.ltb Nat.leb nth]. unfold lastPart. cbn [List.last].
  rewrite (SplitByte_app_sep _ _ _ Hn'), (SplitByte_no_sep _ _ Hv').
  reflexivity.
Qed.

Lemma Equals_refl (r : PluginReference) : Equals r r = true.
Proof. unfold Equals. now rewrite !String.eqb_refl. Qed.

(** C8 (as amended): for a reference in canonical form - a bare name with
    every other component empty, or a full reference with a non-empty
    registry whose registry, org and repo hold no ["/"] and whose name and
    version hold neither ["/"] nor [":"] - parsing the string form succeeds
    and gives back the reference, componentwise. *)
Theorem ParsePluginReference_String_roundtrip (r : values.PluginReference) :
  canonicalReference r ->
  values.ParsePluginReference (values.String_ r) = Ok r
  /\ values.Equals r r = true.
Proof.
  intros Hr. split; [|apply Equals_refl].
  destruct r as [reg o rp n v]. unfold canonicalReference in Hr. cbn in Hr.
  destruct Hr as [(-> & -> & -> & -> & Hs & Hc)
                 |(Hreg & H1 & H2 & H3 & H4 & H5 & H6 & H7)].
  - unfold String_, IsEmbedded, ParsePluginReference. cbn [registry name].
    cbn [String.eqb]. now rewrite Hs, Hc.
  - rewrite String_full by exact Hreg. cbn [registry org repo name version].
    now apply ParsePluginReference_full.
Qed.

Lemma ParsePluginReference_String_roundtrip_witness :
  canonicalReference
    (values.mkPluginReference "ghcr.io" "org" "repo" "plugin" "1.0.0")
  /\ values.ParsePluginReference "ghcr.io/org/repo/plugin:1.0.0"
     = Ok (values.mkPluginReference "ghcr.io" "org" "repo" "plugin" "1.0.0").
Proof.
  assert (H : canonicalReference
            (values.mkPluginReference "ghcr.io" "org" "repo" "plugin" "1.0.0")).
  { right. cbn. repeat split; try reflexivity. discriminate. }
  split; [exact H|].
  exact (proj1 (ParsePluginReference_String_roundtrip _ H)).
Defined.

(** C8 as stated fails: a full reference whose org holds a slash prints
    with five segments and parses back with other components. *)
Lemma ParsePluginReference_String_roundtrip_counterexample :
  let r := values.NewPluginReference "ghcr.io" "a/b" "c" "d" "1" in
  exists r',
    values.ParsePluginReference (values.String_ r) = Ok r'
    /\ values.Equals r' r = false.
Proof.
  eexists. split; [vm_compute; reflexivity|reflexivity].
Qed.

End PluginReference.

(** ** Digest verification (C5) *)

Section Integrity.

Lemma DigestEquals_spec (d e : values.Digest) :
  values.DigestEquals d e = true <-> d = e.
Proof.
  destruct d as [a v], e as [a' v']. unfold values.DigestEquals. cbn.
  rewrite andb_true_iff, !String.eqb_eq. split.
  - now intros [-> ->].
  - intros [= -> ->]. now split.
Qed.

(** C5 as stated fails: [VerifyDigest] itself has no case for an empty
    expected digest and reports a mismatch against it. *)
Lemma VerifyDigest_empty_expected_counterexample :
  let plugin :=
    entities.NewPlugin
      (values.NewPluginReference "reg" "org" "repo" "name" "1.0")
      (values.mkDigest "sha256" "abc")
      (values.mkPluginMetadata "name" "1.0" "desc" []) in
  let expected := values.mkDigest "" "" in
  services.VerifyDigest (services.NewIntegrityService false) plugin expected
  = Some (entities.mkIntegrityError expected (values.mkDigest "sha256" "abc")).
Proof. reflexivity. Qed.

(** C5 (as amended): for every expected digest, empty or not,
    [VerifyDigest] returns no error exactly when the plugin's digest equals
    it, and otherwise the integrity error carrying the expected and the
    actual digest.  The pass on an empty expected digest is the caller's:
    [PluginService.LoadPlugin] runs [VerifyDigest] only when the value of
    the expected digest is not empty. *)
Theorem VerifyDigest_mismatch_iff (s : services.IntegrityService)
  (plugin : entities.Plugin) (expected : values.Digest) :
  (services.VerifyDigest s plugin expected = None
   <-> entities.Digest plugin = expected)
  /\ (services.VerifyDigest s plugin expected
      = Some (entities.mkIntegrityError expected (entities.Digest plugin))
      <-> entities.Digest plugin <> expected)
  /\ plugin.LoadPlugin_verifyDigest s plugin
       (values.mkDigest (values.algorithm expected) "") = None
  /\ (values.value expected <> "" ->
      plugin.LoadPlugin_verifyDigest s plugin expected
      = services.VerifyDigest s plugin expected).
Proof.
  unfold services.VerifyDigest, entities.VerifyIntegrity.
  pose proof (DigestEquals_spec (entities.Digest plugin) expected) as Heq.
  destruct (values.DigestEquals (entities.Digest plugin) expected) eqn:E;
    cbn [negb].
  - assert (entities.Digest plugin = expected) as Hd by now apply Heq.
    repeat split; try easy.
    intros Hv. unfold plugin.LoadPlugin_verifyDigest.
    destruct (String.eqb_spec (values.value expected) ""); [contradiction|].
    cbn. unfold services.VerifyDigest, entities.VerifyIntegrity.
    now rewrite E.
  - assert (entities.Digest plugin <> expected) as Hd.
    { intros Hd. apply Heq in Hd. discriminate. }
    repeat split; try easy.
    intros Hv. unfold plugin.LoadPlugin_verifyDigest.
    destruct (String.eqb_spec (values.value expected) ""); [contradiction|].
    cbn. unfold services.VerifyDigest, entities.VerifyIntegrity.
    now rewrite E.
Qed.

Lemma VerifyDigest_mismatch_iff_witness :
  values.value (values.mkDigest "sha256" "def") <> ""
  /\ plugin.LoadPlugin_verifyDigest (services.NewIntegrityService false)
       (entities.NewPlugin
          (values.NewPluginReference "reg" "org" "repo" "name" "1.0")
          (values.mkDigest "sha256" "abc")
          (values.mkPluginMetadata "name" "1.0" "desc" []))
       (values.mkDigest "sha256" "def")
     = Some (entities.mkIntegrityError (values.mkDigest "sha256" "def")
               (values.mkDigest "sha256" "abc")).
Proof.
  assert (H : values.value (values.mkDigest "sha256" "def") <> "")
    by discriminate.
  split; [exact H|].
  rewrite (proj2 (proj2 (proj2
    (VerifyDigest_mismatch_iff (services.NewIntegrityService false)
       (entities.NewPlugin
          (values.NewPluginReference "reg" "org" "repo" "name" "1.0")
          (values.mkDigest "sha256" "abc")
          (values.mkPluginMetadata "name" "1.0" "desc" []))
       (values.mkDigest "sha256" "def")))) H).
  reflexivity.
Defined.

End Integrity.

(** ** Repository paths (C1) *)

Section PluginPath.

Import repository.

(** C1 as stated fails for a root that is not in clean form: with the root
    ["/plugins/"] the cleaned join is neither the root nor prefixed by the
    root and a separator, yet [pluginPath] returns it. *)
Lemma pluginPath_unclean_root_counterexample :
  let r := mkFSPluginRepository "/plugins/" in
  let ref := values.NewPluginReference "" "" "" "file" "" in
  let cleanPath := filepath.Clean (filepath.Join [root r; values.String_ ref]) in
  cleanPath <> root r
  /\ strings.HasPrefix cleanPath (root r +:+ PathSeparator) = false
  /\ pluginPath r ref = Ok "/plugins/file".
Proof.
  cbv zeta. split; [|split; reflexivity].
  intros H. vm_compute in H. discriminate.
Qed.

(** C1 (as amended): with [cleanRoot := Clean(root)], [pluginPath] fails
    with a security violation whenever the reference string is absolute or
    [Clean(Join(root, R.String()))] is neither [cleanRoot] nor prefixed by
    [cleanRoot] and the separator; [Store] and [Delete] then return that
    error having issued no file operation; and every path [pluginPath]
    returns lies under [cleanRoot]. *)
Theorem pluginPath_confined (r : repository.FSPluginRepository)
  (ref : values.PluginReference) :
  let refStr := values.String_ ref in
  let cleanRoot := filepath.Clean (repository.root r) in
  let cleanPath := filepath.Clean (filepath.Join [repository.root r; refStr]) in
  (filepath.IsAbs refStr = true \/ ~ liesUnder cleanRoot cleanPath ->
   exists e,
     repository.pluginPath r ref = Err e
     /\ repository.IsSecurityViolation e = true
     /\ (forall fsOk plugin wasm,
           entities.Reference plugin = ref ->
           repository.Store fsOk r plugin wasm = (Err e, []))
     /\ (forall fsOk, repository.Delete fsOk r ref = (Some e, [])))
  /\ (forall path,
        repository.pluginPath r ref = Ok path -> liesUnder cleanRoot path).
Proof.
  intros refStr cleanRoot cleanPath. unfold liesUnder.
  assert (Hcases :
    (exists e, pluginPath r ref = Err e /\ IsSecurityViolation e = true
               /\ (filepath.IsAbs refStr = true
                   \/ (cleanPath <> cleanRoot
                       /\ strings.HasPrefix cleanPath
                            (cleanRoot +:+ PathSeparator) = false)))
    \/ (pluginPath r ref = Ok cleanPath
        /\ filepath.IsAbs refStr = false
        /\ (cleanPath = cleanRoot
            \/ strings.HasPrefix cleanPath (cleanRoot +:+ PathSeparator) = true))).
  { unfold pluginPath. fold refStr. fold cleanRoot. fold cleanPath.
    destruct (filepath.IsAbs refStr) eqn:Habs.
    - left. eexists. repeat split. now left.
    - destruct (strings.HasPrefix cleanPath (cleanRoot +:+ PathSeparator))
        eqn:Hpre; cbn [negb andb].
      + right. repeat split. now right.
      + destruct (String.eqb_spec cleanPath cleanRoot) as [Heq|Hne];
          cbn [negb].
        * right. repeat split. now left.
        * left. eexists. repeat split. right. now split. }
  split.
  - intros Hbad.
    destruct Hcases as [(e & He & Hsec & _)|(Hok & Habs & Hunder)].
    + exists e. repeat split; try assumption.
      * intros fsOk plugin wasm <-. unfold Store. now rewrite He.
      * intros fsOk. unfold Delete. now rewrite He.
    + exfalso. destruct Hbad as [Ha|Hn]; [congruence|now apply Hn].
  - intros path Hpath.
    destruct Hcases as [(e & He & _)|(Hok & _ & Hunder)]; [congruence|].
    rewrite Hok in Hpath. injection Hpath as <-. exact Hunder.
Qed.

Lemma pluginPath_confined_witness :
  (exists e,
     repository.pluginPath (repository.mkFSPluginRepository "/plugins")
       (values.NewPluginReference "ghcr.io" ".." ".." ".." "1.0") = Err e
     /\ repository.IsSecurityViolation e = true)
  /\ liesUnder "/plugins" "/plugins/file".
Proof.
  pose proof (pluginPath_confined (repository.mkFSPluginRepository "/plugins")
                (values.NewPluginReference "ghcr.io" ".." ".." ".." "1.0"))
    as [Hfail _].
  pose proof (pluginPath_confined (repository.mkFSPluginRepository "/plugins")
                (values.NewPluginReference "" "" "" "file" ""))
    as [_ Hunder].
  split.
  - destruct Hfail as (e & He & Hsec & _); [|exists e; now split].
    right. unfold liesUnder. vm_compute. intros [H|H]; discriminate.
  - apply (Hunder "/plugins/file"). reflexivity.
Defined.

End PluginPath.

(** ** Risk analysis (C10) *)

Section Risk.

Import hostfunc capability.

Lemma isWildcardHost_spec (rule : NetworkRule) :
  isWildcardHost (Hosts rule) = bool_decide (wildcardHost rule).
Proof.
  unfold wildcardHost, isWildcardHost.
  induction (Hosts rule) as [|h hs IH].
  - reflexivity.
  - cbn [existsb]. rewrite IH. clear IH.
    destruct (String.eqb_spec h "*") as [->|H1].
    + cbn [orb]. symmetry. apply bool_decide_eq_true. constructor. now left.
    + destruct (String.eqb_spec h "0.0.0.0") as [->|H2]; cbn [orb].
      * symmetry. apply bool_decide_eq_true. constructor. now right.
      * apply eq_true_iff_eq. rewrite !bool_decide_eq_true. split.
        -- now constructor 2.
        -- intros H. inversion H as [? ? [Hx|Hx]|]; subst; congruence.
Qed.

Lemma levelMax_assoc (a b c : RiskLevel) :
  levelMax (levelMax a b) c = levelMax a (levelMax b c).
Proof. destruct a, b, c; reflexivity. Qed.

Lemma levelMax_none_r (a : RiskLevel) : levelMax a RiskNone = a.
Proof. destruct a; reflexivity. Qed.

Lemma levelMax_none_l (a : RiskLevel) : levelMax RiskNone a = a.
Proof. destruct a; reflexivity. Qed.

Lemma maxLevel_app (xs ys : list RiskLevel) :
  maxLevel (xs ++ ys) = levelMax (maxLevel xs) (maxLevel ys).
Proof.
  induction xs as [|x xs IH]; cbn.
  - now rewrite levelMax_none_l.
  - fold (maxLevel (xs ++ ys)). fold (maxLevel xs).
    now rewrite IH, levelMax_assoc.
Qed.

Lemma addFactor_levels (report : RiskReport) (level : RiskLevel)
  (desc rule : string) :
  level <> RiskNone ->
  map FactorLevel (RiskFactors (addFactor report level desc rule))
  = (map FactorLevel (RiskFactors report) ++ [level])%list
  /\ (coherent report -> coherent (addFactor report level desc rule)).
Proof.
  intros Hl. unfold addFactor.
  assert ((rank level >? rank RiskNone)%Z = true) as ->
    by (destruct level; [contradiction|reflexivity..]).
  cbn [RiskFactors Level]. rewrite map_app. cbn [map FactorLevel].
  split; [reflexivity|].
  unfold coherent. cbn [RiskFactors Level]. intros Hc.
  rewrite map_app, maxLevel_app, <- Hc. cbn.
  destruct level, (Level report); reflexivity.
Qed.

Lemma analyzeNetworkRule_levels (report : RiskReport) (rule : NetworkRule) :
  map FactorLevel (RiskFactors (analyzeNetworkRule report rule))
  = (map FactorLevel (RiskFactors report) ++ [classifyNetworkRule rule])%list
  /\ (coherent report -> coherent (analyzeNetworkRule report rule)).
Proof.
  unfold analyzeNetworkRule, classifyNetworkRule.
  rewrite isWildcardHost_spec.
  destruct (bool_decide (wildcardHost rule)); now apply addFactor_levels.
Qed.

Lemma analyzeFSRule_levels (report : RiskReport) (rule : FileSystemRule) :
  map FactorLevel (RiskFactors (analyzeFSRule report rule))
  = (map FactorLevel (RiskFactors report) ++ classifyFSRule rule)%list
  /\ (coherent report -> coherent (analyzeFSRule report rule)).
Proof.
  unfold analyzeFSRule, classifyFSRule.
  destruct (Write rule) as [|w ws], (Read rule) as [|x xs]; cbn [length Nat.ltb Nat.leb].
  - rewrite app_nil_r. now split.
  - now apply addFactor_levels.
  - rewrite app_nil_r. now apply addFactor_levels.
  - edestruct (addFactor_levels report RiskHigh) as [H1 H1']; [discriminate|].
    edestruct (addFactor_levels (addFactor report RiskHigh
                 "Filesystem write access"
                 ("FS Write: " +:+ fmtStrings (w :: ws))) RiskMedium)
      as [H2 H2']; [discriminate|].
    rewrite H2, H1, <- app_assoc. split; [reflexivity|].
    intros Hc. apply H2', H1', Hc.
Qed.

Lemma fold_network_levels (rules : list NetworkRule) (report : RiskReport) :
  map FactorLevel (RiskFactors (fold_left analyzeNetworkRule rules report))
  = (map FactorLevel (RiskFactors report) ++ map classifyNetworkRule rules)%list
  /\ (coherent report -> coherent (fold_left analyzeNetworkRule rules report)).
Proof.
  revert report. induction rules as [|rule rules IH]; intros report; cbn.
  - rewrite app_nil_r. now split.
  - destruct (IH (analyzeNetworkRule report rule)) as [H1 H2].
    destruct (analyzeNetworkRule_levels report rule) as [H3 H4].
    rewrite H1, H3, <- app_assoc. split; [reflexivity|]. intros Hc. auto.
Qed.

Lemma fold_fs_levels (rules : list FileSystemRule) (report : RiskReport) :
  map FactorLevel (RiskFactors (fold_left analyzeFSRule rules report))
  = (map FactorLevel (RiskFactors report) ++ flat_map classifyFSRule rules)%list
  /\ (coherent report -> coherent (fold_left analyzeFSRule rules report)).
Proof.
  revert report. induction rules as [|rule rules IH]; intros report; cbn.
  - rewrite app_nil_r. now split.
  - destruct (IH (analyzeFSRule report rule)) as [H1 H2].
    destruct (analyzeFSRule_levels report rule) as [H3 H4].
    rewrite H1, H3, <- app_assoc. split; [reflexivity|]. intros Hc. auto.
Qed.

Lemma AnalyzeRisk_levels (grants : GrantSet) :
  map FactorLevel (RiskFactors (AnalyzeRisk (Some grants))) = classify grants
  /\ coherent (AnalyzeRisk (Some grants)).
Proof.
  unfold AnalyzeRisk, classify.
  set (r0 := mkRiskReport [] RiskNone).
  assert (H0 : map FactorLevel (RiskFactors r0) = [] /\ coherent r0)
    by (split; reflexivity).
  set (r1 := match Network grants with
             | Some net => fold_left analyzeNetworkRule (NetRules net) r0
             | None => r0 end).
  set (c1 := match Network grants with
             | Some net => map classifyNetworkRule (NetRules net)
             | None => [] end).
  assert (H1 : map FactorLevel (RiskFactors r1) = c1 /\ coherent r1).
  { subst r1 c1. destruct (Network grants) as [net|]; [|exact H0].
    destruct (fold_network_levels (NetRules net) r0) as [Ha Hb].
    rewrite Ha. destruct H0 as [-> Hc]. split; [reflexivity|auto]. }
  set (r2 := match FS grants with
             | Some fs => fold_left analyzeFSRule (FSRules fs) r1
             | None => r1 end).
  set (c2 := match FS grants with
             | Some fs => flat_map classifyFSRule (FSRules fs)
             | None => [] end).
  assert (H2 : map FactorLevel (RiskFactors r2) = (c1 ++ c2)%list
               /\ coherent r2).
  { subst r2 c2. destruct H1 as [H1 Hc1].
    destruct (FS grants) as [fs|]; [|now rewrite app_nil_r].
    destruct (fold_fs_levels (FSRules fs) r1) as [Ha Hb].
    rewrite Ha, H1. split; [reflexivity|auto]. }
  set (r3 := match Exec grants with
             | Some ex =>
                 if (0 <? length (Commands ex))%nat then
                   addFactor r2 RiskCritical "Arbitrary command execution"
                     ("Exec: " +:+ fmtStrings (Commands ex))
                 else r2
             | None => r2 end).
  set (c3 := match Exec grants with
             | Some (mkExecCapability (_ :: _)) => [RiskCritical]
             | _ => [] end).
  assert (H3 : map FactorLevel (RiskFactors r3) = (c1 ++ c2 ++ c3)%list
               /\ coherent r3).
  { subst r3 c3. destruct H2 as [H2 Hc2].
    destruct (Exec grants) as [[[|cmd cmds]]|]; cbn [length Nat.ltb Nat.leb Commands];
      rewrite ?app_nil_r; try (split; assumption).
    edestruct (addFactor_levels r2 RiskCritical) as [Ha Hb]; [discriminate|].
    rewrite Ha, H2, <- app_assoc. split; [reflexivity|auto]. }
  destruct H3 as [H3 Hc3].
  destruct (Env grants) as [[[|v vs]]|]; cbn [length Nat.ltb Nat.leb Variables];
    rewrite ?app_nil_r; try (split; assumption).
  edestruct (addFactor_levels r3 RiskLow) as [Ha Hb]; [discriminate|].
  rewrite Ha, H3, <- !app_assoc. split; [reflexivity|auto].
Qed.

(** C10: [AnalyzeRisk] yields, in order, one factor per network rule
    (Critical when a host is ["*"] or ["0.0.0.0"], Medium otherwise), for
    each filesystem rule a High factor when it has write paths and a
    Medium factor when it has read paths, a Critical factor when there are
    exec commands and a Low factor when there are environment variables;
    the level of the report is the greatest level among the factors, and
    it is [RiskNone] for a nil set and for a set without rules. *)
Theorem AnalyzeRisk_classification :
  capability.AnalyzeRisk None = capability.mkRiskReport [] capability.RiskNone
  /\ forall grants : hostfunc.GrantSet,
       let report := capability.AnalyzeRisk (Some grants) in
       map capability.FactorLevel (capability.RiskFactors report)
       = classify grants
       /\ capability.Level report = maxLevel (classify grants)
       /\ (forall rule : hostfunc.NetworkRule,
             classifyNetworkRule rule = capability.RiskCritical
             <-> wildcardHost rule)
       /\ (noRules grants ->
           report = capability.mkRiskReport [] capability.RiskNone).
Proof.
  split; [reflexivity|]. intros grants report.
  destruct (AnalyzeRisk_levels grants) as [Hl Hc]. fold report in Hl, Hc.
  assert (HL : Level report = maxLevel (classify grants))
    by (rewrite <- Hl; exact Hc).
  repeat split; try assumption.
  - unfold classifyNetworkRule. destruct (bool_decide_reflect (wildcardHost rule));
      [tauto|discriminate].
  - unfold classifyNetworkRule. intros H. now rewrite bool_decide_eq_true_2.
  - intros (Hn & Hf & Hx & He).
    assert (Hcl : classify grants = []).
    { unfold classify.
      destruct (Network grants) as [net|]; [rewrite (Hn net eq_refl)|];
      destruct (FS grants) as [fs|]; [rewrite (Hf fs eq_refl)| |rewrite (Hf fs eq_refl)|];
      destruct (Exec grants) as [[cs]|];
      try (specialize (Hx _ eq_refl); cbn in Hx; subst cs);
      destruct (Env grants) as [[vs]|];
      try (specialize (He _ eq_refl); cbn in He; subst vs);
      reflexivity. }
    rewrite Hcl in Hl, HL. destruct report as [fs lv]. cbn in *.
    apply map_eq_nil in Hl. now subst.
Qed.

Lemma AnalyzeRisk_classification_witness :
  noRules (hostfunc.mkGrantSet (Some (hostfunc.mkNetworkCapability []))
             None None (Some (hostfunc.mkExecCapability [])))
  /\ capability.AnalyzeRisk
       (Some (hostfunc.mkGrantSet (Some (hostfunc.mkNetworkCapability []))
                None None (Some (hostfunc.mkExecCapability []))))
     = capability.mkRiskReport [] capability.RiskNone.
Proof.
  assert (H : noRules
            (hostfunc.mkGrantSet (Some (hostfunc.mkNetworkCapability []))
               None None (Some (hostfunc.mkExecCapability [])))).
  { repeat split; intros x [= <-]; reflexivity. }
  split; [exact H|].
  exact (proj2 (proj2 (proj2 (proj2 AnalyzeRisk_classification _))) H).
Defined.

End Risk.

(** ** Gatekeeper (C9, C2) *)

Section GatekeeperFacts.

Import hostfunc capability gatekeeper.

Context {ops : GrantSetOps}.
Variable g : Gatekeeper.

Lemma forEach_app {A : Type}
  (body : PromptState -> A -> option string * PromptState)
  (xs ys : list A) (st : PromptState) :
  forEach body (xs ++ ys) st
  = match forEach body xs st with
    | (Some e, st') => (Some e, st')
    | (None, st') => forEach body ys st'
    end.
Proof.
  revert st. induction xs as [|x xs IH]; intros st; cbn; [reflexivity|].
  destruct (body st x) as [[e|] st']; [reflexivity|apply IH].
Qed.

Lemma forEach_map {A B : Type} (f : A -> B)
  (body : PromptState -> B -> option string * PromptState)
  (xs : list A) (st : PromptState) :
  forEach body (map f xs) st = forEach (fun st x => body st (f x)) xs st.
Proof.
  revert st. induction xs as [|x xs IH]; intros st; cbn; [reflexivity|].
  destruct (body st (f x)) as [[e|] st']; [reflexivity|apply IH].
Qed.

Lemma forEach_flat_map {A B : Type} (f : A -> list B)
  (body : PromptState -> B -> option string * PromptState)
  (xs : list A) (st : PromptState) :
  forEach body (flat_map f xs) st
  = forEach (fun st x => forEach body (f x) st) xs st.
Proof.
  revert st. induction xs as [|x xs IH]; intros st; cbn; [reflexivity|].
  rewrite forEach_app.
  destruct (forEach body (f x) st) as [[e|] st']; [reflexivity|apply IH].
Qed.

Lemma forEach_ext {A : Type}
  (body body' : PromptState -> A -> option string * PromptState)
  (xs : list A) (st : PromptState) :
  (forall st x, body st x = body' st x) ->
  forEach body xs st = forEach body' xs st.
Proof.
  intros H. revert st. induction xs as [|x xs IH]; intros st; cbn;
    [reflexivity|].
  rewrite H. destruct (body' st x) as [[e|] st']; [reflexivity|apply IH].
Qed.

Lemma promptForNetwork_items (missing : GrantSet) (st : PromptState) :
  promptForNetwork g missing st
  = runItems g
      match Network missing with
      | Some net => map networkItem (NetRules net)
      | None => []
      end st.
Proof.
  unfold promptForNetwork, runItems.
  destruct (Network missing); [|reflexivity]. now rewrite forEach_map.
Qed.

Lemma promptForFS_items (missing : GrantSet) (st : PromptState) :
  promptForFS g missing st
  = runItems g
      match FS missing with
      | Some fs =>
          flat_map
            (fun rule =>
               (map fsReadItem (Read rule) ++ map fsWriteItem (Write rule))%list)
            (FSRules fs)
      | None => []
      end st.
Proof.
  unfold promptForFS, runItems.
  destruct (FS missing) as [fs|]; [|reflexivity].
  rewrite forEach_flat_map. apply forEach_ext. intros st0 rule.
  rewrite forEach_app, forEach_map.
  cbn [itemRequest itemGrant itemDenied fsReadItem].
  destruct (forEach _ (Read rule) st0) as [[e|] st']; [reflexivity|].
  now rewrite forEach_map.
Qed.

Lemma promptForEnv_items (missing : GrantSet) (st : PromptState) :
  promptForEnv g missing st
  = runItems g
      match Env missing with
      | Some env => map envItem (Variables env)
      | None => []
      end st.
Proof.
  unfold promptForEnv, runItems.
  destruct (Env missing); [|reflexivity]. now rewrite forEach_map.
Qed.

Lemma promptForExec_items (missing : GrantSet) (st : PromptState) :
  promptForExec g missing st
  = runItems g
      match Exec missing with
      | Some ex => map execItem (Commands ex)
      | None => []
      end st.
Proof.
  unfold promptForExec, runItems.
  destruct (Exec missing); [|reflexivity]. now rewrite forEach_map.
Qed.

Lemma runItems_app (xs ys : list PromptItem) (st : PromptState) :
  runItems g (xs ++ ys) st
  = match runItems g xs st with
    | (Some e, st') => (Some e, st')
    | (None, st') => runItems g ys st'
    end.
Proof. apply forEach_app. Qed.

Lemma promptForCapabilities_runItems (missing : GrantSet) (st : PromptState) :
  promptForCapabilities g missing st = runItems g (promptItems missing) st.
Proof.
  unfold promptForCapabilities, promptItems.
  rewrite runItems_app, promptForNetwork_items.
  destruct (runItems g _ st) as [[e|] st1]; [reflexivity|].
  rewrite runItems_app, promptForFS_items.
  destruct (runItems g _ st1) as [[e|] st2]; [reflexivity|].
  rewrite runItems_app, promptForEnv_items.
  destruct (runItems g _ st2) as [[e|] st3]; [reflexivity|].
  apply promptForExec_items.
Qed.

(** *** One request under each level *)

Lemma grantOrDeny_strict_broad (st : PromptState) (req : Request)
  (gs toMerge : GrantSet) (denied : string) :
  securityLevel g = SecurityStrict ->
  IsBroad req = true ->
  grantOrDeny g st req gs toMerge denied = (Some (strictDenial req), st).
Proof.
  intros Hl Hb. unfold grantOrDeny, evaluateWithSecurityLevel.
  rewrite Hl, Hb. cbn. rewrite app_nil_r. now destruct st.
Qed.

Lemma grantOrDeny_permissive (st : PromptState) (req : Request)
  (gs toMerge : GrantSet) (denied : string) :
  securityLevel g = SecurityPermissive ->
  grantOrDeny g st req gs toMerge denied
  = (None,
     mkPromptState (Merge (newGrants st) toMerge) (shouldSave st) (events st)).
Proof.
  intros Hl. unfold grantOrDeny, evaluateWithSecurityLevel.
  rewrite Hl. destruct (IsBroad req); cbn; now rewrite app_nil_r.
Qed.

Lemma grantOrDeny_prompt (st : PromptState) (req : Request)
  (gs toMerge : GrantSet) (denied : string) :
  String.eqb (securityLevel g) SecurityPermissive = false ->
  IsBroad req && String.eqb (securityLevel g) SecurityStrict = false ->
  grantOrDeny g st req gs toMerge denied = afterPrompt g st req toMerge denied.
Proof.
  intros Hp Hs. unfold grantOrDeny, evaluateWithSecurityLevel, afterPrompt.
  rewrite Hp.
  destruct (IsBroad req); cbn [andb] in Hs; [rewrite Hs|];
    destruct (PromptForCapability (prompter g) (events st) req)
      as [[granted always] [e|]]; reflexivity.
Qed.

Lemma afterPrompt_events (st : PromptState) (req : Request)
  (toMerge : GrantSet) (denied : string) :
  events (snd (afterPrompt g st req toMerge denied))
  = (events st ++ [EvPromptForCapability req])%list.
Proof.
  unfold afterPrompt.
  destruct (PromptForCapability (prompter g) (events st) req)
    as [[[|] always] [e|]]; reflexivity.
Qed.

Lemma afterPrompt_granted (st : PromptState) (req : Request)
  (toMerge : GrantSet) (denied : string) :
  grantsEverything (prompter g) ->
  fst (afterPrompt g st req toMerge denied) = None.
Proof.
  intros Hg. unfold afterPrompt.
  destruct (Hg (events st) req) as [always ->]. reflexivity.
Qed.

(** *** The loop under each level *)

Lemma runItems_cons (it : PromptItem) (items : list PromptItem)
  (st : PromptState) :
  runItems g (it :: items) st
  = match
      grantOrDeny g st (itemRequest it) (itemGrant it) (itemGrant it)
        (itemDenied it)
    with
    | (Some e, st') => (Some e, st')
    | (None, st') => runItems g items st'
    end.
Proof. reflexivity. Qed.

Lemma runItems_strict (items : list PromptItem) :
  securityLevel g = SecurityStrict ->
  forall st,
  exists asked,
    events (snd (runItems g items st))
    = (events st ++ map EvPromptForCapability asked)%list
    /\ Forall (fun q => IsBroad q = false) asked
    /\ forall q0,
         find IsBroad (map itemRequest items) = Some q0 ->
         fst (runItems g items st) <> None
         /\ (grantsEverything (prompter g) ->
             fst (runItems g items st) = Some (strictDenial q0)
             /\ asked = beforeBroad (map itemRequest items)).
Proof.
  intros Hl. induction items as [|it items IH]; intros st.
  - exists []. cbn. rewrite app_nil_r.
    split; [reflexivity|]. split; [constructor|]. intros q0 H. discriminate.
  - rewrite runItems_cons. cbn [map find beforeBroad].
    destruct (IsBroad (itemRequest it)) eqn:Hb.
    + rewrite grantOrDeny_strict_broad by assumption.
      exists []. cbn. rewrite app_nil_r.
      split; [reflexivity|]. split; [constructor|]. intros q0 [= <-].
      split; [discriminate|]. intros _. split; reflexivity.
    + rewrite grantOrDeny_prompt by (rewrite ?Hl, ?Hb; reflexivity).
      pose proof (afterPrompt_events st (itemRequest it) (itemGrant it)
                    (itemDenied it)) as Hev.
      pose proof (afterPrompt_granted st (itemRequest it) (itemGrant it)
                    (itemDenied it)) as Hgr.
      destruct (afterPrompt g st (itemRequest it) (itemGrant it) (itemDenied it))
        as [[e|] st1]; cbv beta iota; cbn [fst snd] in *.
      * exists [itemRequest it]. cbn [fst snd map].
        split; [exact Hev|]. split; [repeat constructor; exact Hb|].
        intros q0 Hq0. split; [discriminate|].
        intros Hg. specialize (Hgr Hg). discriminate.
      * destruct (IH st1) as (asked & He & Hf & Hq).
        exists (itemRequest it :: asked).
        split; [rewrite He, Hev, <- app_assoc; reflexivity|].
        split; [constructor; assumption|].
        intros q0 Hq0. destruct (Hq q0 Hq0) as [Hne Hall].
        split; [exact Hne|]. intros Hg. destruct (Hall Hg) as [H1 H2].
        split; [exact H1|now rewrite H2].
Qed.

Lemma runItems_permissive (items : list PromptItem) :
  securityLevel g = SecurityPermissive ->
  forall st,
    runItems g items st
    = (None,
       mkPromptState (fold_left Merge (map itemGrant items) (newGrants st))
         (shouldSave st) (events st)).
Proof.
  intros Hl. induction items as [|it items IH]; intros st.
  - now destruct st.
  - rewrite runItems_cons. cbn [map fold_left].
    rewrite grantOrDeny_permissive by assumption. now rewrite IH.
Qed.

Lemma runItems_standard (items : list PromptItem) :
  securityLevel g = SecurityStandard ->
  forall st,
    (exists k,
       events (snd (runItems g items st))
       = (events st
          ++ map EvPromptForCapability (firstn k (map itemRequest items)))%list)
    /\ (fst (runItems g items st) = None ->
        events (snd (runItems g items st))
        = (events st
           ++ map EvPromptForCapability (map itemRequest items))%list).
Proof.
  intros Hl. induction items as [|it items IH]; intros st.
  - split; [exists 0%nat|intros _]; cbn; now rewrite app_nil_r.
  - rewrite runItems_cons. cbn [map].
    rewrite grantOrDeny_prompt
      by (rewrite Hl; cbn; rewrite ?andb_false_r; reflexivity).
    pose proof (afterPrompt_events st (itemRequest it) (itemGrant it)
                  (itemDenied it)) as Hev.
    destruct (afterPrompt g st (itemRequest it) (itemGrant it) (itemDenied it))
      as [[e|] st1]; cbv beta iota; cbn [fst snd] in *.
    + split; [exists 1%nat; exact Hev|discriminate].
    + destruct (IH st1) as [[k Hk] Hall]. split.
      * exists (S k). cbn [firstn map].
        rewrite Hk, Hev, <- app_assoc. reflexivity.
      * intros Hn. rewrite (Hall Hn), Hev, <- app_assoc. reflexivity.
Qed.

Lemma prompts_app (xs ys : list Event) :
  prompts (xs ++ ys) = (prompts xs ++ prompts ys)%list.
Proof. unfold prompts. apply flat_map_app. Qed.

Lemma prompts_map (reqs : list Request) :
  prompts (map EvPromptForCapability reqs) = reqs.
Proof.
  induction reqs as [|q reqs IH]; [reflexivity|].
  cbn. unfold prompts in IH. now rewrite IH.
Qed.

(** *** What counts as broad, kind by kind *)

Lemma networkRequest_broad (rule : NetworkRule) :
  IsBroad (networkRequest rule) = true
  <-> Hosts rule = ["*"] /\ Ports rule = ["*"].
Proof.
  unfold networkRequest. cbn [IsBroad].
  destruct rule as [[|h [|h' hs]] [|p [|p' ps]]]; cbn;
    rewrite ?andb_false_r; try (split; [discriminate|intros [? ?]; discriminate]).
  rewrite andb_true_r, andb_true_iff, !String.eqb_eq.
  split; [intros [-> ->]; now split|intros [[= ->] [= ->]]; now split].
Qed.

Lemma eqb_or_spec (s a b : string) :
  String.eqb s a || String.eqb s b = true <-> s = a \/ s = b.
Proof. now rewrite orb_true_iff, !String.eqb_eq. Qed.

(** C9: with a nil or empty required set [GrantCapabilities] returns the
    empty grant set, and with a non-empty required set and [trustAll] it
    returns the clone of the required set; in both cases no call is made on
    the prompter or on the grant store.  The empty case is decided first,
    so an empty required set yields the empty grant set under [trustAll]
    too. *)
Theorem GrantCapabilities_empty_or_trustAll
  (required : option hostfunc.GrantSet) (trustAll : bool) :
  ((required = None \/ exists r, required = Some r /\ IsEmpty r = true) ->
   gatekeeper.GrantCapabilities g required trustAll
   = (Ok hostfunc.emptyGrantSet, []))
  /\ (forall r,
        required = Some r -> IsEmpty r = false -> trustAll = true ->
        gatekeeper.GrantCapabilities g required trustAll
        = (Ok (Clone r), [])).
Proof.
  split.
  - intros [->|(r & -> & He)]; [reflexivity|].
    unfold GrantCapabilities. now rewrite He.
  - intros r -> He ->. unfold GrantCapabilities. now rewrite He.
Qed.

(** C2 (as amended): once [GrantCapabilities] has found grants missing and
    the prompter interactive, it takes up the requests of the missing set
    in order, where a request is broad when it is a network rule with
    hosts [["*"]] and ports [["*"]], a filesystem path ["/**"] or ["**"],
    an environment variable ["*"], or a command ["*"] or ["**"].  Under
    the strict level no broad request reaches the prompter and a missing
    set with a broad request makes the call fail - with the error naming
    the first broad request when the prompter grants what it is asked;
    under the permissive level every request is granted and the prompter
    is never asked; under the standard level the requests are put to the
    prompter in order, all of them when the call succeeds. *)
Theorem GrantCapabilities_security_levels (required : hostfunc.GrantSet) :
  let existing :=
    match gatekeeper.Load (gatekeeper.store g) with
    | Ok grants => grants
    | Err _ => hostfunc.emptyGrantSet
    end in
  let missing := Deduplicate (Difference required existing) in
  let reqs := requestsOf missing in
  let out := gatekeeper.GrantCapabilities g (Some required) false in
  IsEmpty required = false ->
  IsEmpty (Difference required existing) = false ->
  gatekeeper.IsInteractive (gatekeeper.prompter g) = true ->
  (gatekeeper.securityLevel g = gatekeeper.SecurityStrict ->
   Forall (fun q => capability.IsBroad q = false)
     (gatekeeper.prompts (snd out))
   /\ forall q0,
        find capability.IsBroad reqs = Some q0 ->
        is_ok (fst out) = false
        /\ (grantsEverything (gatekeeper.prompter g) ->
            fst out = Err (strictDenial q0)
            /\ gatekeeper.prompts (snd out) = beforeBroad reqs))
  /\ (gatekeeper.securityLevel g = gatekeeper.SecurityPermissive ->
      gatekeeper.prompts (snd out) = []
      /\ fst out
         = Ok (fold_left Merge (map itemGrant (promptItems missing))
                 (Clone existing)))
  /\ (gatekeeper.securityLevel g = gatekeeper.SecurityStandard ->
      (exists k, gatekeeper.prompts (snd out) = firstn k reqs)
      /\ (is_ok (fst out) = true -> gatekeeper.prompts (snd out) = reqs))
  /\ (forall rule,
        capability.IsBroad (gatekeeper.networkRequest rule) = true
        <-> hostfunc.Hosts rule = ["*"] /\ hostfunc.Ports rule = ["*"])
  /\ (forall path,
        (capability.IsBroad (gatekeeper.fsReadRequest path) = true
         <-> path = "/**" \/ path = "**")
        /\ (capability.IsBroad (gatekeeper.fsWriteRequest path) = true
            <-> path = "/**" \/ path = "**"))
  /\ (forall v,
        capability.IsBroad (gatekeeper.envRequest v) = true <-> v = "*")
  /\ (forall cmd,
        capability.IsBroad (gatekeeper.execRequest cmd) = true
        <-> cmd = "**" \/ cmd = "*").
Proof.
  intros existing missing reqs out Hreq Hmiss Hint.
  assert (Hout :
    out
    = match runItems g (promptItems missing)
              (mkPromptState (Clone existing) false
                 [EvStoreLoad; EvIsInteractive]) with
      | (Some e, st) => (Err e, events st)
      | (None, st) =>
          if shouldSave st then
            match Save (store g) (newGrants st) with
            | Some _ =>
                (Ok (newGrants st),
                 (events st ++ [EvStoreSave (newGrants st)])%list)
            | None =>
                (Ok (newGrants st),
                 (events st ++ [EvStoreSave (newGrants st);
                                EvStoreConfigPath])%list)
            end
          else (Ok (newGrants st), events st)
      end).
  { subst out. unfold GrantCapabilities. rewrite Hreq.
    fold existing. rewrite Hmiss. fold missing. rewrite Hint. cbn [negb].
    now rewrite promptForCapabilities_runItems. }
  set (st0 := mkPromptState (Clone existing) false
                [EvStoreLoad; EvIsInteractive]) in Hout.
  assert (Hprompts : forall asked,
    events (snd (runItems g (promptItems missing) st0))
    = (events st0 ++ map EvPromptForCapability asked)%list ->
    prompts (snd out) = asked).
  { intros asked He. rewrite Hout.
    destruct (runItems g (promptItems missing) st0) as [[e|] st];
      cbn [fst snd] in *.
    - rewrite He, prompts_app, prompts_map. reflexivity.
    - destruct (shouldSave st); [destruct (Save (store g) (newGrants st))|];
        cbn [snd]; rewrite ?prompts_app, He, prompts_app, prompts_map;
        cbn; now rewrite ?app_nil_r. }
  assert (Hok : is_ok (fst out) = true
                <-> fst (runItems g (promptItems missing) st0) = None).
  { rewrite Hout.
    destruct (runItems g (promptItems missing) st0) as [[e|] st];
      cbn [fst snd].
    - split; discriminate.
    - destruct (shouldSave st); [destruct (Save (store g) (newGrants st))|];
        now split. }
  split; [|split; [|split; [|split; [|split; [|split]]]]].
  - intros Hl.
    destruct (runItems_strict (promptItems missing) Hl st0)
      as (asked & He & Hf & Hq).
    rewrite (Hprompts asked He). split; [exact Hf|].
    intros q0 Hq0. destruct (Hq q0 Hq0) as [Hne Hall]. split.
    + apply not_true_is_false. intros E. apply Hok in E. contradiction.
    + intros Hg. destruct (Hall Hg) as [H1 H2]. split; [|exact H2].
      rewrite Hout.
      destruct (runItems g (promptItems missing) st0) as [[e|] st];
        cbn [fst] in *; [now injection H1 as ->|discriminate].
  - intros Hl. rewrite (runItems_permissive (promptItems missing) Hl st0) in *.
    split.
    + apply (Hprompts []). cbn. rewrite ?app_nil_r. reflexivity.
    + rewrite Hout. reflexivity.
  - intros Hl.
    destruct (runItems_standard (promptItems missing) Hl st0) as [[k Hk] Hall].
    split.
    + exists k. now apply Hprompts.
    + intros E. apply Hok in E. now apply Hprompts, Hall.
  - apply networkRequest_broad.
  - intros path. split; apply eqb_or_spec.
  - intros v. apply String.eqb_eq.
  - intros cmd. apply eqb_or_spec.
Qed.

End GatekeeperFacts.

Section GatekeeperScenarios.

Import hostfunc capability gatekeeper.

Lemma yesPrompter_grantsEverything : grantsEverything yesPrompter.
Proof. intros history req. now exists false. Qed.

Lemma GrantCapabilities_empty_or_trustAll_witness :
  let g := mkGatekeeper emptyStore yesPrompter SecurityStandard in
  let r := mkGrantSet None None None (Some (mkExecCapability ["/bin/ls"])) in
  gatekeeper.GrantCapabilities (ops := sampleOps) g None true
  = (Ok hostfunc.emptyGrantSet, [])
  /\ sampleIsEmpty r = false
  /\ gatekeeper.GrantCapabilities (ops := sampleOps) g (Some r) true
     = (Ok r, []).
Proof.
  intros g r.
  split; [|split; [reflexivity|]].
  - apply (proj1 (GrantCapabilities_empty_or_trustAll (ops := sampleOps)
                    g None true)).
    now left.
  - apply (proj2 (GrantCapabilities_empty_or_trustAll (ops := sampleOps)
                    g (Some r) true) r); reflexivity.
Defined.

(** The scenario of the specification: under the strict level the rule
    [Network[hosts=["*"], ports=["*"]]] is refused without a prompt, by an
    error that names the rule. *)
Lemma GrantCapabilities_security_levels_witness :
  let g := mkGatekeeper emptyStore yesPrompter SecurityStrict in
  let required :=
    mkGrantSet (Some (mkNetworkCapability [mkNetworkRule ["*"] ["*"]]))
      None None None in
  let out := gatekeeper.GrantCapabilities (ops := sampleOps) g (Some required)
               false in
  sampleIsEmpty required = false
  /\ IsInteractive (prompter g) = true
  /\ securityLevel g = SecurityStrict
  /\ fst out
     = Err "broad capability denied by strict security policy: network [*]:[*]"
  /\ prompts (snd out) = [].
Proof.
  intros g required out.
  split; [reflexivity|]. split; [reflexivity|]. split; [reflexivity|].
  pose proof (GrantCapabilities_security_levels (ops := sampleOps) g required
                eq_refl eq_refl eq_refl) as (Hstrict & _).
  destruct (Hstrict eq_refl) as [_ Hq].
  destruct (Hq (networkRequest (mkNetworkRule ["*"] ["*"])) eq_refl)
    as [_ Hall].
  exact (Hall yesPrompter_grantsEverything).
Defined.

(** C2 as stated fails on two counts.  The command pattern ["/**"] is one
    of the patterns the specification calls broad, yet under the strict
    level the request is put to the prompter and granted.  And under the
    permissive level, with a prompter that is not interactive, the call
    fails instead of granting the request. *)
Lemma GrantCapabilities_security_levels_counterexample :
  let required :=
    mkGrantSet None None None (Some (mkExecCapability ["/**"])) in
  let strict := mkGatekeeper emptyStore yesPrompter SecurityStrict in
  let batch :=
    mkPrompter false (fun _ _ => (true, false, None))
      (fun _ => "missing capabilities") in
  let permissive := mkGatekeeper emptyStore batch SecurityPermissive in
  let out1 := gatekeeper.GrantCapabilities (ops := sampleOps) strict
                (Some required) false in
  let out2 := gatekeeper.GrantCapabilities (ops := sampleOps) permissive
                (Some required) false in
  broadPattern "/**" = true
  /\ fst out1 = Ok required
  /\ prompts (snd out1) = [execRequest "/**"]
  /\ fst out2 = Err "missing capabilities".
Proof. repeat split. Qed.

End GatekeeperScenarios.

(** ** Retrying transport (C3) *)

Section Retry.

Import netutil.
Local Open Scope Z_scope.

Variable Atoi : string -> option Z.
Variable untilHTTPDate : string -> option Z.
Variable t : RetryTransport.
Variable base : nat -> Outcome.
Variable req : Request.

Lemma isRetryableStatus_spec (status : Z) :
  isRetryableStatus status = true
  <-> status = 429 \/ status = 502 \/ status = 503 \/ status = 504.
Proof.
  unfold isRetryableStatus.
  destruct (Z.eqb_spec status 429); [tauto|].
  destruct (Z.eqb_spec status 502); [tauto|].
  destruct (Z.eqb_spec status 503); [tauto|].
  destruct (Z.eqb_spec status 504); [tauto|].
  split; [discriminate|tauto].
Qed.

Lemma transportCalls_app (xs ys : list Event) :
  transportCalls (xs ++ ys) = (transportCalls xs ++ transportCalls ys)%list.
Proof. unfold transportCalls. apply flat_map_app. Qed.

Lemma transportCalls_onRetry (attempt wait status : Z) :
  transportCalls (onRetry t attempt wait status) = [].
Proof. unfold onRetry. now destruct (hasOnRetry t). Qed.

(** The calls of the iterations from [attempt] on: consecutive, at most
    [left] of them, each but the last followed by a retryable outcome, and
    a response that is not retryable ends them and is returned. *)
Lemma attempts_calls (left : nat) :
  forall (attempt : Z) lastResp lastErr,
    0 <= attempt ->
    let out := attempts Atoi untilHTTPDate t base req left attempt
                 lastResp lastErr in
    let a := Z.to_nat attempt in
    exists n,
      transportCalls (snd out) = seq a n
      /\ (n <= left)%nat
      /\ (forall k, (S k < n)%nat -> retryable (base (a + k)%nat) = true)
      /\ (forall k resp,
            (k < n)%nat ->
            base (a + k)%nat = Responded resp ->
            isRetryableStatus (StatusCode resp) = false ->
            n = S k /\ fst out = (Some resp, None)).
Proof.
  induction left as [|left IH]; intros attempt lastResp lastErr Ha out a.
  - exists 0%nat. subst out. cbn.
    destruct lastResp; (split; [reflexivity|split; [lia|split; intros; lia]]).
  - subst out. cbn [attempts].
    assert (Hnext : Z.to_nat (attempt + 1) = S a) by (subst a; lia).
    assert (Ha1 : 0 <= attempt + 1) by lia.
    assert (Hone : forall res : option Response * option TransportError,
      (forall resp, base a = Responded resp ->
                    isRetryableStatus (StatusCode resp) = false ->
                    res = (Some resp, None)) ->
      exists n,
        transportCalls [EvRoundTrip a] = seq a n
        /\ (n <= S left)%nat
        /\ (forall k, (S k < n)%nat -> retryable (base (a + k)%nat) = true)
        /\ (forall k resp,
              (k < n)%nat ->
              base (a + k)%nat = Responded resp ->
              isRetryableStatus (StatusCode resp) = false ->
              n = S k /\ res = (Some resp, None))).
    { intros res Hres. exists 1%nat.
      split; [reflexivity|]. split; [lia|]. split; [intros k Hk; lia|].
      intros k resp Hk Hb Hst. assert (k = 0)%nat as -> by lia.
      rewrite Nat.add_0_r in Hb. split; [reflexivity|auto]. }
    assert (Hmore : forall lr le (pre : list Event),
      transportCalls pre = [] ->
      retryable (base a) = true ->
      let out' := attempts Atoi untilHTTPDate t base req left (attempt + 1)
                    lr le in
      exists n,
        transportCalls (EvRoundTrip a :: pre ++ snd out') = seq a n
        /\ (n <= S left)%nat
        /\ (forall k, (S k < n)%nat -> retryable (base (a + k)%nat) = true)
        /\ (forall k resp,
              (k < n)%nat ->
              base (a + k)%nat = Responded resp ->
              isRetryableStatus (StatusCode resp) = false ->
              n = S k /\ fst out' = (Some resp, None))).
    { intros lr le pre Hpre Hretry out'.
      destruct (IH (attempt + 1) lr le Ha1) as (n & Hc & Hn & Hr & Hs).
      rewrite Hnext in Hc, Hr, Hs. fold out' in Hc, Hs.
      exists (S n). split; [|split; [lia|split]].
      - change (EvRoundTrip a :: pre ++ snd out')%list
          with ([EvRoundTrip a] ++ pre ++ snd out')%list.
        rewrite !transportCalls_app, Hpre, Hc. reflexivity.
      - intros [|k] Hk.
        + now rewrite Nat.add_0_r.
        + replace (a + S k)%nat with (S a + k)%nat by lia. apply Hr. lia.
      - intros [|k] resp Hk Hb Hst.
        + rewrite Nat.add_0_r in Hb. unfold retryable in Hretry.
          rewrite Hb in Hretry. congruence.
        + replace (a + S k)%nat with (S a + k)%nat in Hb by lia.
          destruct (Hs k resp ltac:(lia) Hb Hst) as [-> ->]. now split. }
    destruct (match GetBody req with
              | Some getBody => getBody attempt
              | None => None
              end) as [gerr|].
    { exists 0%nat. cbn.
      split; [reflexivity|split; [lia|split; intros; lia]]. }
    fold a. destruct (base a) as [resp|err] eqn:Hbase.
    + destruct (isRetryableStatus (StatusCode resp)) eqn:Hst; cbn [negb].
      * assert (Hfour : (StatusCode resp >=? 400) && (StatusCode resp <? 500)
                        && negb (StatusCode resp =? 429) = false).
        { apply isRetryableStatus_spec in Hst.
          destruct Hst as [-> | [-> | [-> | ->]]]; reflexivity. }
        rewrite Hfour.
        assert (Hretry : retryable (base a) = true)
          by (unfold retryable; now rewrite Hbase).
        destruct (attempt <? maxRetries t).
        -- specialize (Hmore (Some resp) None
             (onRetry t (attempt + 1)
                (calculateBackoff Atoi untilHTTPDate attempt (initialBackoff t)
                   (maxBackoff t) (Some resp)) (StatusCode resp)
              ++ [EvCloseBody;
                  EvSleep (calculateBackoff Atoi untilHTTPDate attempt
                             (initialBackoff t) (maxBackoff t) (Some resp))])%list).
           cbv zeta in Hmore.
           destruct (attempts Atoi untilHTTPDate t base req left (attempt + 1)
                       (Some resp) None) as [res evs].
           cbn [fst snd] in *. rewrite <- app_assoc in Hmore. apply Hmore.
           ++ now rewrite transportCalls_app, transportCalls_onRetry.
           ++ rewrite <- Hbase. exact Hretry.
        -- specialize (Hmore (Some resp) None [] eq_refl).
           cbv zeta in Hmore.
           destruct (attempts Atoi untilHTTPDate t base req left (attempt + 1)
                       (Some resp) None) as [res evs].
           cbn [fst snd] in *. apply Hmore. rewrite <- Hbase. exact Hretry.
      * cbn [fst snd]. rewrite <- Hbase in *. apply Hone.
        intros resp' Hr' _. rewrite Hbase in Hr'. now injection Hr' as <-.
    + destruct (IsSSRFBlockedError err) eqn:Hssrf.
      * cbn [fst snd]. rewrite <- Hbase in *. apply Hone.
        intros resp' Hr'. rewrite Hbase in Hr'. discriminate.
      * assert (Hretry : retryable (base a) = true)
          by (unfold retryable; now rewrite Hbase, Hssrf).
        destruct (attempt <? maxRetries t).
        -- specialize (Hmore lastResp (Some err)
             (onRetry t (attempt + 1)
                (calculateBackoff Atoi untilHTTPDate attempt (initialBackoff t)
                   (maxBackoff t) None) 0
              ++ [EvSleep (calculateBackoff Atoi untilHTTPDate attempt
                             (initialBackoff t) (maxBackoff t) None)])%list).
           cbv zeta in Hmore.
           destruct (attempts Atoi untilHTTPDate t base req left (attempt + 1)
                       lastResp (Some err)) as [res evs].
           cbn [fst snd] in *. rewrite <- app_assoc in Hmore. apply Hmore.
           ++ now rewrite transportCalls_app, transportCalls_onRetry.
           ++ rewrite <- Hbase. exact Hretry.
        -- cbn [fst snd]. rewrite <- Hbase in *. apply Hone.
           intros resp' Hr'. rewrite Hbase in Hr'. discriminate.
Qed.

(** C3 (as amended): [RoundTrip] calls the underlying transport at most
    [maxRetries + 1] times, where [maxRetries] is [MaxRetries] except that
    a [MaxRetries] of zero stands for three (so at most [MaxRetries + 1]
    times when [MaxRetries] is positive); the calls are consecutive; a
    further call is made only after a transport error that is not an SSRF
    block or a response with status 429, 502, 503 or 504, hence never
    after another 4xx status; and the first response whose status is not
    one of these is returned as it is. *)
Theorem RoundTrip_bounded_retries :
  let out := netutil.RoundTrip Atoi untilHTTPDate t base req in
  let calls := netutil.transportCalls (snd out) in
  let n := length calls in
  calls = seq 0 n
  /\ (n <= Z.to_nat (netutil.maxRetries t + 1))%nat
  /\ netutil.maxRetries t
     = (if netutil.MaxRetries t =? 0 then 3 else netutil.MaxRetries t)
  /\ (0 < netutil.MaxRetries t -> Z.of_nat n <= netutil.MaxRetries t + 1)
  /\ (forall k, (S k < n)%nat -> retryable (base k) = true)
  /\ (forall status,
        netutil.isRetryableStatus status = true
        <-> status = 429 \/ status = 502 \/ status = 503 \/ status = 504)
  /\ (forall k resp,
        base k = netutil.Responded resp ->
        400 <= netutil.StatusCode resp < 500 ->
        netutil.StatusCode resp <> 429 ->
        (n <= S k)%nat)
  /\ (forall k resp,
        (k < n)%nat ->
        base k = netutil.Responded resp ->
        netutil.isRetryableStatus (netutil.StatusCode resp) = false ->
        n = S k /\ fst out = (Some resp, None)).
Proof.
  intros out calls n.
  destruct (attempts_calls (Z.to_nat (maxRetries t + 1)) 0 None None
              (Z.le_refl 0)) as (m & Hc & Hm & Hr & Hs).
  cbv zeta in Hc, Hs. change (Z.to_nat 0) with 0%nat in *.
  fold (RoundTrip Atoi untilHTTPDate t base req) in Hc, Hs.
  fold out in Hc, Hs. fold calls in Hc.
  assert (Hn : n = m) by (subst n; rewrite Hc; apply length_seq).
  rewrite Hn. clear Hn n.
  split; [exact Hc|]. split; [exact Hm|]. split; [reflexivity|].
  split.
  { intros Hpos. unfold maxRetries in Hm.
    destruct (Z.eqb_spec (MaxRetries t) 0); lia. }
  split; [exact Hr|]. split; [exact isRetryableStatus_spec|].
  split; [|exact Hs].
  intros k resp Hb H4 Hne.
  destruct (Nat.le_gt_cases m (S k)) as [|Hlt]; [assumption|].
  specialize (Hr k Hlt). cbn in Hr. unfold retryable in Hr. rewrite Hb in Hr.
  apply isRetryableStatus_spec in Hr. lia.
Qed.

End Retry.

Section RetryScenarios.

Import netutil.
Local Open Scope Z_scope.

(** C3 as stated fails: with [MaxRetries = 0] the default of three retries
    applies, and a transport that keeps answering 503 is called four
    times, not once. *)
Lemma RoundTrip_default_retries_counterexample :
  let t := mkRetryTransport false 0 1 0 in
  let base := fun _ : nat => Responded (mkResponse 503 "") in
  let out := netutil.RoundTrip (fun _ => None) (fun _ => None) t base
               (mkRequest None) in
  Z.of_nat (length (netutil.transportCalls (snd out)))
  > netutil.MaxRetries t + 1.
Proof. reflexivity. Qed.

(** The scenario of the specification: 503 then 200 with [MaxRetries = 3];
    the caller sees the 200 after exactly two calls. *)
Lemma RoundTrip_bounded_retries_witness :
  let t := mkRetryTransport true 3 1000000 0 in
  let base :=
    fun n : nat =>
      match n with
      | O => Responded (mkResponse 503 "")
      | _ => Responded (mkResponse 200 "")
      end in
  let out := netutil.RoundTrip (fun _ => None) (fun _ => None) t base
               (mkRequest None) in
  0 < netutil.MaxRetries t
  /\ length (netutil.transportCalls (snd out)) = 2%nat
  /\ fst out = (Some (mkResponse 200 ""), None)
  /\ Z.of_nat (length (netutil.transportCalls (snd out)))
     <= netutil.MaxRetries t + 1.
Proof.
  intros t base out.
  pose proof (RoundTrip_bounded_retries (fun _ => None) (fun _ => None) t base
                (mkRequest None))
    as (_ & _ & _ & Hbound & _ & _ & _ & Hfirst).
  assert (Hpos : 0 < MaxRetries t) by reflexivity.
  destruct (Hfirst 1%nat (mkResponse 200 "")) as [Hn Hres].
  - vm_compute. lia.
  - reflexivity.
  - reflexivity.
  - split; [exact Hpos|]. split; [exact Hn|]. split; [exact Hres|].
    exact (Hbound Hpos).
Defined.

End RetryScenarios.

(** ** Limited reader (C6) *)

Section LimitedReaderFacts.

Import netutil.
Local Open Scope Z_scope.

Lemma streamRead_facts (s : Stream) (k : nat) :
  segments s <> [] ->
  (1 <= k)%nat ->
  exists data s',
    streamRead s k = (data, None, s')
    /\ content s = (data ++ content s')%list
    /\ (length data <= k)%nat
    /\ (streamMeasure s' < streamMeasure s)%nat.
Proof.
  intros Hne Hk. unfold streamRead, streamMeasure, content.
  destruct s as [[|seg rest] fin]; [contradiction|]. cbn [segments final].
  destruct (Nat.leb_spec (length seg) k) as [Hle|Hgt].
  - exists seg, (mkStream rest fin). cbn [segments concat].
    repeat split; try assumption. rewrite length_app. cbn. lia.
  - exists (firstn k seg), (mkStream (skipn k seg :: rest) fin).
    cbn [segments concat]. split; [reflexivity|]. split.
    + now rewrite app_assoc, firstn_skipn.
    + split; [rewrite length_firstn; lia|].
      rewrite !length_app, length_skipn. cbn. lia.
Qed.

Lemma content_nonempty_segments (s : Stream) :
  (0 < length (content s))%nat -> segments s <> [].
Proof. unfold content. destruct (segments s); [cbn; lia|discriminate]. Qed.

Lemma Read_spent (l : LimitedReader) (k : nat) :
  N l <= 0 ->
  Read l k = ([], Some (SizeLimitExceededError (Limit l) (read l)), l).
Proof.
  intros H. unfold Read. destruct (Z.leb_spec (N l) 0); [reflexivity|lia].
Qed.

(** One [Read] of a reader that is over its limit, with budget left:
    either it reports the limit, having delivered exactly the budget, or
    it delivers a part and leaves a reader that is over its limit. *)
Lemma Read_step (l : LimitedReader) (k : nat) :
  (1 <= k)%nat ->
  0 < N l ->
  Z.of_nat (length (content (R l))) > N l ->
  exists data err l',
    Read l k = (data, err, l')
    /\ ((exists e, err = Some e /\ IsSizeLimitExceededError e = true
                   /\ data = firstn (Z.to_nat (N l)) (content (R l)))
        \/ (err = None
            /\ (data ++ firstn (Z.to_nat (N l')) (content (R l')))%list
               = firstn (Z.to_nat (N l)) (content (R l))
            /\ overLimit l'
            /\ (streamMeasure (R l') < streamMeasure (R l))%nat)).
Proof.
  intros Hk HN Hlen. unfold Read.
  destruct (Z.leb_spec (N l) 0) as [|_]; [lia|].
  set (k' := if Z.of_nat k >? N l then Z.to_nat (N l) else k).
  assert (Hk' : (1 <= k')%nat /\ Z.of_nat k' <= N l).
  { subst k'. destruct (Z.gtb_spec (Z.of_nat k) (N l)); lia. }
  destruct (streamRead_facts (R l) k') as (data & r1 & Hrd & Hc & Hd & Hm).
  { apply content_nonempty_segments. lia. }
  { apply Hk'. }
  rewrite Hrd. cbn [N Limit read R].
  assert (Hlen1 : Z.of_nat (length (content r1))
                  = Z.of_nat (length (content (R l))) - Z.of_nat (length data)).
  { rewrite Hc, length_app. lia. }
  destruct (Z.eqb_spec (N l - Z.of_nat (length data)) 0) as [Hz|Hnz].
  - assert (Hdata : data = firstn (Z.to_nat (N l)) (content (R l))).
    { rewrite Hc. replace (Z.to_nat (N l)) with (length data + 0)%nat by lia.
      rewrite firstn_app_2. cbn. now rewrite app_nil_r. }
    destruct (streamRead_facts r1 1) as (extra & r2 & Hrd2 & Hc2 & Hd2 & Hm2).
    { apply content_nonempty_segments. lia. }
    { lia. }
    rewrite Hrd2. destruct (Nat.ltb_spec 0 (length extra)) as [Hpos|Hzero].
    + eexists _, _, _. split; [reflexivity|]. left.
      eexists. split; [reflexivity|]. split; [reflexivity|exact Hdata].
    + eexists _, _, _. split; [reflexivity|]. right.
      cbn [N R]. rewrite Hz. cbn [Z.to_nat firstn].
      split; [reflexivity|]. rewrite app_nil_r.
      split; [exact Hdata|].
      split; [unfold overLimit; cbn [N R]; lia|lia].
  - eexists _, _, _. split; [reflexivity|]. right. cbn [N R].
    split; [reflexivity|]. split.
    + rewrite Hc.
      replace (Z.to_nat (N l))
        with (length data + Z.to_nat (N l - Z.of_nat (length data)))%nat by lia.
      now rewrite firstn_app_2.
    + split; [unfold overLimit; cbn [N R]; lia|exact Hm].
Qed.

(** [io.ReadAll] over a reader that is over its limit ends with the
    size-limit error, having collected exactly the budget. *)
Lemma ReadAllFrom_overLimit (space : nat -> nat) (fuel : nat) :
  forall (i : nat) (l : LimitedReader) (b : list Byte.byte),
    overLimit l ->
    (streamMeasure (R l) < fuel)%nat ->
    exists e l',
      ReadAllFrom space fuel i l b
      = Some ((b ++ firstn (Z.to_nat (N l)) (content (R l)))%list, Some e, l')
      /\ IsSizeLimitExceededError e = true.
Proof.
  induction fuel as [|fuel IH]; intros i l b Hover Hfuel; [lia|].
  cbn [ReadAllFrom].
  destruct (Z.leb_spec (N l) 0) as [Hle|Hgt].
  - rewrite Read_spent by assumption.
    replace (Z.to_nat (N l)) with 0%nat by lia.
    eexists _, _. split; reflexivity.
  - destruct Hover as [|Hlen]; [lia|].
    assert (Hbuf : (1 <= S (space i))%nat) by lia.
    destruct (Read_step l (S (space i)) Hbuf Hgt Hlen)
      as (data & err & l' & Hrd & [(e & -> & He & Hdata)
                                  |(-> & Hcat & Hover' & Hm)]).
    + rewrite Hrd, <- Hdata.
      destruct e; try discriminate. eexists _, _. split; reflexivity.
    + rewrite Hrd.
      assert (Hfuel' : (streamMeasure (R l') < fuel)%nat) by lia.
      destruct (IH (S i) l' (b ++ data)%list Hover' Hfuel')
        as (e & l'' & Hall & He).
      exists e, l''. split; [|exact He].
      rewrite Hall, <- app_assoc, Hcat. reflexivity.
Qed.

(** C6: a [LimitedReader] with limit 0 answers every [Read] with the
    size-limit error and stays as it is; for a stream longer than the
    limit, reading to the end ([io.ReadAll]) ends with the size-limit
    error after the first [limit] bytes; and [readHTTPResponse] then
    returns a response with those bytes, [BodyTruncated = true] and no
    error record. *)
Theorem LimitedReader_size_limit :
  (forall (r : netutil.Stream) (k : nat),
     netutil.Read (netutil.NewLimitedReader r 0) k
     = ([], Some (netutil.SizeLimitExceededError 0 0),
        netutil.NewLimitedReader r 0))
  /\ (forall (r : netutil.Stream) (limit : Z) (space : nat -> nat) (fuel : nat),
        Z.of_nat (length (netutil.content r)) > limit ->
        (streamMeasure r < fuel)%nat ->
        (exists e l',
           netutil.ReadAll space fuel (netutil.NewLimitedReader r limit)
           = Some (firstn (Z.to_nat limit) (netutil.content r), Some e, l')
           /\ netutil.IsSizeLimitExceededError e = true)
        /\ forall status header proto latencyMs,
             http.readHTTPResponse space fuel
               (http.mkResponse status header proto r) latencyMs limit
             = Some (http.mkHTTPResponse header None proto
                       (firstn (Z.to_nat limit) (netutil.content r))
                       latencyMs status true)).
Proof.
  split.
  - intros r k. apply Read_spent. cbn. lia.
  - intros r limit space fuel Hlen Hfuel.
    destruct (ReadAllFrom_overLimit space fuel 0 (NewLimitedReader r limit) [])
      as (e & l' & Hall & He).
    { right. exact Hlen. }
    { exact Hfuel. }
    cbn [N R NewLimitedReader app] in Hall. split.
    + exists e, l'. split; assumption.
    + intros status header proto latencyMs.
      unfold http.readHTTPResponse. cbn [http.RespBody].
      unfold ReadAll. rewrite Hall, He. reflexivity.
Qed.

Lemma LimitedReader_size_limit_witness :
  let r := mkStream [[Byte.x68; Byte.x65]; [Byte.x6c; Byte.x6c; Byte.x6f]] EOF in
  Z.of_nat (length (netutil.content r)) > 3
  /\ (streamMeasure r < 8)%nat
  /\ http.readHTTPResponse (fun _ => 511%nat) 8
       (http.mkResponse 200 [] "HTTP/1.1" r) 12 3
     = Some (http.mkHTTPResponse [] None "HTTP/1.1"
               [Byte.x68; Byte.x65; Byte.x6c] 12 200 true).
Proof.
  intros r.
  assert (H1 : Z.of_nat (length (netutil.content r)) > 3) by reflexivity.
  assert (H2 : (streamMeasure r < 8)%nat) by (vm_compute; lia).
  split; [exact H1|]. split; [exact H2|].
  exact (proj2 (proj2 LimitedReader_size_limit r 3 (fun _ => 511%nat) 8%nat
                  H1 H2) 200 [] "HTTP/1.1" 12).
Defined.

End LimitedReaderFacts.

(** ** Lockfile resolution (C7) *)

Section LockfileFacts.

Import entities plugin.
Local Open Scope Z_scope.

Lemma satisfiedBy_Plugins (l l' : Lockfile) (d : string) :
  Plugins l = Plugins l' -> satisfiedBy l d -> satisfiedBy l' d.
Proof.
  intros Hp (spec & locked & Hparse & Hget & Hreq).
  exists spec, locked. repeat split; try assumption.
  unfold GetPlugin in *. now rewrite <- Hp.
Qed.

(** A declaration the lockfile satisfies leaves everything as it is. *)
Lemma resolveOne_satisfied (st : LoopState) (d : string) :
  satisfiedBy (lock st) d -> resolveOne st d = Ok st.
Proof.
  intros (spec & locked & Hparse & Hget & Hreq).
  unfold resolveOne. rewrite Hparse, Hget.
  fold (requestedConstraint spec). rewrite Hreq.
  now rewrite String.eqb_refl.
Qed.

Lemma resolveLoop_satisfied (decls : list string) (st : LoopState) :
  Forall (satisfiedBy (lock st)) decls -> resolveLoop st decls = Ok st.
Proof.
  induction decls as [|d decls IH]; intros H; [reflexivity|].
  inversion H as [|? ? Hd Hrest]; subst. cbn [resolveLoop].
  rewrite (resolveOne_satisfied _ _ Hd). now apply IH.
Qed.

(** One declaration: afterwards the lockfile satisfies it, and still
    satisfies every declaration it satisfied before that agrees with it;
    the [updated] flag is only ever raised, and the state is untouched
    when the flag stays down. *)
Lemma resolveOne_post (st st' : LoopState) (d : string) :
  resolveOne st d = Ok st' ->
  satisfiedBy (lock st') d
  /\ (forall d', agree d d' -> satisfiedBy (lock st) d' ->
                 satisfiedBy (lock st') d')
  /\ (updated st = true -> updated st' = true)
  /\ (updated st' = false -> st' = st).
Proof.
  unfold resolveOne.
  destruct (ParsePluginDeclaration d) as [spec|e] eqn:Hparse; [|discriminate].
  fold (requestedConstraint spec).
  destruct (GetPlugin (lock st) (Name spec)) as [locked|] eqn:Hget.
  - destruct (String.eqb_spec (Requested locked) (requestedConstraint spec))
      as [Heq|Hne].
    + intros [= <-]. split; [|split; [|split]]; auto.
      exists spec, locked. auto.
    + unfold AddPlugin. cbn [LockDigest String.eqb Ascii.eqb Bool.eqb].
      intros [= <-]. cbn [lock updated].
      split; [|split; [|split]]; try discriminate; auto.
      * exists spec. eexists. split; [exact Hparse|].
        unfold GetPlugin. cbn [Plugins]. rewrite lookup_insert_eq.
        split; reflexivity.
      * intros d' Hag (spec' & locked' & Hparse' & Hget' & Hreq').
        exists spec'. unfold GetPlugin in *. cbn [Plugins].
        destruct (Plugins (lock st)) as [m|]; [|discriminate].
        destruct (String.eqb_spec (Name spec) (Name spec')) as [Hn|Hn].
        -- eexists. rewrite <- Hn, lookup_insert_eq.
           repeat split; [exact Hparse'|]. cbn [Requested].
           now apply Hag.
        -- exists locked'. rewrite lookup_insert_ne by exact Hn. auto.
  - unfold AddPlugin. cbn [LockDigest String.eqb Ascii.eqb Bool.eqb].
    intros [= <-]. cbn [lock updated].
    split; [|split; [|split]]; try discriminate; auto.
    + exists spec. eexists. split; [exact Hparse|].
      unfold GetPlugin. cbn [Plugins]. rewrite lookup_insert_eq.
      split; reflexivity.
    + intros d' Hag (spec' & locked' & Hparse' & Hget' & Hreq').
      exists spec'. unfold GetPlugin in *. cbn [Plugins].
      destruct (Plugins (lock st)) as [m|]; [|discriminate].
      destruct (String.eqb_spec (Name spec) (Name spec')) as [Hn|Hn].
      * rewrite Hn in Hget. congruence.
      * exists locked'. rewrite lookup_insert_ne by exact Hn. auto.
Qed.

Lemma resolveLoop_post (decls : list string) :
  forall (pre : list string) (st st' : LoopState),
    consistent (pre ++ decls) ->
    Forall (satisfiedBy (lock st)) pre ->
    resolveLoop st decls = Ok st' ->
    Forall (satisfiedBy (lock st')) (pre ++ decls)
    /\ (updated st = true -> updated st' = true)
    /\ (updated st' = false -> st' = st).
Proof.
  induction decls as [|d decls IH]; intros pre st st' Hcons Hpre Hloop.
  - injection Hloop as <-. rewrite app_nil_r. auto.
  - cbn [resolveLoop] in Hloop.
    destruct (resolveOne st d) as [st1|e] eqn:Hone; [|discriminate].
    destruct (resolveOne_post _ _ _ Hone) as (Hd & Hkeep & Hup & Hsame).
    assert (Hcons' : consistent ((pre ++ [d]) ++ decls))
      by now rewrite <- app_assoc.
    assert (Hpre' : Forall (satisfiedBy (lock st1)) (pre ++ [d])).
    { apply List.Forall_app. split; [|now constructor].
      rewrite List.Forall_forall in *. intros d' Hin.
      apply Hkeep; [|now apply Hpre].
      apply Hcons; apply in_or_app; [right; now left|left; exact Hin]. }
    destruct (IH (pre ++ [d])%list st1 st' Hcons' Hpre' Hloop)
      as (Hall & Hup' & Hsame').
    rewrite <- app_assoc in Hall. split; [exact Hall|]. split; [auto|].
    intros Hf. pose proof (Hsame' Hf) as Heq. subst st'. now apply Hsame.
Qed.

Lemma ResolvePlugins_rerun (r r1 : Repo) (now now1 : Time)
  (decls : list string) (lock1 : Lockfile) :
  consistent decls ->
  ResolvePlugins r now decls = (Ok lock1, r1, now1) ->
  forall now2,
  exists lock2 now3,
    ResolvePlugins r1 now2 decls = (Ok lock2, r1, now3)
    /\ Plugins lock2 = Plugins lock1.
Proof.
  intros Hcons Hrun now2. unfold ResolvePlugins, Load in Hrun.
  destruct (loadFails r) eqn:Hlf; [discriminate|].
  set (start := match stored r with
                | Some l => (l, now)
                | None => (NewLockfile now, now + 1)
                end) in Hrun.
  destruct start as [lock0 now0] eqn:Hstart.
  destruct (resolveLoop (mkLoopState lock0 false now0) decls)
    as [st|e] eqn:Hloop; [|discriminate].
  destruct (resolveLoop_post decls [] _ _ Hcons (List.Forall_nil _) Hloop)
    as (Hall & _ & Hsame).
  cbn [app] in Hall.
  destruct (updated st) eqn:Hup.
  - (* the first run saved *)
    unfold Save in Hrun. destruct (saveFails r) eqn:Hsf; [discriminate|].
    injection Hrun as <- <- <-.
    unfold ResolvePlugins, Load. cbn [loadFails stored].
    rewrite Hlf.
    rewrite resolveLoop_satisfied.
    + cbn [updated lock]. eexists _, _. split; reflexivity.
    + cbn [lock]. eapply List.Forall_impl; [|exact Hall].
      intros d. now apply satisfiedBy_Plugins.
  - (* nothing to update: the lockfile is the one loaded *)
    injection Hrun as <- <- <-.
    specialize (Hsame eq_refl). subst st. cbn [lock clock] in *.
    unfold ResolvePlugins, Load. rewrite Hlf.
    subst start. destruct (stored r) as [l|].
    + injection Hstart as <- <-.
      rewrite resolveLoop_satisfied by exact Hall.
      cbn [updated lock]. eexists _, _. split; reflexivity.
    + injection Hstart as <- <-.
      rewrite resolveLoop_satisfied.
      * cbn [updated lock]. eexists _, _. split; reflexivity.
      * cbn [lock]. eapply List.Forall_impl; [|exact Hall].
        intros d. now apply satisfiedBy_Plugins.
Qed.

(** C7 (as amended): a declaration whose name the lockfile holds with the
    requested constraint leaves the lockfile as it is; and for a
    declaration list that does not ask different constraints of one name,
    after a run of [ResolvePlugins] that succeeded, a second run on the
    same declarations and the repository as the first run left it
    succeeds, makes no [Save] call and yields the same plugin entries.
    Starting with no lockfile, [["file@1.2.0"]] gives one entry with
    [requested = 1.2.0] and one [Save]; the re-run adds no [Save]. *)
Theorem ResolvePlugins_idempotent :
  (forall st d, satisfiedBy (plugin.lock st) d -> plugin.resolveOne st d = Ok st)
  /\ (forall r r1 now now1 decls lock1,
        consistent decls ->
        plugin.ResolvePlugins r now decls = (Ok lock1, r1, now1) ->
        forall now2,
        exists lock2 now3,
          plugin.ResolvePlugins r1 now2 decls = (Ok lock2, r1, now3)
          /\ entities.Plugins lock2 = entities.Plugins lock1)
  /\ (let r0 := plugin.mkRepo None false false [] in
      exists lock1 r1 now1 locked,
        plugin.ResolvePlugins r0 0 ["file@1.2.0"] = (Ok lock1, r1, now1)
        /\ entities.PluginCount lock1 = 1%nat
        /\ entities.GetPlugin lock1 "file" = Some locked
        /\ entities.Requested locked = "1.2.0"
        /\ length (plugin.saveCalls r1) = 1%nat
        /\ plugin.ResolvePlugins r1 now1 ["file@1.2.0"] = (Ok lock1, r1, now1)).
Proof.
  split; [exact resolveOne_satisfied|]. split.
  - intros r r1 now now1 decls lock1 Hcons Hrun now2.
    exact (ResolvePlugins_rerun r r1 now now1 decls lock1 Hcons Hrun now2).
  - cbv zeta. eexists _, _, _, _.
    split; [vm_compute; reflexivity|].
    split; [vm_compute; reflexivity|].
    split; [vm_compute; reflexivity|].
    split; [reflexivity|].
    split; [reflexivity|].
    vm_compute. reflexivity.
Qed.

End LockfileFacts.

Section LockfileScenarios.

Import entities plugin.
Local Open Scope Z_scope.

(** C7 as stated fails: a declaration list that asks two constraints of
    one name is resolved afresh on every run, so the re-run saves again. *)
Lemma ResolvePlugins_idempotent_counterexample :
  let decls := ["file@1.0"; "file@2.0"] in
  let run1 := plugin.ResolvePlugins (mkRepo None false false []) 0 decls in
  let run2 := plugin.ResolvePlugins (snd (fst run1)) (snd run1) decls in
  is_ok (fst (fst run1)) = true
  /\ length (saveCalls (snd (fst run1))) = 1%nat
  /\ is_ok (fst (fst run2)) = true
  /\ length (saveCalls (snd (fst run2))) = 2%nat.
Proof. cbv zeta. repeat split; vm_compute; reflexivity. Qed.

Lemma ResolvePlugins_idempotent_witness :
  consistent ["file@1.2.0"]
  /\ exists lock1 r1 now1,
       plugin.ResolvePlugins (mkRepo None false false []) 0 ["file@1.2.0"]
       = (Ok lock1, r1, now1)
       /\ exists lock2 now3,
            plugin.ResolvePlugins r1 100 ["file@1.2.0"] = (Ok lock2, r1, now3)
            /\ Plugins lock2 = Plugins lock1.
Proof.
  assert (Hc : consistent ["file@1.2.0"]).
  { intros d1 d2 [<-|[]] [<-|[]] s1 s2 H1 H2 _. congruence. }
  split; [exact Hc|].
  destruct ResolvePlugins_idempotent as (_ & Hrerun & Hscenario).
  cbv zeta in Hscenario.
  destruct Hscenario as (lock1 & r1 & now1 & locked & Hrun & _).
  exists lock1, r1, now1. split; [exact Hrun|].
  exact (Hrerun _ _ _ _ _ _ Hc Hrun 100).
Defined.

End LockfileScenarios.

(** ** Capability middleware (C4) *)

Section Middleware.

Import hostfunc hostlib.

Variable c : CapabilityChecker.
Context {ext : Externals}.
Variable next : Context -> string -> string * option string.

Lemma existsb_check_app (xs ys : list Event) :
  existsb isCapabilityCheck (xs ++ ys)
  = existsb isCapabilityCheck xs || existsb isCapabilityCheck ys.
Proof. apply existsb_app. Qed.

(** The checker's methods end in a decision of the policy or in
    [handleDeny]; none of them reaches the inner handler. *)
Ltac by_checker_cases :=
  unfold CheckNetwork, CheckNetworkConnection, CheckExec, handleDeny;
  repeat match goal with
         | |- context [grantsOf ?c ?p] => destruct (grantsOf c p)
         | |- context [if ?b then _ else _] => destruct b
         end;
  reflexivity.

Lemma CheckNetwork_events (p : string) (req : NetworkRequest) :
  nextInvoked (snd (CheckNetwork c p req)) = false.
Proof. by_checker_cases. Qed.

Lemma CheckNetworkConnection_events (p host : string) (port : Z) :
  nextInvoked (snd (CheckNetworkConnection c p host port)) = false.
Proof. by_checker_cases. Qed.

Lemma CheckExec_events (p : string) (req : ExecCapabilityRequest) :
  nextInvoked (snd (CheckExec c p req)) = false.
Proof. by_checker_cases. Qed.

Lemma checkHTTPCapability_events (p rawURL : string) :
  nextInvoked (snd (checkHTTPCapability c p rawURL)) = false.
Proof.
  unfold checkHTTPCapability.
  destruct (urlParse rawURL); [apply CheckNetworkConnection_events|reflexivity].
Qed.

(** After a check: denied, or passed on. *)
Ltac dispatch_end :=
  match goal with
  | He : nextInvoked (snd _) = false, Hde : _, Hal : _ |- _ =>
      cbn [snd] in He; solve [now apply Hde | now apply Hal]
  end.

Lemma CapabilityMiddleware_ending (ctx : Context) (payload : string) :
  Ending c next ctx payload (CapabilityMiddleware c next ctx payload).
Proof.
  unfold CapabilityMiddleware.
  destruct (CapabilityPluginNameFromContext ctx) as [p|] eqn:Hp;
    [|now apply EndUnnamed].
  fold (dispatchName ctx).
  pose proof (EndUnparsed c next ctx payload p Hp) as Hun.
  pose proof (fun evs => EndAllowed c next ctx payload p evs Hp) as Hal.
  pose proof (fun msg evs => EndDenied c next ctx payload p msg evs Hp) as Hde.
  unfold payloadParses in Hun, Hal, Hde. unfold callNext, deny. cbn [app].
  destruct (String.eqb (dispatchName ctx) "dns_lookup").
  { destruct (unmarshalDNS payload) as [r|]; [|now apply Hun].
    pose proof (CheckNetwork_events p (mkNetworkRequest (Hostname r) 53)) as He.
    destruct (CheckNetwork c p _) as [[err|] evs]; dispatch_end. }
  destruct (String.eqb (dispatchName ctx) "tcp_connect").
  { destruct (unmarshalTCP payload) as [r|]; [|now apply Hun].
    pose proof (CheckNetwork_events p
                  (mkNetworkRequest (TCPHost r) (atoiOrZero (TCPPort r)))) as He.
    destruct (CheckNetwork c p _) as [[err|] evs]; dispatch_end. }
  destruct (String.eqb (dispatchName ctx) "smtp_connect").
  { destruct (unmarshalSMTP payload) as [r|]; [|now apply Hun].
    pose proof (CheckNetwork_events p
                  (mkNetworkRequest (SMTPHost r) (atoiOrZero (SMTPPort r))))
      as He.
    destruct (CheckNetwork c p _) as [[err|] evs]; dispatch_end. }
  destruct (String.eqb (dispatchName ctx) "http_request").
  { destruct (unmarshalHTTP payload) as [r|]; [|now apply Hun].
    pose proof (checkHTTPCapability_events p (URL r)) as He.
    destruct (checkHTTPCapability c p _) as [[err|] evs]; dispatch_end. }
  destruct (String.eqb (dispatchName ctx) "exec_command").
  { destruct (unmarshalExec payload) as [r|]; [|now apply Hun].
    pose proof (CheckExec_events p (mkExecCapabilityRequest (ExecCommand r)))
      as He.
    destruct (IsDangerousExecution (ExecCommand r) (Args r));
      destruct (CheckExec c p _) as [[err|] evs]; dispatch_end. }
  now apply Hun.
Qed.

(** C4: when the context carries no plugin name the call goes to the inner
    handler unchanged and the checker is not touched; when the name is
    there but the payload does not unmarshal as the request type of the
    function name (or the name is none the middleware knows), the call
    goes to the inner handler with only the private-network flag derived
    and stored in the context, and no capability check is made; a
    capability check in the trace, or an answer that bypasses the inner
    handler (then a validation-error payload), implies a plugin name and a
    payload that parses. *)
Theorem CapabilityMiddleware_checks_when_named_and_parsed
  (ctx : hostlib.Context) (payload : string) :
  let out := hostlib.CapabilityMiddleware c next ctx payload in
  (hostlib.CapabilityPluginNameFromContext ctx = None ->
   out = (next ctx payload, [hostlib.EvNext ctx payload]))
  /\ (forall p,
        hostlib.CapabilityPluginNameFromContext ctx = Some p ->
        hostlib.payloadParses (dispatchName ctx) payload = false ->
        let ctx' :=
          hostlib.withSSRFAllowPrivate ctx (hostlib.AllowsPrivateNetwork c p) in
        out = (next ctx' payload,
               [hostlib.EvAllowsPrivateNetwork p; hostlib.EvNext ctx' payload]))
  /\ (existsb hostlib.isCapabilityCheck (snd out) = true ->
      exists p,
        hostlib.CapabilityPluginNameFromContext ctx = Some p
        /\ hostlib.payloadParses (dispatchName ctx) payload = true)
  /\ (nextInvoked (snd out) = false ->
      exists p msg,
        hostlib.CapabilityPluginNameFromContext ctx = Some p
        /\ hostlib.payloadParses (dispatchName ctx) payload = true
        /\ fst out = (hostlib.validationErrorJSON msg, None)).
Proof.
  intros out. pose proof (CapabilityMiddleware_ending ctx payload) as H.
  fold out in H. clearbody out.
  destruct H as [Hp|p Hp Hparse|p evs Hp Hparse|p msg evs Hp Hparse Hnext].
  - split; [reflexivity|]. split; [intros p Hp'; congruence|].
    split; discriminate.
  - split; [congruence|]. split.
    + intros p' Hp' _. assert (p' = p) as -> by congruence. reflexivity.
    + split; discriminate.
  - split; [congruence|]. split; [intros p' _ Hf; congruence|].
    split; [intros _; now exists p|].
    cbn [snd]. unfold nextInvoked. cbn [existsb orb].
    rewrite existsb_app. cbn. rewrite orb_true_r. discriminate.
  - split; [congruence|]. split; [intros p' _ Hf; congruence|].
    split; [intros _; now exists p|].
    intros _. now exists p, msg.
Qed.

End Middleware.

Section MiddlewareScenarios.

Import hostlib.

Lemma CapabilityMiddleware_checks_when_named_and_parsed_witness :
  let anonymous := mkContext (Some "dns_lookup") None None in
  let named := mkContext (Some "dns_lookup") (Some "dns") None in
  CapabilityPluginNameFromContext anonymous = None
  /\ hostlib.CapabilityMiddleware sampleChecker (ext := sampleExternals) echo
       anonymous "{hostname}"
     = (("{hostname}", None), [EvNext anonymous "{hostname}"])
  /\ payloadParses (ext := sampleExternals) (dispatchName named) "garbage"
     = false
  /\ hostlib.CapabilityMiddleware sampleChecker (ext := sampleExternals) echo
       named "garbage"
     = (("garbage", None),
        [EvAllowsPrivateNetwork "dns";
         EvNext (withSSRFAllowPrivate named false) "garbage"]).
Proof.
  intros anonymous named.
  pose proof (CapabilityMiddleware_checks_when_named_and_parsed sampleChecker
                (ext := sampleExternals) echo anonymous "{hostname}")
    as (Hanon & _).
  pose proof (CapabilityMiddleware_checks_when_named_and_parsed sampleChecker
                (ext := sampleExternals) echo named "garbage")
    as (_ & Hnamed & _).
  split; [reflexivity|]. split; [exact (Hanon eq_refl)|].
  split; [reflexivity|].
  exact (Hnamed "dns" eq_refl eq_refl).
Defined.

End MiddlewareScenarios.


(* ===================================================================== *)
(** * Part III.  Further properties of the code                          *)
(* ===================================================================== *)

(** ** More on strings *)

Section MoreStringFacts.

Lemma substring_0_length (s : string) :
  String.substring 0 (String.length s) s = s.
Proof. induction s as [|x s IH]; cbn; [reflexivity|now rewrite IH]. Qed.

Lemma from_0 (s : string) : strings.from s 0 = s.
Proof.
  unfold strings.from. rewrite Nat.sub_0_r. apply substring_0_length.
Qed.

Lemma from_cons (x : ascii) (s : string) (i : nat) :
  strings.from (String x s) (S i) = strings.from s i.
Proof. reflexivity. Qed.

Lemma upto_cons (x : ascii) (s : string) (i : nat) :
  strings.upto (String x s) (S i) = String x (strings.upto s i).
Proof. reflexivity. Qed.

Lemma upto_0 (s : string) : strings.upto s 0 = "".
Proof. destruct s; reflexivity. Qed.

(** Cutting a string at an offset loses nothing. *)
Lemma upto_from (s : string) (i : nat) :
  s = strings.upto s i +:+ strings.from s i.
Proof.
  revert i. induction s as [|x s IH]; intros [|i]; try reflexivity.
  - rewrite upto_0, from_0. reflexivity.
  - rewrite upto_cons, from_cons, append_cons, <- IH. reflexivity.
Qed.

Lemma Contains_byte_upto (c : ascii) (s : string) (i : nat) :
  strings.Contains s (String c "") = false ->
  strings.Contains (strings.upto s i) (String c "") = false.
Proof.
  revert i. induction s as [|x s IH]; intros [|i] H; try reflexivity.
  rewrite Contains_byte_cons in H. apply orb_false_iff in H as [Hx Hs].
  rewrite upto_cons, Contains_byte_cons, Hx. cbn. now apply IH.
Qed.

Lemma Contains_byte_from (c : ascii) (s : string) (i : nat) :
  strings.Contains s (String c "") = false ->
  strings.Contains (strings.from s i) (String c "") = false.
Proof.
  revert i. induction s as [|x s IH]; intros [|i] H; try reflexivity.
  - now rewrite from_0.
  - rewrite Contains_byte_cons in H. apply orb_false_iff in H as [Hx Hs].
    rewrite from_cons. now apply IH.
Qed.

(** The first occurrence of a byte: nothing before it holds the byte, and
    the byte stands at the offset. *)
Lemma Index_byte_Some (c : ascii) (s : string) (i : nat) :
  strings.Index s (String c "") = Some i ->
  strings.Contains (strings.upto s i) (String c "") = false
  /\ strings.from s i = String c (strings.from s (i + 1)).
Proof.
  revert i. induction s as [|x s IH]; intros i H; [discriminate|].
  cbn [strings.Index strings.HasPrefix] in H. rewrite HasPrefix_empty in H.
  destruct (Ascii.eqb_spec c x) as [->|Hne].
  - injection H as <-. rewrite upto_0, from_0. split; [reflexivity|].
    cbn [Nat.add]. rewrite from_cons, from_0. reflexivity.
  - destruct (strings.Index s (String c "")) as [j|] eqn:Hj; [|discriminate].
    injection H as <-. destruct (IH j eq_refl) as [Hup Hfrom].
    rewrite upto_cons, Contains_byte_cons. cbn [Nat.add]. rewrite !from_cons.
    split; [|exact Hfrom].
    rewrite Hup. destruct (Ascii.eqb_spec c x); [contradiction|reflexivity].
Qed.

Lemma Index_byte_None (c : ascii) (s : string) :
  strings.Index s (String c "") = None <->
  strings.Contains s (String c "") = false.
Proof.
  unfold strings.Contains.
  destruct (strings.Index s (String c "")); split; congruence.
Qed.

Lemma Index_byte_app (c : ascii) (a b : string) :
  strings.Contains a (String c "") = false ->
  strings.Index (a +:+ String c b) (String c "") = Some (String.length a).
Proof.
  induction a as [|x a IH]; intros H.
  - rewrite append_nil. cbn. now rewrite Ascii.eqb_refl, HasPrefix_empty.
  - rewrite Contains_byte_cons in H. apply orb_false_iff in H as [Hx Ha].
    rewrite append_cons. cbn [strings.Index strings.HasPrefix].
    rewrite Hx, (IH Ha). reflexivity.
Qed.

Lemma upto_app (a b : string) : strings.upto (a +:+ b) (String.length a) = a.
Proof.
  induction a as [|x a IH]; [apply upto_0|].
  rewrite append_cons. cbn [String.length]. now rewrite upto_cons, IH.
Qed.

Lemma from_app (a b : string) : strings.from (a +:+ b) (String.length a) = b.
Proof.
  induction a as [|x a IH]; [apply from_0|].
  rewrite append_cons. cbn [String.length]. now rewrite from_cons, IH.
Qed.

Lemma from_app_byte (c : ascii) (a b : string) :
  strings.from (a +:+ String c b) (String.length a + 1) = b.
Proof.
  induction a as [|x a IH].
  - rewrite append_nil. cbn [String.length Nat.add].
    now rewrite from_cons, from_0.
  - rewrite append_cons. cbn [String.length Nat.add]. now rewrite from_cons.
Qed.

(** [SplitN2] at a one-byte separator, both ways. *)
Lemma SplitN2_byte_app (c : ascii) (a b : string) :
  strings.Contains a (String c "") = false ->
  strings.SplitN2 (a +:+ String c b) (String c "") = [a; b].
Proof.
  intros H. unfold strings.SplitN2. rewrite (Index_byte_app c a b H).
  rewrite upto_app. cbn [String.length]. now rewrite from_app_byte.
Qed.

Lemma SplitN2_byte_two (c : ascii) (s a b : string) :
  strings.SplitN2 s (String c "") = [a; b] ->
  s = a +:+ String c b /\ strings.Contains a (String c "") = false.
Proof.
  unfold strings.SplitN2.
  destruct (strings.Index s (String c "")) as [i|] eqn:Hi; [|discriminate].
  intros H. injection H as <- <-.
  destruct (Index_byte_Some c s i Hi) as [Hup Hfrom]. split; [|exact Hup].
  cbn [String.length]. rewrite <- Hfrom. apply upto_from.
Qed.

End MoreStringFacts.

(** ** Digests and plugin references, parsed and printed *)

Section DigestFacts.

Import values.

Lemma ParseDigest_inv (s : string) (d : Digest) :
  ParseDigest s = Ok d ->
  (algorithm d = "sha256" \/ algorithm d = "sha512") /\ s = DigestString d.
Proof.
  unfold ParseDigest.
  destruct (strings.SplitN2 s ":") as [|a [|v [|]]] eqn:Hsplit;
    try discriminate.
  apply SplitN2_byte_two in Hsplit as [-> _].
  unfold NewDigest.
  destruct (String.eqb_spec a "sha256") as [->|_]; cbn [orb].
  - intros H. injection H as <-. split; [now left|reflexivity].
  - destruct (String.eqb_spec a "sha512") as [->|_]; [|discriminate].
    intros H. injection H as <-. split; [now right|reflexivity].
Qed.

Lemma ParseDigest_DigestString (d : Digest) :
  algorithm d = "sha256" \/ algorithm d = "sha512" ->
  ParseDigest (DigestString d) = Ok d.
Proof.
  destruct d as [alg v]. unfold ParseDigest, DigestString.
  cbn [algorithm value]. intros [-> | ->].
  - change ("sha256" +:+ ":" +:+ v) with ("sha256" +:+ String ":" v).
    now rewrite SplitN2_byte_app.
  - change ("sha512" +:+ ":" +:+ v) with ("sha512" +:+ String ":" v).
    now rewrite SplitN2_byte_app.
Qed.

(** X1: [ParseDigest] accepts exactly the strings that [String] prints
    for a digest with a supported algorithm, and returns that digest:
    [ParseDigest s] is [d] if and only if the algorithm of [d] is
    ["sha256"] or ["sha512"] and [s] is [d.String()].  The value may be
    anything, also empty or holding further colons; the zero digest,
    which prints as [":"], does not parse. *)
Theorem ParseDigest_DigestString_iff (s : string) (d : values.Digest) :
  values.ParseDigest s = Ok d
  <-> (values.algorithm d = "sha256" \/ values.algorithm d = "sha512")
      /\ s = values.DigestString d.
Proof.
  split; [apply ParseDigest_inv|].
  intros [Halg ->]. now apply ParseDigest_DigestString.
Qed.

End DigestFacts.

Section MorePluginReference.

Import values.

Lemma SplitByte_elems (sep : ascii) (s : string) :
  Forall (fun e => strings.Contains e (String sep "") = false)
    (strings.SplitByte sep s).
Proof.
  induction s as [|x s IH]; cbn [strings.SplitByte].
  - constructor; [reflexivity|constructor].
  - destruct (Ascii.eqb_spec x sep) as [->|Hne].
    + constructor; [reflexivity|exact IH].
    + destruct (strings.SplitByte sep s) as [|h r];
        [constructor; [|constructor]|].
      * rewrite Contains_byte_cons. cbn.
        destruct (Ascii.eqb_spec sep x); [now subst|reflexivity].
      * inversion IH as [|? ? Hh Hr]; subst. constructor; [|exact Hr].
        rewrite Contains_byte_cons, Hh.
        destruct (Ascii.eqb_spec sep x); [now subst|reflexivity].
Qed.

Lemma SplitByte_no_byte (c sep : ascii) (s : string) :
  strings.Contains s (String c "") = false ->
  Forall (fun e => strings.Contains e (String c "") = false)
    (strings.SplitByte sep s).
Proof.
  induction s as [|x s IH]; intros H; cbn [strings.SplitByte].
  - constructor; [reflexivity|constructor].
  - rewrite Contains_byte_cons in H. apply orb_false_iff in H as [Hx Hs].
    specialize (IH Hs).
    destruct (Ascii.eqb x sep).
    + constructor; [reflexivity|exact IH].
    + destruct (strings.SplitByte sep s) as [|h r];
        [constructor; [|constructor]|].
      * now rewrite Contains_byte_cons, Hx.
      * inversion IH as [|? ? Hh Hr]; subst. constructor; [|exact Hr].
        now rewrite Contains_byte_cons, Hx, Hh.
Qed.

Lemma Forall_nth_default {A : Type} (P : A -> Prop) (l : list A) (d : A)
  (i : nat) :
  Forall P l -> P d -> P (nth i l d).
Proof.
  intros Hl Hd. revert i. induction Hl as [|x l Hx _ IH]; intros [|i]; cbn;
    auto.
Qed.

Lemma Forall_last_default {A : Type} (P : A -> Prop) (l : list A) (d : A) :
  Forall P l -> P d -> P (List.last l d).
Proof.
  intros Hl Hd. induction Hl as [|x l Hx Hl IH]; [exact Hd|].
  cbn [List.last]. destruct l; [exact Hx|exact IH].
Qed.

(** The components of a parsed reference. *)
Lemma ParsePluginReference_components (s : string) (r : PluginReference) :
  ParsePluginReference s = Ok r ->
  strings.Contains (registry r) "/" = false
  /\ strings.Contains (org r) "/" = false
  /\ strings.Contains (repo r) "/" = false
  /\ strings.Contains (name r) "/" = false
  /\ strings.Contains (version r) "/" = false
  /\ strings.Contains (name r) ":" = false
  /\ strings.Contains (version r) ":" = false.
Proof.
  unfold ParsePluginReference.
  destruct (strings.Contains s "/") eqn:Hslash;
    destruct (strings.Contains s ":") eqn:Hcolon; cbn [negb andb];
    try (destruct (length (strings.SplitByte "/" s) <? 4)%nat;
         [discriminate|]);
    try (intros H; injection H as <-; cbn; now rewrite ?Hslash, ?Hcolon).
  all: pose proof (SplitByte_elems "/" s) as Hparts.
  all: assert (Hlast : strings.Contains
                         (lastPart (strings.SplitByte "/" s)) "/" = false)
         by (apply (Forall_last_default
                      (fun e => strings.Contains e "/" = false));
             [exact Hparts|reflexivity]).
  all: pose proof (SplitByte_elems ":" (lastPart (strings.SplitByte "/" s)))
         as Hnv.
  all: pose proof (SplitByte_no_byte "/" ":" _ Hlast) as Hnv'.
  all: destruct (strings.SplitByte ":" (lastPart (strings.SplitByte "/" s)))
         as [|n [|v [|]]]; try discriminate.
  all: intros H; injection H as <-; cbn [registry org repo name version].
  all: inversion Hnv as [|? ? Hn Hnv1]; subst.
  all: inversion Hnv1 as [|? ? Hv _]; subst.
  all: inversion Hnv' as [|? ? Hn' Hnv1']; subst.
  all: inversion Hnv1' as [|? ? Hv' _]; subst.
  all: repeat apply conj; try assumption.
  all: apply (Forall_nth_default (fun e => strings.Contains e "/" = false));
         [exact Hparts|reflexivity].
Qed.

(** X2: a reference that [ParsePluginReference] returns holds no ["/"] in
    any component and no [":"] in its name and version, and printing it
    gives a string that parses again: to the reference itself when it has
    a registry, and to the bare name otherwise.  (Segments between the
    third and the last one of the input are dropped by the parser, so the
    printed form need not be the input.) *)
Theorem ParsePluginReference_print_stable (s : string)
  (r : values.PluginReference) :
  values.ParsePluginReference s = Ok r ->
  (strings.Contains (values.registry r) "/" = false
   /\ strings.Contains (values.org r) "/" = false
   /\ strings.Contains (values.repo r) "/" = false
   /\ strings.Contains (values.name r) "/" = false
   /\ strings.Contains (values.version r) "/" = false
   /\ strings.Contains (values.name r) ":" = false
   /\ strings.Contains (values.version r) ":" = false)
  /\ values.ParsePluginReference (values.String_ r)
     = Ok (if values.IsEmbedded r
           then values.mkPluginReference "" "" "" (values.name r) ""
           else r).
Proof.
  intros Hparse.
  pose proof (ParsePluginReference_components s r Hparse) as Hc.
  split; [exact Hc|].
  destruct Hc as (H1 & H2 & H3 & H4 & H5 & H6 & H7).
  destruct (IsEmbedded r) eqn:Hemb.
  - unfold String_. rewrite Hemb. unfold ParsePluginReference.
    now rewrite H4, H6.
  - assert (Hreg : registry r <> "").
    { unfold IsEmbedded in Hemb. now destruct (String.eqb_spec (registry r) ""). }
    rewrite (String_full r Hreg). destruct r as [reg o rp n v].
    cbn [registry org repo name version] in *.
    now apply ParsePluginReference_full.
Qed.

Lemma ParsePluginReference_print_stable_witness :
  values.ParsePluginReference "ghcr.io/a/b/c/d:1"
  = Ok (values.mkPluginReference "ghcr.io" "a" "b" "d" "1")
  /\ values.ParsePluginReference "ghcr.io/a/b/d:1"
     = Ok (values.mkPluginReference "ghcr.io" "a" "b" "d" "1").
Proof.
  assert (H : values.ParsePluginReference "ghcr.io/a/b/c/d:1"
              = Ok (values.mkPluginReference "ghcr.io" "a" "b" "d" "1"))
    by reflexivity.
  split; [exact H|].
  exact (proj2 (ParsePluginReference_print_stable _ _ H)).
Defined.

End MorePluginReference.

(** ** Lockfile entries and validity *)

Section MoreLockfileFacts.

Import entities.
Local Open Scope Z_scope.

Lemma find_digest_None {A : Type} (f : A -> string) (m : gmap string A) :
  List.find (fun kv : string * A => String.eqb (f (snd kv)) "")
    (map_to_list m) = None
  <-> forall k v, m !! k = Some v -> f v <> "".
Proof.
  split.
  - intros H k v Hkv Hf.
    apply elem_of_map_to_list, list_elem_of_In in Hkv.
    pose proof (List.find_none _ _ H _ Hkv) as Hn. cbn in Hn.
    rewrite Hf in Hn. discriminate.
  - intros H.
    destruct (List.find _ _) as [[k v]|] eqn:Hfind; [|reflexivity].
    apply List.find_some in Hfind as [Hin Heq].
    apply list_elem_of_In, elem_of_map_to_list in Hin.
    cbn in Heq. apply String.eqb_eq in Heq. exfalso. exact (H k v Hin Heq).
Qed.

Lemma GetPlugin_lookup (l : Lockfile) (name : string) :
  GetPlugin l name
  = (match Plugins l with Some m => m | None => ∅ end) !! name.
Proof. unfold GetPlugin. destruct (Plugins l); [reflexivity|]. now rewrite lookup_empty. Qed.

Lemma GetProfile_lookup (l : Lockfile) (url : string) :
  GetProfile l url
  = (match Profiles l with Some m => m | None => ∅ end) !! url.
Proof. unfold GetProfile. destruct (Profiles l); [reflexivity|]. now rewrite lookup_empty. Qed.

(** What [Validate] checks, whatever the order of the two loops. *)
Lemma Validate_None_spec (l : entities.Lockfile) :
  entities.Validate l = None
  <-> (((0 < entities.PluginCount l)%nat \/ (0 < entities.ProfileCount l)%nat)
       -> entities.Generated l <> 0)
      /\ (forall name lock,
            entities.GetPlugin l name = Some lock ->
            entities.LockDigest lock <> "")
      /\ (forall url lock,
            entities.GetProfile l url = Some lock ->
            entities.ProfDigest lock <> "").
Proof.
  unfold Validate, IsZero.
  pose proof (find_digest_None LockDigest
                (match Plugins l with Some m => m | None => ∅ end)) as Hp.
  pose proof (find_digest_None ProfDigest
                (match Profiles l with Some m => m | None => ∅ end)) as Hq.
  assert (Hcount :
    ((0 <? PluginCount l)%nat || (0 <? ProfileCount l)%nat = true)
    <-> ((0 < PluginCount l)%nat \/ (0 < ProfileCount l)%nat)).
  { rewrite orb_true_iff, !Nat.ltb_lt. reflexivity. }
  split.
  - intros H.
    destruct ((0 <? PluginCount l)%nat || (0 <? ProfileCount l)%nat) eqn:Hc;
      cbn [andb] in H.
    + destruct (Z.eqb_spec (Generated l) 0) as [|Hg]; [discriminate|].
      destruct (List.find _ _) as [[? ?]|] eqn:H1 in H; [discriminate|].
      destruct (List.find _ _) as [[? ?]|] eqn:H2 in H; [discriminate|].
      split; [intros _; exact Hg|]. split.
      * intros name lock. rewrite GetPlugin_lookup. now apply Hp.
      * intros url lock. rewrite GetProfile_lookup. now apply Hq.
    + destruct (List.find _ _) as [[? ?]|] eqn:H1 in H; [discriminate|].
      destruct (List.find _ _) as [[? ?]|] eqn:H2 in H; [discriminate|].
      split.
      * intros Hpos. apply Hcount in Hpos. congruence.
      * split.
        -- intros name lock. rewrite GetPlugin_lookup. now apply Hp.
        -- intros url lock. rewrite GetProfile_lookup. now apply Hq.
  - intros (Hg & Hpl & Hpr).
    assert (H1 : List.find
              (fun kv : string * PluginLock => String.eqb (LockDigest (snd kv)) "")
              (map_to_list (match Plugins l with Some m => m | None => ∅ end))
            = None).
    { apply Hp. intros k v. rewrite <- GetPlugin_lookup. apply Hpl. }
    assert (H2 : List.find
              (fun kv : string * ProfileLock => String.eqb (ProfDigest (snd kv)) "")
              (map_to_list (match Profiles l with Some m => m | None => ∅ end))
            = None).
    { apply Hq. intros k v. rewrite <- GetProfile_lookup. apply Hpr. }
    rewrite H1, H2.
    destruct ((0 <? PluginCount l)%nat || (0 <? ProfileCount l)%nat) eqn:Hc;
      [|reflexivity].
    cbn [andb]. specialize (Hg (proj1 Hcount eq_refl)).
    now destruct (Z.eqb_spec (Generated l) 0).
Qed.

Lemma Validate_None_elim (l : Lockfile) :
  Validate l = None ->
  (((0 < PluginCount l)%nat \/ (0 < ProfileCount l)%nat) -> Generated l <> 0)
  /\ (forall name lock, GetPlugin l name = Some lock -> LockDigest lock <> "")
  /\ (forall url lock, GetProfile l url = Some lock -> ProfDigest lock <> "").
Proof. apply Validate_None_spec. Qed.

Lemma Validate_None_intro (l : Lockfile) :
  (((0 < PluginCount l)%nat \/ (0 < ProfileCount l)%nat) -> Generated l <> 0) ->
  (forall name lock, GetPlugin l name = Some lock -> LockDigest lock <> "") ->
  (forall url lock, GetProfile l url = Some lock -> ProfDigest lock <> "") ->
  Validate l = None.
Proof. intros H1 H2 H3. apply Validate_None_spec. auto. Qed.

(** X3: [Validate] accepts a lockfile exactly when every plugin entry
    and every profile entry has a digest and, if there is any entry, the
    [Generated] time is not the zero time.  Whether it accepts does not
    depend on the order in which the maps are ranged over. *)
Theorem Validate_None_iff (l : entities.Lockfile) :
  entities.Validate l = None
  <-> (((0 < entities.PluginCount l)%nat \/ (0 < entities.ProfileCount l)%nat)
       -> entities.Generated l <> 0)
      /\ (forall name lock,
            entities.GetPlugin l name = Some lock ->
            entities.LockDigest lock <> "")
      /\ (forall url lock,
            entities.GetProfile l url = Some lock ->
            entities.ProfDigest lock <> "").
Proof.
  split; [apply Validate_None_elim|].
  intros (H1 & H2 & H3). now apply Validate_None_intro.
Qed.

Lemma AddPlugin_Ok (l l' : Lockfile) (name : string) (lock : PluginLock) :
  AddPlugin l name lock = Ok l' ->
  LockDigest lock <> ""
  /\ (forall n, GetPlugin l' n
                = if String.eqb n name then Some lock else GetPlugin l n)
  /\ Profiles l' = Profiles l
  /\ Generated l' = Generated l
  /\ LockVersion l' = LockVersion l.
Proof.
  unfold AddPlugin.
  destruct (String.eqb_spec (LockDigest lock) "") as [|Hd]; [discriminate|].
  intros [= <-]. split; [exact Hd|]. split; [|auto].
  intros n. rewrite !GetPlugin_lookup. cbn [Plugins].
  destruct (String.eqb_spec n name) as [->|Hne].
  - now rewrite lookup_insert_eq.
  - now rewrite lookup_insert_ne by congruence.
Qed.

Lemma AddProfile_Ok (l l' : Lockfile) (url : string) (lock : ProfileLock) :
  AddProfile l url lock = Ok l' ->
  ProfDigest lock <> ""
  /\ (forall u, GetProfile l' u
                = if String.eqb u url then Some lock else GetProfile l u)
  /\ Plugins l' = Plugins l
  /\ Generated l' = Generated l
  /\ LockVersion l' = LockVersion l.
Proof.
  unfold AddProfile.
  destruct (String.eqb_spec (ProfDigest lock) "") as [|Hd]; [discriminate|].
  intros [= <-]. split; [exact Hd|]. split; [|auto].
  intros u. rewrite !GetProfile_lookup. cbn [Profiles].
  destruct (String.eqb_spec u url) as [->|Hne].
  - now rewrite lookup_insert_eq.
  - now rewrite lookup_insert_ne by congruence.
Qed.

(** X4: [AddPlugin] fails exactly for a lock without digest.  When it
    succeeds, the new entry is found under its name, every other plugin
    entry, the profiles, the [Generated] time and the version are as
    before, and a lockfile that validated and has its [Generated] time
    set still validates. *)
Theorem AddPlugin_keeps_valid (l : entities.Lockfile) (name : string)
  (lock : entities.PluginLock) :
  (is_ok (entities.AddPlugin l name lock) = false
   <-> entities.LockDigest lock = "")
  /\ forall l',
       entities.AddPlugin l name lock = Ok l' ->
       entities.GetPlugin l' name = Some lock
       /\ (forall n, n <> name ->
                     entities.GetPlugin l' n = entities.GetPlugin l n)
       /\ (forall url, entities.GetProfile l' url = entities.GetProfile l url)
       /\ entities.Generated l' = entities.Generated l
       /\ entities.LockVersion l' = entities.LockVersion l
       /\ (entities.Validate l = None -> entities.Generated l <> 0 ->
           entities.Validate l' = None).
Proof.
  split.
  - unfold AddPlugin.
    destruct (String.eqb_spec (LockDigest lock) ""); cbn; split; congruence.
  - intros l' Hadd.
    destruct (AddPlugin_Ok _ _ _ _ Hadd) as (Hd & Hget & Hprof & Hgen & Hver).
    split; [rewrite Hget; now rewrite String.eqb_refl|].
    split.
    { intros n Hn. rewrite Hget.
      now destruct (String.eqb_spec n name). }
    split; [intros url; unfold GetProfile; now rewrite Hprof|].
    split; [exact Hgen|]. split; [exact Hver|].
    intros Hvalid Hg0.
    destruct (Validate_None_elim _ Hvalid) as (_ & Hpl & Hpr).
    apply Validate_None_intro.
    + intros _. now rewrite Hgen.
    + intros n lk. rewrite Hget.
      destruct (String.eqb_spec n name); [intros [= <-]; exact Hd|apply Hpl].
    + intros url lk. unfold GetProfile. rewrite Hprof. apply Hpr.
Qed.

Lemma AddPlugin_keeps_valid_witness :
  let l := entities.NewLockfile 5 in
  let lock := entities.mkPluginLock 6 0 "latest" "latest" "file" "sha256:abc" in
  exists l',
    entities.AddPlugin l "file" lock = Ok l'
    /\ entities.Validate l = None
    /\ entities.GetPlugin l' "file" = Some lock
    /\ entities.Validate l' = None.
Proof.
  intros l lock.
  assert (Hadd : entities.AddPlugin l "file" lock
                 = Ok (entities.mkLockfile 5 (Some (<["file" := lock]> ∅))
                         None 1)) by reflexivity.
  assert (Hvalid : entities.Validate l = None) by reflexivity.
  assert (Hgen : entities.Generated l <> 0) by (cbn; lia).
  eexists. split; [exact Hadd|]. split; [exact Hvalid|].
  destruct (proj2 (AddPlugin_keeps_valid l "file" lock) _ Hadd)
    as (Hget & _ & _ & _ & _ & Hkeep).
  split; [exact Hget|exact (Hkeep Hvalid Hgen)].
Defined.

End MoreLockfileFacts.

(** ** The lockfile service beyond idempotence *)

Section MoreLockfileService.

Import entities plugin.
Local Open Scope Z_scope.

Lemma ParsePluginDeclaration_Err (d : string) (e : DeclError) :
  ParsePluginDeclaration d = Err e -> d = "".
Proof.
  unfold ParsePluginDeclaration.
  destruct (String.eqb_spec d "") as [->|_]; [reflexivity|].
  destruct (strings.Index d "@sha256:");
    match goal with
    | |- context [strings.LastIndex ?s "@"] =>
        destruct (strings.LastIndex s "@")
    end;
    match goal with
    | |- context [strings.Contains ?s "/"] =>
        destruct (strings.Contains s "/")
    end;
    try match goal with
    | |- context [strings.LastIndex ?s ":"] =>
        destruct (strings.LastIndex s ":")
    end;
    discriminate.
Qed.

Lemma resolveOne_total (st : LoopState) (d : string) :
  d <> "" -> exists st', resolveOne st d = Ok st'.
Proof.
  intros Hd. unfold resolveOne.
  destruct (ParsePluginDeclaration d) as [spec|e] eqn:Hparse.
  - match goal with
    | |- context [if ?b then Ok st else _] => destruct b
    end; [now exists st|].
    unfold AddPlugin. cbn [LockDigest String.eqb Ascii.eqb Bool.eqb].
    eexists. reflexivity.
  - now apply ParsePluginDeclaration_Err in Hparse.
Qed.

Lemma resolveLoop_total (decls : list string) (st : LoopState) :
  ~ In "" decls -> exists st', resolveLoop st decls = Ok st'.
Proof.
  revert st. induction decls as [|d decls IH]; intros st Hin.
  - now exists st.
  - cbn [resolveLoop].
    destruct (resolveOne_total st d) as [st1 ->].
    { intros ->. apply Hin. now left. }
    apply IH. intros H. apply Hin. now right.
Qed.

Lemma resolveLoop_empty_decl (decls : list string) (st : LoopState) :
  In "" decls -> is_ok (resolveLoop st decls) = false.
Proof.
  revert st. induction decls as [|d decls IH]; intros st Hin; [contradiction|].
  cbn [resolveLoop].
  destruct (resolveOne st d) as [st1|e] eqn:Hone; [|reflexivity].
  destruct Hin as [->|Hin]; [discriminate|]. now apply IH.
Qed.

Lemma resolveLoop_updated (decls : list string) :
  forall st st' : LoopState,
    resolveLoop st decls = Ok st' ->
    (updated st = true -> updated st' = true)
    /\ (updated st' = false ->
        st' = st /\ Forall (satisfiedBy (lock st)) decls).
Proof.
  induction decls as [|d decls IH]; intros st st' Hloop.
  - injection Hloop as <-. auto.
  - cbn [resolveLoop] in Hloop.
    destruct (resolveOne st d) as [st1|e] eqn:Hone; [|discriminate].
    destruct (resolveOne_post _ _ _ Hone) as (Hd & _ & Hup & Hsame).
    destruct (IH _ _ Hloop) as (Hup' & Hsame').
    split; [auto|]. intros Hf.
    destruct (Hsame' Hf) as [-> Hall].
    pose proof (Hsame Hf) as ->. split; [reflexivity|].
    constructor; assumption.
Qed.

(** One declaration: what it leaves alone and what it writes. *)
Lemma resolveOne_frame (st st' : LoopState) (d : string) :
  resolveOne st d = Ok st' ->
  Profiles (lock st') = Profiles (lock st)
  /\ LockVersion (lock st') = LockVersion (lock st)
  /\ Generated (lock st') = Generated (lock st)
  /\ clock st <= clock st'
  /\ exists spec,
       ParsePluginDeclaration d = Ok spec
       /\ (forall n, n <> Name spec ->
                     GetPlugin (lock st') n = GetPlugin (lock st) n)
       /\ (GetPlugin (lock st') (Name spec) = GetPlugin (lock st) (Name spec)
           \/ exists lk, GetPlugin (lock st') (Name spec) = Some lk
                         /\ placeholderLock lk)
       /\ exists lk, GetPlugin (lock st') (Name spec) = Some lk.
Proof.
  intros Hone. pose proof (resolveOne_post _ _ _ Hone) as (Hsat & _).
  revert Hone. unfold resolveOne.
  destruct (ParsePluginDeclaration d) as [spec|e] eqn:Hparse; [|discriminate].
  assert (Hhas : exists lk, GetPlugin (lock st') (Name spec) = Some lk).
  { destruct Hsat as (spec' & lk & Hp' & Hg & _).
    rewrite Hparse in Hp'. injection Hp' as <-. now exists lk. }
  match goal with
  | |- context [if ?b then Ok st else _] => destruct b
  end.
  - intros [= <-]. repeat (split; [reflexivity || lia|]).
    exists spec. split; [reflexivity|]. split; [auto|]. split; [now left|].
    exact Hhas.
  - destruct (AddPlugin _ _ _) as [lock'|e] eqn:Hadd; [|discriminate].
    intros [= <-]. cbn [lock clock].
    destruct (AddPlugin_Ok _ _ _ _ Hadd) as (_ & Hget & Hprof & Hgen & Hver).
    split; [exact Hprof|]. split; [exact Hver|]. split; [exact Hgen|].
    split; [lia|]. exists spec. split; [reflexivity|]. split.
    + intros n Hn. rewrite Hget. now destruct (String.eqb_spec n (Name spec)).
    + split; [|exact Hhas]. right. eexists. rewrite Hget, String.eqb_refl.
      split; [reflexivity|]. repeat split.
Qed.

Lemma resolveLoop_frame (decls : list string) :
  forall st st' : LoopState,
    resolveLoop st decls = Ok st' ->
    Profiles (lock st') = Profiles (lock st)
    /\ LockVersion (lock st') = LockVersion (lock st)
    /\ Generated (lock st') = Generated (lock st)
    /\ clock st <= clock st'
    /\ (forall n, ~ declares decls n ->
                  GetPlugin (lock st') n = GetPlugin (lock st) n)
    /\ (forall n lk,
          GetPlugin (lock st') n = Some lk ->
          GetPlugin (lock st) n = Some lk
          \/ (placeholderLock lk /\ declares decls n))
    /\ (forall n lk,
          GetPlugin (lock st) n = Some lk ->
          exists lk', GetPlugin (lock st') n = Some lk').
Proof.
  induction decls as [|d decls IH]; intros st st' Hloop.
  - injection Hloop as <-.
    repeat (split; [reflexivity || lia || eauto|]). eauto.
  - cbn [resolveLoop] in Hloop.
    destruct (resolveOne st d) as [st1|e] eqn:Hone; [|discriminate].
    destruct (resolveOne_frame _ _ _ Hone)
      as (Hp1 & Hv1 & Hg1 & Hc1 & spec & Hparse & Hother & Hnamed & Hhas).
    destruct (IH _ _ Hloop) as (Hp2 & Hv2 & Hg2 & Hc2 & Hun & Hnew & Hkeep).
    assert (Hdecl : forall n, declares decls n -> declares (d :: decls) n).
    { intros n (d' & s' & Hin & Hs & Hn). exists d', s'.
      split; [now right|auto]. }
    assert (Hd : declares (d :: decls) (Name spec)).
    { exists d, spec. split; [now left|auto]. }
    split; [congruence|]. split; [congruence|]. split; [congruence|].
    split; [lia|]. split; [|split].
    + intros n Hn. rewrite Hun by (intros H; apply Hn; now apply Hdecl).
      apply Hother. intros ->. now apply Hn.
    + intros n lk Hget.
      destruct (Hnew n lk Hget) as [Hold|[Hph Hdn]];
        [|right; split; [exact Hph|now apply Hdecl]].
      destruct (String.eqb_spec n (Name spec)) as [->|Hne].
      * destruct Hnamed as [Hsame|(lk1 & Hlk1 & Hph)].
        -- left. congruence.
        -- right. rewrite Hlk1 in Hold. injection Hold as <-. auto.
      * left. rewrite <- Hother by exact Hne. exact Hold.
    + intros n lk Hget.
      assert (H1 : exists lk1, GetPlugin (lock st1) n = Some lk1).
      { destruct (String.eqb_spec n (Name spec)) as [->|Hne]; [exact Hhas|].
        exists lk. now rewrite Hother. }
      destruct H1 as [lk1 Hlk1]. exact (Hkeep n lk1 Hlk1).
Qed.

(** The state in which [ResolvePlugins] enters the loop, and how it
    leaves it. *)
Lemma ResolvePlugins_unfold (r : Repo) (now : Time) (decls : list string) :
  loadFails r = false ->
  let now0 := match stored r with Some _ => now | None => now + 1 end in
  ResolvePlugins r now decls
  = match resolveLoop (mkLoopState (initialLock r now) false now0) decls with
    | Err e => (Err e, r, now0)
    | Ok st =>
        if updated st then
          let lock1 :=
            mkLockfile (clock st) (Plugins (lock st)) (Profiles (lock st))
              (LockVersion (lock st)) in
          match Save r lock1 with
          | (Some e, r') => (Err e, r', clock st + 1)
          | (None, r') => (Ok lock1, r', clock st + 1)
          end
        else (Ok (lock st), r, clock st)
    end.
Proof.
  intros Hload. unfold ResolvePlugins, Load, initialLock. rewrite Hload.
  destruct (stored r); reflexivity.
Qed.

Lemma Validate_NewLockfile (now : Time) : Validate (NewLockfile now) = None.
Proof.
  apply Validate_None_intro.
  - unfold PluginCount, ProfileCount. cbn [NewLockfile Plugins Profiles].
    rewrite map_size_empty. lia.
  - intros n lk. rewrite GetPlugin_lookup. cbn. now rewrite lookup_empty.
  - intros u lk. rewrite GetProfile_lookup. cbn. now rewrite lookup_empty.
Qed.

Lemma placeholderLock_digest (lk : PluginLock) :
  placeholderLock lk -> LockDigest lk <> "".
Proof. intros (H & _). rewrite H. discriminate. Qed.

(** X5: [ResolvePlugins] keeps the lockfile valid.  If the stored
    lockfile (when there is one) passes [Validate] and the clock is past
    the zero time, then the lockfile the call returns passes [Validate],
    and so does the lockfile the repository holds afterwards, whatever
    the outcome of the call. *)
Theorem ResolvePlugins_keeps_valid (r : plugin.Repo) (now : entities.Time)
  (decls : list string) :
  0 < now ->
  (forall l0, plugin.stored r = Some l0 -> entities.Validate l0 = None) ->
  let out := plugin.ResolvePlugins r now decls in
  (forall l, fst (fst out) = Ok l -> entities.Validate l = None)
  /\ (forall l1, plugin.stored (snd (fst out)) = Some l1 ->
                 entities.Validate l1 = None).
Proof.
  intros Hnow Hstored out. subst out.
  destruct (loadFails r) eqn:Hload.
  { unfold ResolvePlugins, Load. rewrite Hload. cbn [fst snd].
    split; [discriminate|exact Hstored]. }
  rewrite (ResolvePlugins_unfold r now decls Hload). cbv zeta.
  set (now0 := match stored r with Some _ => now | None => now + 1 end).
  assert (Hnow0 : now <= now0) by (subst now0; destruct (stored r); lia).
  assert (Hinit : Validate (initialLock r now) = None).
  { unfold initialLock. destruct (stored r) as [l0|] eqn:Hs;
      [now apply Hstored|apply Validate_NewLockfile]. }
  destruct (resolveLoop _ decls) as [st|e] eqn:Hloop;
    [|cbn [fst snd]; split; [discriminate|exact Hstored]].
  destruct (resolveLoop_frame _ _ _ Hloop)
    as (Hprof & Hver & Hgen & Hclock & _ & Hnew & _).
  cbn [lock clock] in Hprof, Hver, Hgen, Hclock, Hnew.
  destruct (Validate_None_elim _ Hinit) as (_ & Hpl & Hpr).
  destruct (updated st) eqn:Hup.
  - assert (Hvalid : Validate
              (mkLockfile (clock st) (Plugins (lock st)) (Profiles (lock st))
                 (LockVersion (lock st))) = None).
    { apply Validate_None_intro.
      - intros _. cbn [Generated]. lia.
      - intros n lk Hget.
        assert (Hget' : GetPlugin (lock st) n = Some lk) by exact Hget.
        destruct (Hnew n lk Hget') as [Hold|[Hph _]];
          [exact (Hpl n lk Hold)|now apply placeholderLock_digest].
      - intros u lk Hget. apply (Hpr u lk).
        unfold GetProfile in *. cbn [Profiles] in Hget. now rewrite <- Hprof. }
    unfold Save. destruct (saveFails r); cbn [fst snd stored].
    + split; [discriminate|exact Hstored].
    + split; [intros l [= <-]; exact Hvalid|intros l1 [= <-]; exact Hvalid].
  - destruct (resolveLoop_updated _ _ _ Hloop) as (_ & Hsame).
    destruct (Hsame Hup) as [-> _]. cbn [fst snd lock].
    split; [intros l [= <-]; exact Hinit|exact Hstored].
Qed.

Lemma ResolvePlugins_keeps_valid_witness :
  let r := plugin.mkRepo None false false [] in
  let out := plugin.ResolvePlugins r 5 ["file@1.2.0"; "ghcr.io/o/r/http:2"] in
  0 < 5
  /\ (exists l, fst (fst out) = Ok l /\ entities.PluginCount l = 2%nat
                /\ entities.Validate l = None)
  /\ (exists l1, plugin.stored (snd (fst out)) = Some l1
                 /\ entities.Validate l1 = None).
Proof.
  intros r out.
  assert (Hnow : 0 < 5) by lia.
  assert (Hstored : forall l0, plugin.stored r = Some l0 ->
                               entities.Validate l0 = None) by discriminate.
  destruct (ResolvePlugins_keeps_valid r 5
              ["file@1.2.0"; "ghcr.io/o/r/http:2"] Hnow Hstored) as [H1 H2].
  split; [exact Hnow|]. split.
  - eexists. split; [vm_compute; reflexivity|].
    split; [vm_compute; reflexivity|]. apply H1. vm_compute. reflexivity.
  - eexists. split; [vm_compute; reflexivity|]. apply H2.
    vm_compute. reflexivity.
Defined.

(** X6: [ResolvePlugins] never prunes and never pins.  In the lockfile
    it returns, the profiles and the version are those of the lockfile it
    started from (the stored one, or a new one); every plugin name locked
    before is still locked; the entry of a name that no declaration names
    is unchanged; and every entry that is not an unchanged old one
    belongs to a declared name and carries the digest
    ["sha256:placeholder"] with the requested constraint as its resolved
    version. *)
Theorem ResolvePlugins_frame (r r' : plugin.Repo) (now now' : entities.Time)
  (decls : list string) (l : entities.Lockfile) :
  plugin.ResolvePlugins r now decls = (Ok l, r', now') ->
  let l0 := initialLock r now in
  entities.Profiles l = entities.Profiles l0
  /\ entities.LockVersion l = entities.LockVersion l0
  /\ (forall n lk,
        entities.GetPlugin l0 n = Some lk ->
        exists lk', entities.GetPlugin l n = Some lk')
  /\ (forall n, ~ declares decls n ->
                entities.GetPlugin l n = entities.GetPlugin l0 n)
  /\ (forall n lk,
        entities.GetPlugin l n = Some lk ->
        entities.GetPlugin l0 n = Some lk
        \/ (placeholderLock lk /\ declares decls n)).
Proof.
  intros Hres l0. subst l0.
  destruct (loadFails r) eqn:Hload.
  { unfold ResolvePlugins, Load in Hres. rewrite Hload in Hres. discriminate. }
  rewrite (ResolvePlugins_unfold r now decls Hload) in Hres. cbv zeta in Hres.
  destruct (resolveLoop _ decls) as [st|e] eqn:Hloop; [|discriminate].
  destruct (resolveLoop_frame _ _ _ Hloop)
    as (Hprof & Hver & _ & _ & Hun & Hnew & Hkeep).
  cbn [lock clock] in Hprof, Hver, Hun, Hnew, Hkeep.
  assert (Hl : Plugins l = Plugins (lock st) /\ Profiles l = Profiles (lock st)
               /\ LockVersion l = LockVersion (lock st)).
  { destruct (updated st).
    - unfold Save in Hres. destruct (saveFails r); [discriminate|].
      injection Hres as <- _ _. auto.
    - injection Hres as <- _ _. auto. }
  destruct Hl as (Hpl & Hpr & Hv).
  assert (Hget : forall n, GetPlugin l n = GetPlugin (lock st) n)
    by (intros n; unfold GetPlugin; now rewrite Hpl).
  split; [congruence|]. split; [congruence|]. split; [|split].
  - intros n lk H. rewrite Hget. exact (Hkeep n lk H).
  - intros n Hn. rewrite Hget. now apply Hun.
  - intros n lk H. rewrite Hget in H. exact (Hnew n lk H).
Qed.

Lemma ResolvePlugins_frame_witness :
  let old := entities.mkPluginLock 1 0 "1.0" "1.0" "old" "sha256:abc" in
  let l0 := entities.mkLockfile 1 (Some {["old" := old]}) None 1 in
  let r := plugin.mkRepo (Some l0) false false [] in
  exists l r' now',
    plugin.ResolvePlugins r 5 ["file"] = (Ok l, r', now')
    /\ entities.GetPlugin l "old" = Some old
    /\ exists lk, entities.GetPlugin l "file" = Some lk
                  /\ entities.LockDigest lk = "sha256:placeholder".
Proof.
  intros old l0 r.
  destruct (plugin.ResolvePlugins r 5 ["file"]) as [[res r'] now'] eqn:Hres.
  assert (Hok : exists l, res = Ok l).
  { revert Hres. vm_compute. intros [= <- _ _]. eexists. reflexivity. }
  destruct Hok as [l ->].
  exists l, r', now'. split; [reflexivity|].
  destruct (ResolvePlugins_frame r r' 5 now' ["file"] l Hres)
    as (_ & _ & _ & Hun & _).
  split.
  - rewrite Hun; [reflexivity|].
    intros (d & spec & [<-|[]] & Hparse & Hname).
    vm_compute in Hparse. injection Hparse as <-. discriminate.
  - revert Hres. vm_compute. intros [= <- _ _]. eexists.
    split; reflexivity.
Defined.

(** X7: [ResolvePlugins] succeeds exactly when the lockfile loads, no
    declaration is the empty string, and - if saving fails - nothing had
    to be saved because the lockfile it started from already satisfies
    every declaration.  In particular adding an entry never fails. *)
Theorem ResolvePlugins_succeeds_iff (r : plugin.Repo) (now : entities.Time)
  (decls : list string) :
  is_ok (fst (fst (plugin.ResolvePlugins r now decls))) = true
  <-> plugin.loadFails r = false
      /\ ~ In "" decls
      /\ (plugin.saveFails r = true ->
          Forall (satisfiedBy (initialLock r now)) decls).
Proof.
  destruct (loadFails r) eqn:Hload.
  { unfold ResolvePlugins, Load. rewrite Hload. cbn. split; [discriminate|].
    intros (H & _). discriminate. }
  rewrite (ResolvePlugins_unfold r now decls Hload). cbv zeta.
  set (st0 := mkLoopState (initialLock r now) false _).
  split.
  - intros Hok. split; [reflexivity|].
    destruct (resolveLoop st0 decls) as [st|e] eqn:Hloop; [|discriminate].
    split.
    + intros Hin. pose proof (resolveLoop_empty_decl decls st0 Hin) as H.
      rewrite Hloop in H. discriminate.
    + intros Hsave.
      destruct (resolveLoop_updated _ _ _ Hloop) as (_ & Hsame).
      destruct (updated st) eqn:Hup.
      * unfold Save in Hok. rewrite Hsave in Hok. discriminate.
      * destruct (Hsame eq_refl) as [_ Hall]. exact Hall.
  - intros (_ & Hin & Hsave).
    destruct (resolveLoop_total decls st0 Hin) as [st Hloop]. rewrite Hloop.
    destruct (updated st) eqn:Hup; [|reflexivity].
    unfold Save. destruct (saveFails r) eqn:Hs; [|reflexivity].
    specialize (Hsave eq_refl).
    rewrite (resolveLoop_satisfied decls st0 Hsave) in Hloop.
    injection Hloop as <-. discriminate.
Qed.

End MoreLockfileService.

(** ** Profile locking, the YAML form, the plugin registry *)

Section ProfileLocking.

Import entities plugin.
Local Open Scope Z_scope.

(** X8: [LockProfile] succeeds exactly when the lockfile loads, the
    digest is not empty and the save succeeds.  After a success
    [GetLockedProfile] finds the profile under its URL with the version
    and digest given, every other profile is as in the lockfile the call
    started from, the stored lockfile has version 2 and the same plugin
    entries.  With an empty digest the repository is left untouched. *)
Theorem LockProfile_GetLockedProfile (r : plugin.Repo) (now : entities.Time)
  (url version digest : string) :
  let out := plugin.LockProfile r now url version digest in
  let r' := snd (fst out) in
  (fst (fst out) = None
   <-> plugin.loadFails r = false /\ digest <> ""
       /\ plugin.saveFails r = false)
  /\ (fst (fst out) = None ->
      (exists fetched,
         plugin.GetLockedProfile r' url
         = Ok (Some (entities.mkProfileLock fetched 0 url version url digest)))
      /\ (forall u, u <> url ->
            plugin.GetLockedProfile r' u
            = Ok (entities.GetProfile (initialLock r now) u))
      /\ exists l',
           plugin.stored r' = Some l'
           /\ entities.LockVersion l' = 2
           /\ entities.Plugins l' = entities.Plugins (initialLock r now))
  /\ (digest = "" -> r' = r).
Proof.
  intros out r'. subst r' out. unfold LockProfile, Load.
  destruct (loadFails r) eqn:Hload.
  { cbn [fst snd]. split; [split; [discriminate|intros (H & _); discriminate]|].
    split; [discriminate|reflexivity]. }
  set (now0 := match stored r with Some _ => now | None => now + 1 end).
  assert (Hinit :
    (let '(lock0, now1) :=
       match stored r with
       | Some l => (l, now)
       | None => (NewLockfile now, now + 1)
       end in (lock0, now1)) = (initialLock r now, now0)).
  { unfold initialLock, now0. destruct (stored r); reflexivity. }
  unfold initialLock in *.
  destruct (stored r) as [l0|] eqn:Hs.
  all: unfold AddProfile; cbn [ProfDigest].
  all: destruct (String.eqb_spec digest "") as [->|Hd]; cbn [fst snd].
  all: try (split; [split; [discriminate|intros (_ & H & _); congruence]|];
            split; [discriminate|reflexivity]).
  all: unfold Save; destruct (saveFails r) eqn:Hsave; cbn [fst snd].
  all: try (split; [split; [discriminate|intros (_ & _ & H); discriminate]|];
            split; [discriminate|intros; congruence]).
  all: split; [split; [auto|reflexivity]|].
  all: split; [|intros; congruence].
  all: intros _; unfold GetLockedProfile, Load; cbn [loadFails stored].
  all: rewrite Hload; unfold GetProfile; cbn [Profiles].
  all: split; [eexists; rewrite lookup_insert_eq; reflexivity|].
  all: split; [|eexists; split; [reflexivity|split; reflexivity]].
  all: intros u Hu; rewrite lookup_insert_ne by congruence.
  all: destruct (Profiles _); rewrite ?lookup_empty; reflexivity.
Qed.

Lemma LockProfile_GetLockedProfile_witness :
  let r := plugin.mkRepo None false false [] in
  let out := plugin.LockProfile r 5 "https://example.com/p.yaml#v1" "v1"
               "sha256:abc" in
  fst (fst out) = None
  /\ plugin.GetLockedProfile (snd (fst out)) "https://example.com/p.yaml#v1"
     = Ok (Some (entities.mkProfileLock 6 0 "https://example.com/p.yaml#v1"
                   "v1" "https://example.com/p.yaml#v1" "sha256:abc")).
Proof.
  intros r out. subst out.
  pose proof (LockProfile_GetLockedProfile r 5 "https://example.com/p.yaml#v1"
                "v1" "sha256:abc") as (Hiff & Hok & _).
  cbv zeta in Hiff, Hok.
  assert (H : fst (fst (plugin.LockProfile r 5 "https://example.com/p.yaml#v1"
                          "v1" "sha256:abc")) = None).
  { apply Hiff. repeat split; discriminate. }
  split; [exact H|].
  destruct (Hok H) as ((fetched & Hget) & _).
  rewrite Hget. vm_compute in Hget. injection Hget as <-. reflexivity.
Defined.

End ProfileLocking.

Section YamlForm.

Import entities.

(** X9: the YAML form of a lockfile keeps the [Generated] time, the
    version and every plugin entry, and drops every profile: converting a
    lockfile with [FromEntity] and back with [ToEntity] gives a lockfile
    in which [GetPlugin] answers as before and [GetProfile] finds
    nothing. *)
Theorem ToEntity_FromEntity (e : entities.Lockfile) :
  exists y,
    filesystem.FromEntity (Some e) = Some y
    /\ entities.Generated (filesystem.ToEntity y) = entities.Generated e
    /\ entities.LockVersion (filesystem.ToEntity y) = entities.LockVersion e
    /\ (forall n,
          entities.GetPlugin (filesystem.ToEntity y) n = entities.GetPlugin e n)
    /\ (forall u, entities.GetProfile (filesystem.ToEntity y) u = None)
    /\ entities.ProfileCount (filesystem.ToEntity y) = 0%nat.
Proof.
  eexists. split; [reflexivity|]. split; [reflexivity|]. split; [reflexivity|].
  split; [|split; reflexivity].
  intros n. rewrite (GetPlugin_lookup e).
  unfold GetPlugin, filesystem.ToEntity.
  cbn [Plugins filesystem.Plugins].
  rewrite !lookup_fmap.
  destruct ((match Plugins e with Some m => m | None => ∅ end) !! n)
    as [[? ? ? ? ? ?]|]; reflexivity.
Qed.

End YamlForm.

Section PluginRegistryFacts.

Import entities.

(** What [registerAll] keeps true of the stored specifications. *)
Lemma registerAll_inv (P : string -> PluginSpec -> Prop) (specs : list PluginSpec) :
  (forall spec, In spec specs -> Name spec <> "" -> Source spec <> "" ->
                P (Name spec) spec) ->
  forall pr,
    (forall k spec, entities.specs pr !! k = Some spec -> P k spec) ->
    forall k spec,
      entities.specs (registerAll specs pr) !! k = Some spec -> P k spec.
Proof.
  induction specs as [|s0 specs IH]; intros HP pr Hpr; [exact Hpr|].
  cbn [registerAll fold_left]. apply IH.
  - intros spec Hin. apply HP. now right.
  - unfold Register.
    destruct (String.eqb_spec (Name s0) ""); [exact Hpr|].
    destruct (String.eqb_spec (Source s0) ""); [exact Hpr|].
    cbn [entities.specs]. intros k spec.
    destruct (String.eqb_spec k (Name s0)) as [->|Hne].
    + rewrite lookup_insert_eq. intros [= <-]. apply HP; [now left|auto..].
    + rewrite lookup_insert_ne by congruence. apply Hpr.
Qed.

Lemma registerAll_app (xs ys : list PluginSpec) (pr : PluginRegistry) :
  registerAll (xs ++ ys) pr = registerAll ys (registerAll xs pr).
Proof. unfold registerAll. apply fold_left_app. Qed.

Lemma registerAll_has (specs : list PluginSpec) :
  forall pr k,
    (exists spec, In spec specs /\ Name spec = k /\ k <> ""
                  /\ Source spec <> "")
    \/ is_Some (entities.specs pr !! k) ->
    is_Some (entities.specs (registerAll specs pr) !! k).
Proof.
  induction specs as [|s0 specs IH]; intros pr k H.
  - destruct H as [(spec & [] & _)|H]; exact H.
  - cbn [registerAll fold_left]. apply IH.
    destruct H as [(spec & [<-|Hin] & Hn & Hk & Hs)|H].
    + right. unfold Register.
      destruct (String.eqb_spec (Name s0) ""); [congruence|].
      destruct (String.eqb_spec (Source s0) ""); [congruence|].
      cbn [entities.specs]. rewrite <- Hn, lookup_insert_eq. eauto.
    + left. exists spec. auto.
    + right. unfold Register.
      destruct (String.eqb_spec (Name s0) ""); [exact H|].
      destruct (String.eqb_spec (Source s0) ""); [exact H|].
      cbn [entities.specs].
      destruct (String.eqb_spec k (Name s0)) as [->|Hne].
      * rewrite lookup_insert_eq. eauto.
      * now rewrite lookup_insert_ne by congruence.
Qed.

(** X10: in a registry filled by [Register] calls, [Resolve] always
    returns a specification whose name is the alias asked for, with a
    source that is not empty unless the alias is; an alias is registered
    ([HasPlugin]) exactly when some accepted specification - one with
    name and source not empty - was registered under it; an alias that is
    not registered resolves to the default specification with the alias
    as its source; and the last accepted registration is the one
    resolved. *)
Theorem PluginRegistry_Resolve_named (specs : list entities.PluginSpec)
  (alias : string) :
  let pr := registerAll specs entities.NewPluginRegistry in
  entities.Name (entities.Resolve pr alias) = alias
  /\ (alias <> "" -> entities.Source (entities.Resolve pr alias) <> "")
  /\ (entities.HasPlugin pr alias = true
      <-> exists spec,
            In spec specs /\ entities.Name spec = alias /\ alias <> ""
            /\ entities.Source spec <> "")
  /\ (entities.HasPlugin pr alias = false ->
      entities.Resolve pr alias
      = entities.mkPluginSpec alias alias "" "" false)
  /\ (forall pre spec,
        specs = (pre ++ [spec])%list ->
        entities.Name spec = alias -> alias <> "" ->
        entities.Source spec <> "" ->
        entities.Resolve pr alias = spec).
Proof.
  intros pr.
  assert (Hinv : forall k spec,
            entities.specs pr !! k = Some spec ->
            In spec specs /\ Name spec = k /\ k <> "" /\ Source spec <> "").
  { subst pr.
    apply (registerAll_inv
             (fun k spec => In spec specs /\ Name spec = k /\ k <> ""
                            /\ Source spec <> "")).
    - intros spec Hin Hn Hs. auto.
    - intros k spec. cbn. now rewrite lookup_empty. }
  unfold Resolve, HasPlugin.
  destruct (entities.specs pr !! alias) as [spec|] eqn:Hlk.
  - destruct (Hinv _ _ Hlk) as (Hin & Hn & Ha & Hs).
    split; [exact Hn|]. split; [auto|]. split.
    { split; [intros _; now exists spec|reflexivity]. }
    split; [discriminate|].
    intros pre spec' -> Hn' _ Hs'. subst pr.
    rewrite registerAll_app in Hlk. cbn [registerAll fold_left] in Hlk.
    unfold Register in Hlk.
    destruct (String.eqb_spec (Name spec') ""); [congruence|].
    destruct (String.eqb_spec (Source spec') ""); [congruence|].
    cbn [entities.specs] in Hlk. rewrite Hn', lookup_insert_eq in Hlk.
    congruence.
  - split; [reflexivity|]. split; [auto|]. split.
    { split; [discriminate|]. intros Hex.
      assert (H : is_Some (entities.specs pr !! alias)).
      { subst pr. apply registerAll_has. now left. }
      rewrite Hlk in H. destruct H as [? H]. discriminate. }
    split; [reflexivity|].
    intros pre spec' -> Hn' Ha Hs'.
    assert (H : is_Some (entities.specs pr !! alias)).
    { subst pr. apply registerAll_has. left. exists spec'.
      split; [apply in_or_app; right; now left|auto]. }
    rewrite Hlk in H. destruct H as [? H]. discriminate.
Qed.

Lemma PluginRegistry_Resolve_named_witness :
  let a := entities.mkPluginSpec "file" "ghcr.io/o/r/file:1" "1" "" false in
  let b := entities.mkPluginSpec "file" "ghcr.io/o/r/file:2" "2" "" false in
  let pr := registerAll [a; b] entities.NewPluginRegistry in
  entities.Resolve pr "file" = b
  /\ entities.Resolve pr "http" = entities.mkPluginSpec "http" "http" "" "" false.
Proof.
  intros a b pr.
  destruct (PluginRegistry_Resolve_named [a; b] "file")
    as (_ & _ & _ & _ & Hlast).
  destruct (PluginRegistry_Resolve_named [a; b] "http")
    as (_ & _ & _ & Hdefault & _).
  split.
  - apply (Hlast [a] b); [reflexivity|reflexivity|discriminate|discriminate].
  - apply Hdefault. reflexivity.
Defined.

End PluginRegistryFacts.

(** ** Loading a plugin *)

Section LoadPluginFacts.

Import values entities plugin.

(** A pinned digest with a value is enforced. *)
Lemma LoadPlugin_verifyDigest_None (s : services.IntegrityService)
  (p : Plugin) (expected : values.Digest) :
  LoadPlugin_verifyDigest s p expected = None ->
  value expected <> "" ->
  entities.Digest p = expected.
Proof.
  unfold LoadPlugin_verifyDigest, services.VerifyDigest, VerifyIntegrity.
  intros H Hv.
  destruct (String.eqb_spec (value expected) ""); [contradiction|].
  cbn [negb] in H.
  destruct (DigestEquals (entities.Digest p) expected) eqn:E;
    [now apply DigestEquals_spec|discriminate].
Qed.

(** X11: when [LoadPlugin] returns a path, the name parsed as a
    reference, the resolver returned a plugin for it, the path is the one
    the repository's [Find] gave for the same reference, the signature
    was verified if the integrity service requires signing, and a pinned
    digest - any digest string other than the empty one, ["sha256:"] and
    ["sha512:"] - is the printed digest of the resolved plugin.  The
    collaborators were called in the order resolve, verify, find, each
    once; so the repository is not asked when a check fails. *)
Theorem LoadPlugin_sound (s : plugin.PluginService) (spec : dto.PluginSpecDTO)
  (path : string) (evs : list plugin.LoadEvent) :
  plugin.LoadPlugin s spec = (Ok path, evs) ->
  exists ref p found,
    values.ParsePluginReference (dto.Name spec) = Ok ref
    /\ plugin.resolver s ref = Ok p
    /\ plugin.repositoryFind s ref = Ok (found, path)
    /\ (services.requireSigning (plugin.integrityService s) = true ->
        plugin.integrityVerifier s ref = None)
    /\ (dto.Digest spec <> "" -> dto.Digest spec <> "sha256:" ->
        dto.Digest spec <> "sha512:" ->
        values.DigestString (entities.Digest p) = dto.Digest spec)
    /\ evs
       = (plugin.EvResolve ref
          :: (if services.requireSigning (plugin.integrityService s)
              then [plugin.EvVerifySignature ref] else [])
          ++ [plugin.EvFind ref])%list.
Proof.
  unfold LoadPlugin, dto.ToPluginReference, dto.ToDigest.
  destruct (ParsePluginReference (dto.Name spec)) as [ref|e] eqn:Hparse;
    [|discriminate].
  assert (Hpin : forall expected p,
    (if String.eqb (dto.Digest spec) "" then Ok (mkDigest "" "")
     else ParseDigest (dto.Digest spec)) = Ok expected ->
    LoadPlugin_verifyDigest (integrityService s) p expected = None ->
    dto.Digest spec <> "" -> dto.Digest spec <> "sha256:" ->
    dto.Digest spec <> "sha512:" ->
    DigestString (entities.Digest p) = dto.Digest spec).
  { intros expected p Hd Hv H0 H1 H2.
    destruct (String.eqb_spec (dto.Digest spec) ""); [contradiction|].
    apply ParseDigest_inv in Hd as [Halg Hs].
    rewrite Hs in *. f_equal.
    apply (LoadPlugin_verifyDigest_None _ _ _ Hv).
    destruct expected as [alg v]. cbn [algorithm value] in *.
    intros ->. destruct Halg as [-> | ->]; [now apply H1|now apply H2]. }
  destruct (if String.eqb (dto.Digest spec) "" then _ else _)
    as [expected|e] eqn:Hd; [|discriminate].
  destruct (resolver s ref) as [p|e] eqn:Hres; [|discriminate].
  destruct (LoadPlugin_verifyDigest _ p expected) eqn:Hv; [discriminate|].
  unfold services.ShouldVerifySignature.
  destruct (services.requireSigning (integrityService s)).
  - destruct (integrityVerifier s ref) eqn:Hsig; [discriminate|].
    destruct (repositoryFind s ref) as [[found wasmPath]|e] eqn:Hfind;
      [|discriminate].
    intros [= <- <-]. exists ref, p, found.
    split; [reflexivity|]. split; [exact Hres|]. split; [exact Hfind|].
    split; [intros _; exact Hsig|].
    split; [exact (Hpin expected p eq_refl Hv)|reflexivity].
  - destruct (repositoryFind s ref) as [[found wasmPath]|e] eqn:Hfind;
      [|discriminate].
    intros [= <- <-]. exists ref, p, found.
    split; [reflexivity|]. split; [exact Hres|]. split; [exact Hfind|].
    split; [discriminate|].
    split; [exact (Hpin expected p eq_refl Hv)|reflexivity].
Qed.

Lemma LoadPlugin_sound_witness :
  let ref := values.mkPluginReference "" "" "" "file" "" in
  let meta := values.mkPluginMetadata "file" "1" "" [] in
  let p := entities.NewPlugin ref (values.mkDigest "sha256" "abc") meta in
  let s :=
    plugin.mkPluginService (fun _ => Ok p) (fun _ => None)
      (fun _ => Ok (p, "/cache/file/plugin.wasm"))
      (services.NewIntegrityService true) in
  let spec := dto.mkPluginSpecDTO "file" "sha256:abc" in
  plugin.LoadPlugin s spec
  = (Ok "/cache/file/plugin.wasm",
     [plugin.EvResolve ref; plugin.EvVerifySignature ref; plugin.EvFind ref])
  /\ exists p',
       plugin.resolver s ref = Ok p'
       /\ values.DigestString (entities.Digest p') = "sha256:abc".
Proof.
  intros ref meta p s spec.
  assert (H : plugin.LoadPlugin s spec
              = (Ok "/cache/file/plugin.wasm",
                 [plugin.EvResolve ref; plugin.EvVerifySignature ref;
                  plugin.EvFind ref])) by reflexivity.
  split; [exact H|].
  destruct (LoadPlugin_sound s spec _ _ H)
    as (ref' & p' & found & Hparse & Hres & _ & _ & Hpin & _).
  exists p'. split; [exact Hres|].
  apply Hpin; discriminate.
Defined.

End LoadPluginFacts.

(** ** Retries: what is returned, and the waits *)

Section MoreRetry.

Import netutil.
Local Open Scope Z_scope.

Variable Atoi : string -> option Z.
Variable untilHTTPDate : string -> option Z.
Variable t : RetryTransport.
Variable base : nat -> Outcome.
Variable req : Request.

Lemma attempts_xor (left : nat) :
  forall (attempt : Z) lastResp lastErr,
    (left <> 0%nat \/ lastResp <> None \/ lastErr <> None) ->
    let res := fst (attempts Atoi untilHTTPDate t base req left attempt
                      lastResp lastErr) in
    (exists r, res = (Some r, None)) \/ (exists e, res = (None, Some e)).
Proof.
  induction left as [|left IH]; intros attempt lastResp lastErr H res;
    subst res.
  - cbn. destruct lastResp as [r|]; [left; now exists r|].
    destruct lastErr as [e|]; [right; now exists e|].
    destruct H as [H|[H|H]]; contradiction.
  - cbn [attempts].
    destruct (match GetBody req with
              | Some getBody => getBody attempt
              | None => None
              end) as [err|]; [right; now exists err|].
    destruct (base (Z.to_nat attempt)) as [resp|err].
    + destruct (isRetryableStatus (StatusCode resp)); cbn [negb];
        [|left; now exists resp].
      destruct ((StatusCode resp >=? 400) && (StatusCode resp <? 500)
                && negb (StatusCode resp =? 429)); [left; now exists resp|].
      destruct (attempt <? maxRetries t).
      * specialize (IH (attempt + 1) (Some resp) None).
        destruct (attempts _ _ _ _ _ left (attempt + 1) (Some resp) None).
        cbn [fst] in *. apply IH. right. left. discriminate.
      * specialize (IH (attempt + 1) (Some resp) None).
        destruct (attempts _ _ _ _ _ left (attempt + 1) (Some resp) None).
        cbn [fst] in *. apply IH. right. left. discriminate.
    + destruct (IsSSRFBlockedError err); [right; now exists err|].
      destruct (attempt <? maxRetries t); [|right; now exists err].
      specialize (IH (attempt + 1) lastResp (Some err)).
      destruct (attempts _ _ _ _ _ left (attempt + 1) lastResp (Some err)).
      cbn [fst] in *. apply IH. right. right. discriminate.
Qed.

(** X12: [RoundTrip] returns exactly one of a response and an error,
    unless [MaxRetries] is negative: then the loop body never runs and
    the call returns neither a response nor an error, without a single
    call of the underlying transport. *)
Theorem RoundTrip_response_xor_error :
  let out := netutil.RoundTrip Atoi untilHTTPDate t base req in
  (fst out = (None, None) <-> netutil.MaxRetries t < 0)
  /\ (netutil.MaxRetries t < 0 -> snd out = [])
  /\ (0 <= netutil.MaxRetries t ->
      (exists r, fst out = (Some r, None))
      \/ (exists e, fst out = (None, Some e))).
Proof.
  intros out. subst out. unfold RoundTrip.
  assert (Hneg : MaxRetries t < 0 -> Z.to_nat (maxRetries t + 1) = 0%nat).
  { intros H. unfold maxRetries.
    destruct (Z.eqb_spec (MaxRetries t) 0); lia. }
  assert (Hpos : 0 <= MaxRetries t -> Z.to_nat (maxRetries t + 1) <> 0%nat).
  { intros H. unfold maxRetries.
    destruct (Z.eqb_spec (MaxRetries t) 0); lia. }
  split; [|split].
  - split.
    + intros Hnone. destruct (Z.lt_ge_cases (MaxRetries t) 0) as [|Hge];
        [assumption|].
      destruct (attempts_xor (Z.to_nat (maxRetries t + 1)) 0 None None
                  (or_introl (Hpos Hge))) as [[r Hr]|[e He]];
        cbv zeta in *; congruence.
    + intros H. now rewrite (Hneg H).
  - intros H. now rewrite (Hneg H).
  - intros H.
    exact (attempts_xor (Z.to_nat (maxRetries t + 1)) 0 None None
             (or_introl (Hpos H))).
Qed.

Lemma calculateBackoff_le (attempt initial maxDuration : Z)
  (resp : option Response) :
  initial <= maxDuration ->
  calculateBackoff Atoi untilHTTPDate attempt initial maxDuration resp
  <= maxDuration.
Proof.
  intros Hle. unfold calculateBackoff.
  assert (Hexp :
    (if wrap64 (initial * wrap64 (2 ^ attempt)) >? maxDuration
     then maxDuration else wrap64 (initial * wrap64 (2 ^ attempt)))
    <= maxDuration).
  { destruct (Z.gtb_spec (wrap64 (initial * wrap64 (2 ^ attempt)))
                maxDuration); lia. }
  destruct resp as [r|]; [|exact Hexp].
  destruct (String.eqb (RetryAfter r) ""); cbn [negb]; [exact Hexp|].
  destruct (Atoi (RetryAfter r)) as [seconds|].
  - destruct (Z.gtb_spec (wrap64 (seconds * Second)) maxDuration); lia.
  - destruct (untilHTTPDate (RetryAfter r)) as [duration|]; [|exact Hexp].
    destruct (Z.ltb_spec duration 0); [exact Hle|].
    destruct (Z.gtb_spec duration maxDuration); lia.
Qed.

Lemma sleeps_app (xs ys : list Event) :
  sleeps (xs ++ ys) = (sleeps xs ++ sleeps ys)%list.
Proof. unfold sleeps. apply flat_map_app. Qed.

Lemma retryCallbacks_app (xs ys : list Event) :
  retryCallbacks (xs ++ ys) = (retryCallbacks xs ++ retryCallbacks ys)%list.
Proof. unfold retryCallbacks. apply flat_map_app. Qed.

Lemma sleeps_onRetry (a w s : Z) : sleeps (onRetry t a w s) = [].
Proof. unfold onRetry. now destruct (hasOnRetry t). Qed.

Lemma retryCallbacks_onRetry (a w s : Z) :
  retryCallbacks (onRetry t a w s) = if hasOnRetry t then [(a, w)] else [].
Proof. unfold onRetry. now destruct (hasOnRetry t). Qed.

(** The waits of the iterations from [attempt] on, when the loop counter
    and the number of iterations left are in step. *)
Lemma attempts_sleeps (left : nat) :
  forall (attempt : Z) lastResp lastErr,
    0 <= attempt ->
    Z.of_nat left = maxRetries t + 1 - attempt ->
    initialBackoff t <= maxBackoff t ->
    let evs := snd (attempts Atoi untilHTTPDate t base req left attempt
                      lastResp lastErr) in
    Forall (fun w => w <= maxBackoff t) (sleeps evs)
    /\ retryCallbacks evs
       = (if hasOnRetry t
          then combine (map (fun k => attempt + 1 + Z.of_nat k)
                          (seq 0 (length (sleeps evs))))
                 (sleeps evs)
          else [])
    /\ (GetBody req = None ->
        (left <> 0%nat ->
         length (transportCalls evs) = S (length (sleeps evs)))
        /\ (left = 0%nat -> evs = [])).
Proof.
  induction left as [|left IH]; intros attempt lastResp lastErr Ha Hleft Hib evs;
    subst evs.
  - cbn [attempts]. destruct lastResp; cbn [snd sleeps retryCallbacks flat_map].
    all: split; [constructor|]; split;
      [now destruct (hasOnRetry t)|intros _; split; [congruence|reflexivity]].
  - cbn [attempts].
    destruct (GetBody req) as [getBody|] eqn:Hgb.
    + (* a body to restore at each attempt *)
      destruct (getBody attempt) as [err|].
      { cbn. split; [constructor|].
        split; [now destruct (hasOnRetry t)|discriminate]. }
      assert (Hleft' : Z.of_nat left = maxRetries t + 1 - (attempt + 1))
        by lia.
      assert (Ha' : 0 <= attempt + 1) by lia.
      destruct (base (Z.to_nat attempt)) as [resp|err].
      * destruct (isRetryableStatus (StatusCode resp)); cbn [negb];
          [|cbn; split; [constructor|];
            split; [now destruct (hasOnRetry t)|discriminate]].
        destruct ((StatusCode resp >=? 400) && (StatusCode resp <? 500)
                  && negb (StatusCode resp =? 429));
          [cbn; split; [constructor|];
           split; [now destruct (hasOnRetry t)|discriminate]|].
        destruct (Z.ltb_spec attempt (maxRetries t)).
        -- specialize (IH (attempt + 1) (Some resp) None Ha' Hleft' Hib).
           destruct (attempts _ _ _ _ _ left (attempt + 1) (Some resp) None)
             as [res evs].
           cbn [snd] in *. destruct IH as (Hw & Hcb & _).
           change (EvRoundTrip (Z.to_nat attempt)
                   :: onRetry t (attempt + 1)
                        (calculateBackoff Atoi untilHTTPDate attempt
                           (initialBackoff t) (maxBackoff t) (Some resp))
                        (StatusCode resp)
                   ++ EvCloseBody
                      :: EvSleep (calculateBackoff Atoi untilHTTPDate attempt
                                    (initialBackoff t) (maxBackoff t)
                                    (Some resp)) :: evs)%list
             with ([EvRoundTrip (Z.to_nat attempt)]
                   ++ onRetry t (attempt + 1)
                        (calculateBackoff Atoi untilHTTPDate attempt
                           (initialBackoff t) (maxBackoff t) (Some resp))
                        (StatusCode resp)
                   ++ [EvCloseBody;
                       EvSleep (calculateBackoff Atoi untilHTTPDate attempt
                                  (initialBackoff t) (maxBackoff t)
                                  (Some resp))] ++ evs)%list.
           rewrite !sleeps_app, !retryCallbacks_app, sleeps_onRetry,
             retryCallbacks_onRetry.
           cbn [sleeps retryCallbacks flat_map app].
           split; [constructor;
                   [now apply calculateBackoff_le|exact Hw]|].
           split; [|discriminate].
           rewrite Hcb. destruct (hasOnRetry t); [|reflexivity].
           cbn [length seq map combine app Z.of_nat].
           rewrite Z.add_0_r. f_equal. f_equal.
           rewrite <- seq_shift, map_map. apply map_ext. intros k. lia.
        -- assert (Hl0 : left = 0%nat) by lia. subst left. cbn.
           split; [constructor|].
           split; [now destruct (hasOnRetry t)|discriminate].
      * destruct (IsSSRFBlockedError err);
          [cbn; split; [constructor|];
           split; [now destruct (hasOnRetry t)|discriminate]|].
        destruct (Z.ltb_spec attempt (maxRetries t));
          [|cbn; split; [constructor|];
            split; [now destruct (hasOnRetry t)|discriminate]].
        specialize (IH (attempt + 1) lastResp (Some err) Ha' Hleft' Hib).
        destruct (attempts _ _ _ _ _ left (attempt + 1) lastResp (Some err))
          as [res evs].
        cbn [snd] in *. destruct IH as (Hw & Hcb & _).
        change (EvRoundTrip (Z.to_nat attempt)
                :: onRetry t (attempt + 1)
                     (calculateBackoff Atoi untilHTTPDate attempt
                        (initialBackoff t) (maxBackoff t) None) 0
                ++ EvSleep (calculateBackoff Atoi untilHTTPDate attempt
                              (initialBackoff t) (maxBackoff t) None)
                   :: evs)%list
          with ([EvRoundTrip (Z.to_nat attempt)]
                ++ onRetry t (attempt + 1)
                     (calculateBackoff Atoi untilHTTPDate attempt
                        (initialBackoff t) (maxBackoff t) None) 0
                ++ [EvSleep (calculateBackoff Atoi untilHTTPDate attempt
                               (initialBackoff t) (maxBackoff t) None)]
                ++ evs)%list.
        rewrite !sleeps_app, !retryCallbacks_app, sleeps_onRetry,
          retryCallbacks_onRetry.
        cbn [sleeps retryCallbacks flat_map app].
        split; [constructor; [now apply calculateBackoff_le|exact Hw]|].
        split; [|discriminate].
        rewrite Hcb. destruct (hasOnRetry t); [|reflexivity].
        cbn [length seq map combine app Z.of_nat].
        rewrite Z.add_0_r. f_equal. f_equal.
        rewrite <- seq_shift, map_map. apply map_ext. intros k. lia.
    + (* no body to restore *)
      assert (Hleft' : Z.of_nat left = maxRetries t + 1 - (attempt + 1))
        by lia.
      assert (Ha' : 0 <= attempt + 1) by lia.
      destruct (base (Z.to_nat attempt)) as [resp|err].
      * destruct (isRetryableStatus (StatusCode resp)); cbn [negb];
          [|cbn; split; [constructor|];
            split; [now destruct (hasOnRetry t)|
                    intros _; split; [reflexivity|discriminate]]].
        destruct ((StatusCode resp >=? 400) && (StatusCode resp <? 500)
                  && negb (StatusCode resp =? 429));
          [cbn; split; [constructor|];
           split; [now destruct (hasOnRetry t)|
                   intros _; split; [reflexivity|discriminate]]|].
        destruct (Z.ltb_spec attempt (maxRetries t)).
        -- specialize (IH (attempt + 1) (Some resp) None Ha' Hleft' Hib).
           destruct (attempts _ _ _ _ _ left (attempt + 1) (Some resp) None)
             as [res evs].
           cbn [snd] in *. destruct IH as (Hw & Hcb & Hcount).
           change (EvRoundTrip (Z.to_nat attempt)
                   :: onRetry t (attempt + 1)
                        (calculateBackoff Atoi untilHTTPDate attempt
                           (initialBackoff t) (maxBackoff t) (Some resp))
                        (StatusCode resp)
                   ++ EvCloseBody
                      :: EvSleep (calculateBackoff Atoi untilHTTPDate attempt
                                    (initialBackoff t) (maxBackoff t)
                                    (Some resp)) :: evs)%list
             with ([EvRoundTrip (Z.to_nat attempt)]
                   ++ onRetry t (attempt + 1)
                        (calculateBackoff Atoi untilHTTPDate attempt
                           (initialBackoff t) (maxBackoff t) (Some resp))
                        (StatusCode resp)
                   ++ [EvCloseBody;
                       EvSleep (calculateBackoff Atoi untilHTTPDate attempt
                                  (initialBackoff t) (maxBackoff t)
                                  (Some resp))] ++ evs)%list.
           rewrite !sleeps_app, !retryCallbacks_app, !transportCalls_app,
             sleeps_onRetry, retryCallbacks_onRetry, transportCalls_onRetry.
           cbn [sleeps retryCallbacks transportCalls flat_map app length].
           fold (transportCalls evs).
           split; [constructor;
                   [now apply calculateBackoff_le|exact Hw]|].
           split.
           ++ rewrite Hcb. destruct (hasOnRetry t); [|reflexivity].
              cbn [length seq map combine app Z.of_nat].
              rewrite Z.add_0_r. f_equal. f_equal.
              rewrite <- seq_shift, map_map. apply map_ext. intros k. lia.
           ++ intros _. split; [|discriminate]. intros _.
              destruct (Hcount eq_refl) as [Hc _].
              rewrite Hc by lia. reflexivity.
        -- assert (Hl0 : left = 0%nat) by lia. subst left. cbn.
           split; [constructor|].
           split; [now destruct (hasOnRetry t)|].
           intros _. split; [reflexivity|discriminate].
      * destruct (IsSSRFBlockedError err);
          [cbn; split; [constructor|];
           split; [now destruct (hasOnRetry t)|
                   intros _; split; [reflexivity|discriminate]]|].
        destruct (Z.ltb_spec attempt (maxRetries t));
          [|cbn; split; [constructor|];
            split; [now destruct (hasOnRetry t)|
                    intros _; split; [reflexivity|discriminate]]].
        specialize (IH (attempt + 1) lastResp (Some err) Ha' Hleft' Hib).
        destruct (attempts _ _ _ _ _ left (attempt + 1) lastResp (Some err))
          as [res evs].
        cbn [snd] in *. destruct IH as (Hw & Hcb & Hcount).
        change (EvRoundTrip (Z.to_nat attempt)
                :: onRetry t (attempt + 1)
                     (calculateBackoff Atoi untilHTTPDate attempt
                        (initialBackoff t) (maxBackoff t) None) 0
                ++ EvSleep (calculateBackoff Atoi untilHTTPDate attempt
                              (initialBackoff t) (maxBackoff t) None)
                   :: evs)%list
          with ([EvRoundTrip (Z.to_nat attempt)]
                ++ onRetry t (attempt + 1)
                     (calculateBackoff Atoi untilHTTPDate attempt
                        (initialBackoff t) (maxBackoff t) None) 0
                ++ [EvSleep (calculateBackoff Atoi untilHTTPDate attempt
                               (initialBackoff t) (maxBackoff t) None)]
                ++ evs)%list.
        rewrite !sleeps_app, !retryCallbacks_app, !transportCalls_app,
          sleeps_onRetry, retryCallbacks_onRetry, transportCalls_onRetry.
        cbn [sleeps retryCallbacks transportCalls flat_map app length].
        fold (transportCalls evs).
        split; [constructor; [now apply calculateBackoff_le|exact Hw]|].
        split.
        -- rewrite Hcb. destruct (hasOnRetry t); [|reflexivity].
           cbn [length seq map combine app Z.of_nat].
           rewrite Z.add_0_r. f_equal. f_equal.
           rewrite <- seq_shift, map_map. apply map_ext. intros k. lia.
        -- intros _. split; [|discriminate]. intros _.
           destruct (Hcount eq_refl) as [Hc _].
           rewrite Hc by lia. reflexivity.
Qed.

(** X13: with [MaxRetries] not negative and the initial backoff not
    above the maximal one, no wait of [RoundTrip] exceeds the maximal
    backoff; [OnRetry], when set, is called once before each wait, with
    the attempt numbers 1, 2, ... and the wait that follows; and a
    request without [GetBody] makes exactly one more transport call than
    it waits - every retry, and nothing else, is preceded by a wait. *)
Theorem RoundTrip_waits :
  0 <= netutil.MaxRetries t ->
  netutil.initialBackoff t <= netutil.maxBackoff t ->
  let evs := snd (netutil.RoundTrip Atoi untilHTTPDate t base req) in
  Forall (fun w => w <= netutil.maxBackoff t) (sleeps evs)
  /\ retryCallbacks evs
     = (if netutil.hasOnRetry t
        then combine (map (fun k => Z.of_nat k + 1)
                        (seq 0 (length (sleeps evs))))
               (sleeps evs)
        else [])
  /\ (netutil.GetBody req = None ->
      length (netutil.transportCalls evs) = S (length (sleeps evs))).
Proof.
  intros Hmax Hib evs. subst evs. unfold RoundTrip.
  assert (Hpos : 0 <= maxRetries t + 1).
  { unfold maxRetries. destruct (Z.eqb_spec (MaxRetries t) 0); lia. }
  assert (Hleft : Z.of_nat (Z.to_nat (maxRetries t + 1))
                  = maxRetries t + 1 - 0) by lia.
  destruct (attempts_sleeps (Z.to_nat (maxRetries t + 1)) 0 None None
              (Z.le_refl 0) Hleft Hib) as (Hw & Hcb & Hcount).
  split; [exact Hw|]. split.
  - rewrite Hcb. destruct (hasOnRetry t); [|reflexivity].
    f_equal. apply map_ext. intros k. lia.
  - intros Hgb. destruct (Hcount Hgb) as [Hc _]. apply Hc.
    unfold maxRetries. destruct (Z.eqb_spec (MaxRetries t) 0); lia.
Qed.

End MoreRetry.

Section MoreRetryScenarios.

Import netutil.
Local Open Scope Z_scope.

Lemma RoundTrip_waits_witness :
  let t := mkRetryTransport true 2 Second 0 in
  let base :=
    fun n : nat =>
      match n with
      | O | S O => Responded (mkResponse 503 "")
      | _ => Responded (mkResponse 200 "")
      end in
  let evs := snd (netutil.RoundTrip (fun _ => None) (fun _ => None) t base
                    (mkRequest None)) in
  sleeps evs = [Second; 2 * Second]
  /\ retryCallbacks evs = [(1, Second); (2, 2 * Second)]
  /\ length (netutil.transportCalls evs) = 3%nat.
Proof.
  intros t base evs. subst evs.
  assert (Hmax : 0 <= netutil.MaxRetries t) by (cbn; lia).
  assert (Hib : netutil.initialBackoff t <= netutil.maxBackoff t)
    by (vm_compute; discriminate).
  destruct (RoundTrip_waits (fun _ => None) (fun _ => None) t base
              (mkRequest None) Hmax Hib) as (_ & Hcb & Hcount).
  cbv zeta in Hcb, Hcount.
  assert (Hs : sleeps (snd (netutil.RoundTrip (fun _ => None) (fun _ => None)
                              t base (mkRequest None)))
               = [Second; 2 * Second]) by (vm_compute; reflexivity).
  split; [exact Hs|]. split.
  - rewrite Hcb, Hs. reflexivity.
  - rewrite (Hcount eq_refl), Hs. reflexivity.
Defined.

End MoreRetryScenarios.

(** ** Bodies within the limit *)

Section MoreLimitedReader.

Import netutil.
Local Open Scope Z_scope.

Lemma streamRead_final (s : Stream) (k : nat) :
  final (snd (streamRead s k)) = final s.
Proof.
  unfold streamRead. destruct (segments s) as [|seg rest]; [reflexivity|].
  destruct (length seg <=? k)%nat; reflexivity.
Qed.

Lemma streamRead_nil (s : Stream) (k : nat) :
  segments s = [] -> streamRead s k = ([], Some (final s), s).
Proof. intros H. unfold streamRead. now rewrite H. Qed.

(** A read of one byte from a stream without content delivers nothing and
    reports nothing but the end of the stream. *)
Lemma streamRead_drained (s : Stream) :
  final s = EOF ->
  content s = [] ->
  exists err s',
    streamRead s 1 = ([], err, s')
    /\ (err = None \/ err = Some EOF)
    /\ content s' = []
    /\ final s' = EOF
    /\ (streamMeasure s' <= streamMeasure s)%nat.
Proof.
  intros Hfin Hc. unfold streamRead.
  destruct s as [[|seg rest] fin]; cbn [segments final] in *.
  - exists (Some fin), (mkStream [] fin). subst fin. auto 6.
  - unfold content in Hc. cbn [segments concat] in Hc.
    apply app_eq_nil in Hc as [-> Hrest]. cbn [length Nat.leb].
    exists None, (mkStream rest fin). split; [reflexivity|].
    split; [now left|]. split; [exact Hrest|]. split; [exact Hfin|].
    unfold streamMeasure, content. cbn. lia.
Qed.

(** One [Read] with the whole rest of the stream strictly within the
    budget. *)
Lemma Read_under (l : LimitedReader) (k : nat) :
  (1 <= k)%nat ->
  Z.of_nat (length (content (R l))) < N l ->
  (segments (R l) = []
   /\ Read l k = ([], Some (final (R l)),
                  mkLimitedReader (R l) (N l) (Limit l) (read l)))
  \/ exists data l',
       Read l k = (data, None, l')
       /\ content (R l) = (data ++ content (R l'))%list
       /\ Z.of_nat (length (content (R l'))) < N l'
       /\ final (R l') = final (R l)
       /\ (streamMeasure (R l') < streamMeasure (R l))%nat.
Proof.
  intros Hk Hlen. unfold Read.
  assert (HN : 0 < N l) by lia.
  destruct (Z.leb_spec (N l) 0) as [|_]; [lia|].
  set (k' := if Z.of_nat k >? N l then Z.to_nat (N l) else k).
  assert (Hk' : (1 <= k')%nat).
  { subst k'. destruct (Z.gtb_spec (Z.of_nat k) (N l)); lia. }
  destruct (segments (R l)) as [|seg rest] eqn:Hseg.
  - left. split; [reflexivity|].
    rewrite (streamRead_nil _ _ Hseg). cbn [length Z.of_nat].
    now rewrite Z.sub_0_r, Z.add_0_r.
  - right.
    assert (Hne : segments (R l) <> []) by (rewrite Hseg; discriminate).
    pose proof (streamRead_final (R l) k') as Hfin.
    destruct (streamRead_facts (R l) k' Hne Hk')
      as (data & s' & Hrd & Hcont & Hdl & Hm).
    rewrite Hrd in *. cbn [snd] in Hfin.
    assert (Hlen' : length (content (R l))
                    = (length data + length (content s'))%nat)
      by (rewrite Hcont; apply length_app).
    cbn [N R].
    destruct (Z.eqb_spec (N l - Z.of_nat (length data)) 0) as [H0|_];
      [lia|].
    eexists _, _. split; [reflexivity|]. cbn [R N].
    split; [exact Hcont|]. split; [lia|]. split; assumption.
Qed.

Lemma ReadAllFrom_under (space : nat -> nat) (fuel : nat) :
  forall (i : nat) (l : LimitedReader) (b : list Byte.byte),
    Z.of_nat (length (content (R l))) < N l ->
    (streamMeasure (R l) < fuel)%nat ->
    exists l',
      ReadAllFrom space fuel i l b
      = Some ((b ++ content (R l))%list,
              match final (R l) with EOF => None | e => Some e end, l').
Proof.
  induction fuel as [|fuel IH]; intros i l b Hlen Hfuel; [lia|].
  cbn [ReadAllFrom].
  assert (Hbuf : (1 <= S (space i))%nat) by lia.
  destruct (Read_under l (S (space i)) Hbuf Hlen)
    as [[Hseg Hrd]|(data & l' & Hrd & Hcont & Hlen' & Hfin & Hm)].
  - rewrite Hrd.
    assert (Hc : content (R l) = []) by (unfold content; now rewrite Hseg).
    rewrite Hc. destruct (final (R l)); eexists; reflexivity.
  - rewrite Hrd.
    assert (Hfuel' : (streamMeasure (R l') < fuel)%nat) by lia.
    destruct (IH (S i) l' (b ++ data)%list Hlen' Hfuel') as [l'' Hall].
    exists l''. rewrite Hall, <- app_assoc, <- Hcont, Hfin. reflexivity.
Qed.

(** One [Read] with the rest of the stream exactly the budget. *)
Lemma Read_exact (l : LimitedReader) (k : nat) :
  (1 <= k)%nat ->
  0 < N l ->
  final (R l) = EOF ->
  Z.of_nat (length (content (R l))) = N l ->
  exists data l',
    Read l k = (data, None, l')
    /\ content (R l) = (data ++ content (R l'))%list
    /\ Z.of_nat (length (content (R l'))) = N l'
    /\ final (R l') = EOF
    /\ (streamMeasure (R l') < streamMeasure (R l))%nat.
Proof.
  intros Hk HN Hfin Hlen. unfold Read.
  destruct (Z.leb_spec (N l) 0) as [|_]; [lia|].
  set (k' := if Z.of_nat k >? N l then Z.to_nat (N l) else k).
  assert (Hk' : (1 <= k')%nat).
  { subst k'. destruct (Z.gtb_spec (Z.of_nat k) (N l)); lia. }
  assert (Hne : segments (R l) <> []).
  { apply content_nonempty_segments. lia. }
  pose proof (streamRead_final (R l) k') as Hfin'.
  destruct (streamRead_facts (R l) k' Hne Hk')
    as (data & s' & Hrd & Hcont & Hdl & Hm).
  rewrite Hrd in *. cbn [snd] in Hfin'.
  assert (Hlen' : length (content (R l))
                  = (length data + length (content s'))%nat)
    by (rewrite Hcont; apply length_app).
  cbn [N R Limit read].
  destruct (Z.eqb_spec (N l - Z.of_nat (length data)) 0) as [H0|Hn0].
  - assert (Hc : content s' = []).
    { apply length_zero_iff_nil. lia. }
    destruct (streamRead_drained s') as (err & s'' & Hex & Herr & Hc'' & Hf'' & Hm');
      [congruence|exact Hc|].
    rewrite Hex. cbn [length Nat.ltb Nat.leb].
    destruct Herr as [-> | ->].
    + eexists _, _. split; [reflexivity|]. cbn [R N].
      split; [now rewrite Hc'', <- Hc|]. rewrite Hc''. cbn [length].
      split; [lia|]. split; [exact Hf''|lia].
    + eexists _, _. split; [reflexivity|]. cbn [R N].
      split; [now rewrite Hc'', <- Hc|]. rewrite Hc''. cbn [length].
      split; [lia|]. split; [exact Hf''|lia].
  - eexists _, _. split; [reflexivity|]. cbn [R N].
    split; [exact Hcont|]. split; [lia|]. split; [congruence|exact Hm].
Qed.

Lemma ReadAllFrom_exact (space : nat -> nat) (fuel : nat) :
  forall (i : nat) (l : LimitedReader) (b : list Byte.byte),
    final (R l) = EOF ->
    Z.of_nat (length (content (R l))) = N l ->
    (streamMeasure (R l) < fuel)%nat ->
    exists e l',
      ReadAllFrom space fuel i l b
      = Some ((b ++ content (R l))%list, Some e, l')
      /\ IsSizeLimitExceededError e = true.
Proof.
  induction fuel as [|fuel IH]; intros i l b Hfin Hlen Hfuel; [lia|].
  cbn [ReadAllFrom].
  destruct (Z.leb_spec (N l) 0) as [Hle|Hgt].
  - rewrite Read_spent by assumption.
    assert (Hc : content (R l) = []) by (apply length_zero_iff_nil; lia).
    rewrite Hc. eexists _, _. split; reflexivity.
  - assert (Hbuf : (1 <= S (space i))%nat) by lia.
    destruct (Read_exact l (S (space i)) Hbuf Hgt Hfin Hlen)
      as (data & l' & Hrd & Hcont & Hlen' & Hfin' & Hm).
    rewrite Hrd.
    assert (Hfuel' : (streamMeasure (R l') < fuel)%nat) by lia.
    destruct (IH (S i) l' (b ++ data)%list Hfin' Hlen' Hfuel')
      as (e & l'' & Hall & He).
    exists e, l''. split; [|exact He].
    rewrite Hall, <- app_assoc, <- Hcont. reflexivity.
Qed.

(** X14: a body that ends normally and is not longer than the limit is
    read in full, without an error record; it is reported as
    [BodyTruncated] exactly when its length equals the limit.  So a body
    of exactly [maxBodySize] bytes arrives whole and is flagged as
    truncated. *)
Theorem readHTTPResponse_within_limit (r : netutil.Stream) (limit : Z)
  (space : nat -> nat) (fuel : nat) (status : Z)
  (header : list (string * list string)) (proto : string) (latencyMs : Z) :
  netutil.final r = netutil.EOF ->
  Z.of_nat (length (netutil.content r)) <= limit ->
  (streamMeasure r < fuel)%nat ->
  http.readHTTPResponse space fuel (http.mkResponse status header proto r)
    latencyMs limit
  = Some (http.mkHTTPResponse header None proto (netutil.content r)
            latencyMs status
            (Z.of_nat (length (netutil.content r)) =? limit)).
Proof.
  intros Hfin Hlen Hfuel. unfold http.readHTTPResponse, ReadAll.
  cbn [http.RespBody http.RespHeader http.RespProto http.RespStatusCode].
  destruct (Z.eqb_spec (Z.of_nat (length (content r))) limit) as [Heq|Hne].
  - destruct (ReadAllFrom_exact space fuel 0 (NewLimitedReader r limit) [])
      as (e & l' & Hall & He); [exact Hfin|exact Heq|exact Hfuel|].
    cbn [R NewLimitedReader app] in Hall. rewrite Hall, He. reflexivity.
  - destruct (ReadAllFrom_under space fuel 0 (NewLimitedReader r limit) [])
      as (l' & Hall); [cbn [R N NewLimitedReader]; lia|exact Hfuel|].
    cbn [R NewLimitedReader app] in Hall. rewrite Hall, Hfin. reflexivity.
Qed.

Lemma readHTTPResponse_within_limit_witness :
  let r := mkStream [[Byte.x68; Byte.x65]; [Byte.x6c; Byte.x6c; Byte.x6f]] EOF in
  http.readHTTPResponse (fun _ => 511%nat) 8
    (http.mkResponse 200 [] "HTTP/1.1" r) 12 5
  = Some (http.mkHTTPResponse [] None "HTTP/1.1"
            [Byte.x68; Byte.x65; Byte.x6c; Byte.x6c; Byte.x6f] 12 200 true)
  /\ http.readHTTPResponse (fun _ => 511%nat) 8
       (http.mkResponse 200 [] "HTTP/1.1" r) 12 6
     = Some (http.mkHTTPResponse [] None "HTTP/1.1"
               [Byte.x68; Byte.x65; Byte.x6c; Byte.x6c; Byte.x6f] 12 200 false).
Proof.
  intros r.
  assert (Hfin : netutil.final r = netutil.EOF) by reflexivity.
  assert (Hfuel : (streamMeasure r < 8)%nat) by (vm_compute; lia).
  assert (H5 : Z.of_nat (length (netutil.content r)) <= 5) by (vm_compute; discriminate).
  assert (H6 : Z.of_nat (length (netutil.content r)) <= 6) by (vm_compute; discriminate).
  split.
  - exact (readHTTPResponse_within_limit r 5 (fun _ => 511%nat) 8 200 []
             "HTTP/1.1" 12 Hfin H5 Hfuel).
  - exact (readHTTPResponse_within_limit r 6 (fun _ => 511%nat) 8 200 []
             "HTTP/1.1" 12 Hfin H6 Hfuel).
Defined.

(** X15: when the body fails with a read error before the limit is
    reached, the response carries the status and the headers, the error
    [READ_BODY_FAILED] with the text of the read error, and nothing of
    the body read so far, nor the protocol. *)
Theorem readHTTPResponse_read_error (r : netutil.Stream) (limit : Z)
  (msg : string) (space : nat -> nat) (fuel : nat) (status : Z)
  (header : list (string * list string)) (proto : string) (latencyMs : Z) :
  netutil.final r = netutil.ErrRead msg ->
  Z.of_nat (length (netutil.content r)) < limit ->
  (streamMeasure r < fuel)%nat ->
  http.readHTTPResponse space fuel (http.mkResponse status header proto r)
    latencyMs limit
  = Some (http.mkHTTPResponse header
            (Some (http.mkHTTPError "READ_BODY_FAILED" msg)) "" []
            latencyMs status false).
Proof.
  intros Hfin Hlen Hfuel. unfold http.readHTTPResponse, ReadAll.
  cbn [http.RespBody http.RespHeader http.RespProto http.RespStatusCode].
  destruct (ReadAllFrom_under space fuel 0 (NewLimitedReader r limit) [])
    as (l' & Hall); [exact Hlen|exact Hfuel|].
  cbn [R NewLimitedReader app] in Hall. rewrite Hall, Hfin. reflexivity.
Qed.

Lemma readHTTPResponse_read_error_witness :
  let r := mkStream [[Byte.x68; Byte.x65]] (ErrRead "connection reset") in
  http.readHTTPResponse (fun _ => 511%nat) 8
    (http.mkResponse 200 [] "HTTP/1.1" r) 12 10
  = Some (http.mkHTTPResponse []
            (Some (http.mkHTTPError "READ_BODY_FAILED" "connection reset"))
            "" [] 12 200 false).
Proof.
  intros r.
  assert (Hfin : netutil.final r = netutil.ErrRead "connection reset")
    by reflexivity.
  assert (Hfuel : (streamMeasure r < 8)%nat) by (vm_compute; lia).
  assert (Hlen : Z.of_nat (length (netutil.content r)) < 10) by reflexivity.
  exact (readHTTPResponse_read_error r 10 "connection reset"
           (fun _ => 511%nat) 8 200 [] "HTTP/1.1" 12 Hfin Hlen Hfuel).
Defined.

End MoreLimitedReader.

(** ** The configuration of an HTTP request *)

Section HTTPConfig.

Import http.
Local Open Scope Z_scope.

Lemma wrap64_small (z : Z) : 0 <= z < 2 ^ 63 -> netutil.wrap64 z = z.
Proof.
  intros H. unfold netutil.wrap64.
  rewrite Z.mod_small by lia. lia.
Qed.

Lemma applyOption_inv (opt : HTTPOption) (c : httpConfig) :
  (0 < maxBodySize c /\ 0 <= maxRedirects c /\ 0 < timeout c
   /\ (ssrfProtection c = false -> allowPrivate c = false))
  -> 0 < maxBodySize (applyOption opt c)
     /\ 0 <= maxRedirects (applyOption opt c)
     /\ 0 < timeout (applyOption opt c)
     /\ (ssrfProtection (applyOption opt c) = false ->
         allowPrivate (applyOption opt c) = false).
Proof.
  intros (H1 & H2 & H3 & H4). destruct opt as [d|n|f|size|b]; cbn [applyOption].
  - destruct (Z.gtb_spec d 0); cbn; auto with zarith.
  - destruct (Z.geb_spec n 0); cbn; auto with zarith.
  - cbn. auto.
  - destruct (Z.gtb_spec size 0); cbn; auto with zarith.
  - cbn. repeat split; auto. discriminate.
Qed.

Lemma applyOptions_inv (opts : list HTTPOption) :
  forall c,
    (0 < maxBodySize c /\ 0 <= maxRedirects c /\ 0 < timeout c
     /\ (ssrfProtection c = false -> allowPrivate c = false))
    -> let c' := fold_left (fun c opt => applyOption opt c) opts c in
       0 < maxBodySize c' /\ 0 <= maxRedirects c' /\ 0 < timeout c'
       /\ (ssrfProtection c' = false -> allowPrivate c' = false).
Proof.
  induction opts as [|opt opts IH]; intros c H; [exact H|].
  cbn [fold_left]. apply IH. now apply applyOption_inv.
Qed.

Lemma applyOptions_ssrf (opts : list HTTPOption) :
  forall c,
    ssrfProtection c = true ->
    let c' := fold_left (fun c opt => applyOption opt c) opts c in
    ssrfProtection c' = true
    /\ (setsSSRF opts = false -> allowPrivate c' = allowPrivate c).
Proof.
  induction opts as [|opt opts IH]; intros c H; [cbn; auto|].
  cbn [fold_left setsSSRF existsb].
  assert (H' : ssrfProtection (applyOption opt c) = true).
  { destruct opt as [d|n|f|size|b]; cbn [applyOption];
      try (match goal with |- context [if ?b then _ else _] => destruct b end);
      cbn; auto. }
  destruct (IH _ H') as [Hp Ha]. split; [exact Hp|].
  intros Hs. apply orb_false_iff in Hs as [Hopt Hrest].
  fold (setsSSRF opts) in Hrest. rewrite (Ha Hrest).
  destruct opt as [d|n|f|size|b]; cbn [applyOption]; try discriminate;
    try (match goal with |- context [if ?b then _ else _] => destruct b end);
    reflexivity.
Qed.

Lemma applyRequestConfig_fields (req : HTTPRequest) (c : httpConfig) :
  maxBodySize (applyRequestConfig req c) = maxBodySize c
  /\ ssrfProtection (applyRequestConfig req c) = ssrfProtection c
  /\ allowPrivate (applyRequestConfig req c) = allowPrivate c
  /\ maxRedirects (applyRequestConfig req c)
     = (if MaxRedirects req >? 0 then MaxRedirects req else maxRedirects c)
  /\ timeout (applyRequestConfig req c)
     = (if Timeout req >? 0 then netutil.wrap64 (Timeout req * Millisecond)
        else timeout c).
Proof.
  unfold applyRequestConfig.
  destruct (Timeout req >? 0), (MaxRedirects req >? 0), (FollowRedirects req);
    cbn; auto.
Qed.

Lemma CheckRedirect_follow (cfg : httpConfig) (via : nat) :
  0 <= maxRedirects cfg ->
  CheckRedirect cfg via = FollowRedirect
  <-> followRedirects cfg = true
      /\ Z.of_nat via
         < (if maxRedirects cfg =? 0 then 10 else maxRedirects cfg).
Proof.
  intros Hm. unfold CheckRedirect.
  destruct (followRedirects cfg); cbn [negb];
    [|split; [discriminate|intros [H _]; discriminate]].
  destruct (Z.gtb_spec (maxRedirects cfg) 0) as [Hpos|Hz].
  - destruct (Z.eqb_spec (maxRedirects cfg) 0); [lia|].
    destruct (Z.geb_spec (Z.of_nat via) (maxRedirects cfg)).
    + split; [discriminate|intros [_ Hv]; lia].
    + split; [intros _; split; [reflexivity|lia]|reflexivity].
  - destruct (Z.eqb_spec (maxRedirects cfg) 0); [|lia].
    destruct (Nat.leb_spec 10 via).
    + split; [discriminate|intros [_ Hv]; lia].
    + split; [intros _; split; [reflexivity|lia]|reflexivity].
Qed.

(** X16: whatever the context, the options and the request say, the
    configuration [PerformHTTPRequest] arrives at has a positive body
    limit, a redirect limit that is not negative and - when the request's
    timeout in milliseconds does not overflow a duration - a positive
    timeout; private addresses are allowed only with the SSRF protection
    on; an SSRF setting found in the context turns the protection on, no
    option turns it off, and the context's choice stands unless an option
    sets it anew.  A redirect is followed exactly when redirects are
    followed at all and fewer requests were made than the redirect limit,
    where a limit of zero counts as ten. *)
Theorem PerformHTTPRequest_config_invariants (ssrf : option bool)
  (opts : list http.HTTPOption) (req : http.HTTPRequest) :
  let cfg := http.PerformHTTPRequest_config ssrf opts req in
  0 < http.maxBodySize cfg
  /\ 0 <= http.maxRedirects cfg
  /\ (http.Timeout req * http.Millisecond < 2 ^ 63 -> 0 < http.timeout cfg)
  /\ (http.ssrfProtection cfg = false -> http.allowPrivate cfg = false)
  /\ (forall b, ssrf = Some b ->
        http.ssrfProtection cfg = true
        /\ (setsSSRF opts = false -> http.allowPrivate cfg = b))
  /\ (forall via,
        http.CheckRedirect cfg via = http.FollowRedirect
        <-> http.followRedirects cfg = true
            /\ Z.of_nat via
               < (if http.maxRedirects cfg =? 0 then 10
                  else http.maxRedirects cfg)).
Proof.
  intros cfg. subst cfg. unfold PerformHTTPRequest_config.
  set (c0 := match ssrf with
             | Some allowPrivate =>
                 applyOption (WithHTTPSSRFProtection allowPrivate)
                   defaultHTTPConfig
             | None => defaultHTTPConfig
             end).
  assert (H0 : 0 < maxBodySize c0 /\ 0 <= maxRedirects c0 /\ 0 < timeout c0
               /\ (ssrfProtection c0 = false -> allowPrivate c0 = false)).
  { subst c0. destruct ssrf; cbn; repeat split; try lia; try discriminate;
      auto. }
  destruct (applyOptions_inv opts c0 H0) as (H1 & H2 & H3 & H4).
  set (c1 := fold_left (fun c opt => applyOption opt c) opts c0) in *.
  destruct (applyRequestConfig_fields req c1) as (E1 & E2 & E3 & E4 & E5).
  assert (Hred : 0 <= maxRedirects (applyRequestConfig req c1)).
  { rewrite E4. destruct (Z.gtb_spec (MaxRedirects req) 0); lia. }
  split; [now rewrite E1|]. split; [exact Hred|]. split.
  { intros Hov. rewrite E5. destruct (Z.gtb_spec (Timeout req) 0); [|exact H3].
    rewrite wrap64_small; unfold Millisecond in *; lia. }
  split; [rewrite E2, E3; exact H4|]. split.
  - intros b ->. rewrite E2, E3.
    destruct (applyOptions_ssrf opts c0 eq_refl) as [Hp Ha].
    split; [exact Hp|]. intros Hs. unfold c1. now rewrite (Ha Hs).
  - intros via. now apply CheckRedirect_follow.
Qed.

Lemma PerformHTTPRequest_config_invariants_witness :
  let req := http.mkHTTPRequest [] None "" "https://example.com" [] 1500 0 in
  let cfg :=
    http.PerformHTTPRequest_config (Some false)
      [http.WithHTTPMaxRedirects 0; http.WithHTTPMaxBodySize (-1)] req in
  http.timeout cfg = 1500 * http.Millisecond
  /\ http.ssrfProtection cfg = true /\ http.allowPrivate cfg = false
  /\ http.CheckRedirect cfg 9 = http.FollowRedirect
  /\ http.CheckRedirect cfg 10 = http.StopRedirects 10.
Proof.
  intros req cfg. subst cfg.
  destruct (PerformHTTPRequest_config_invariants (Some false)
              [http.WithHTTPMaxRedirects 0; http.WithHTTPMaxBodySize (-1)] req)
    as (_ & _ & _ & _ & Hssrf & Hred).
  destruct (Hssrf false eq_refl) as [Hp Ha].
  split; [reflexivity|]. split; [exact Hp|]. split; [exact (Ha eq_refl)|].
  split; [|reflexivity].
  apply Hred. split; reflexivity.
Defined.

End HTTPConfig.

(** ** The capability middleware: what reaches the inner handler *)

Section MoreMiddleware.

Import hostfunc hostlib.

Variable c : CapabilityChecker.
Context {ext : Externals}.
Variable next : Context -> string -> string * option string.

Lemma nextCalls_app (xs ys : list Event) :
  nextCalls (xs ++ ys) = (nextCalls xs ++ nextCalls ys)%list.
Proof. unfold nextCalls. apply flat_map_app. Qed.

Lemma denialCalls_app (xs ys : list Event) :
  denialCalls (xs ++ ys) = (denialCalls xs ++ denialCalls ys)%list.
Proof. unfold denialCalls. apply List.filter_app. Qed.

(** What every check of the checker comes to: it does not reach the inner
    handler, it calls the denial handler at most once and only when it
    denies, and it denies a plugin without grants. *)
Ltac check_cases :=
  unfold CheckNetwork, CheckNetworkConnection, CheckExec, handleDeny;
  repeat match goal with
         | |- context [grantsOf ?c ?p] => destruct (grantsOf c p)
         | |- context [if ?b then _ else _] => destruct b
         end;
  cbn; repeat split; auto; try discriminate; try congruence.

Lemma CheckNetwork_shape (p : string) (req : NetworkRequest) :
  let out := CheckNetwork c p req in
  nextCalls (snd out) = []
  /\ (length (denialCalls (snd out)) <= 1)%nat
  /\ (fst out = None -> denialCalls (snd out) = [])
  /\ (grantsOf c p = None -> fst out <> None).
Proof. check_cases. Qed.

Lemma CheckNetworkConnection_shape (p host : string) (port : Z) :
  let out := CheckNetworkConnection c p host port in
  nextCalls (snd out) = []
  /\ (length (denialCalls (snd out)) <= 1)%nat
  /\ (fst out = None -> denialCalls (snd out) = [])
  /\ (grantsOf c p = None -> fst out <> None).
Proof. check_cases. Qed.

Lemma CheckExec_shape (p : string) (req : ExecCapabilityRequest) :
  let out := CheckExec c p req in
  nextCalls (snd out) = []
  /\ (length (denialCalls (snd out)) <= 1)%nat
  /\ (fst out = None -> denialCalls (snd out) = [])
  /\ (grantsOf c p = None -> fst out <> None).
Proof. check_cases. Qed.

Lemma checkHTTPCapability_shape (p rawURL : string) :
  let out := checkHTTPCapability c p rawURL in
  nextCalls (snd out) = []
  /\ (length (denialCalls (snd out)) <= 1)%nat
  /\ (fst out = None -> denialCalls (snd out) = [])
  /\ (grantsOf c p = None -> fst out <> None).
Proof.
  unfold checkHTTPCapability.
  destruct (urlParse rawURL); [apply CheckNetworkConnection_shape|].
  cbn. repeat split; auto; discriminate.
Qed.

(** After a check: an error is answered, no error is passed on. *)
Ltac after_check H :=
  cbv zeta in H;
  let err := fresh "err" in
  let evs := fresh "evs" in
  let Hn := fresh "Hn" in
  let Hd1 := fresh "Hd1" in
  let Hd0 := fresh "Hd0" in
  let Hg := fresh "Hg" in
  let Hg' := fresh "Hg'" in
  match type of H with
  | context [snd ?chk] => destruct chk as [[err|] evs]
  end;
  cbn [fst snd] in H; destruct H as (Hn & Hd1 & Hd0 & Hg);
  [ right; eexists _, evs; split; [reflexivity|split; [exact Hn|exact Hd1]]
  | left; exists evs; split; [reflexivity|];
    split; [exact Hn|]; split; [now apply Hd0|];
    intros Hg'; exfalso; now apply (Hg Hg') ].

Lemma CapabilityMiddleware_shape (ctx : Context) (payload : string) :
  let out := CapabilityMiddleware c next ctx payload in
  match capabilityPluginName ctx with
  | None => out = (next ctx payload, [EvNext ctx payload])
  | Some p =>
      let ctx' := withSSRFAllowPrivate ctx (AllowsPrivateNetwork c p) in
      (exists evs0,
         out = (next ctx' payload,
                (EvAllowsPrivateNetwork p :: evs0
                 ++ [EvNext ctx' payload])%list)
         /\ nextCalls evs0 = [] /\ denialCalls evs0 = []
         /\ (grantsOf c p = None ->
             payloadParses (dispatchName ctx) payload = false))
      \/ (exists msg evs0,
            out = ((validationErrorJSON msg, None),
                   EvAllowsPrivateNetwork p :: evs0)
            /\ nextCalls evs0 = []
            /\ (length (denialCalls evs0) <= 1)%nat)
  end.
Proof.
  unfold CapabilityMiddleware, CapabilityPluginNameFromContext.
  destruct (capabilityPluginName ctx) as [p|]; [|reflexivity].
  fold (dispatchName ctx). unfold payloadParses, callNext, deny. cbn [app].
  assert (Hun : forall ctx',
    (exists evs0,
       (next ctx' payload, [EvAllowsPrivateNetwork p; EvNext ctx' payload])
       = (next ctx' payload,
          (EvAllowsPrivateNetwork p :: evs0 ++ [EvNext ctx' payload])%list)
       /\ nextCalls evs0 = [] /\ denialCalls evs0 = []
       /\ (grantsOf c p = None -> false = false))).
  { intros ctx'. exists []. auto. }
  destruct (String.eqb (dispatchName ctx) "dns_lookup").
  { destruct (unmarshalDNS payload) as [r|]; [|left; apply Hun].
    pose proof (CheckNetwork_shape p (mkNetworkRequest (Hostname r) 53)) as H.
    after_check H. }
  destruct (String.eqb (dispatchName ctx) "tcp_connect").
  { destruct (unmarshalTCP payload) as [r|]; [|left; apply Hun].
    pose proof (CheckNetwork_shape p
                  (mkNetworkRequest (TCPHost r) (atoiOrZero (TCPPort r)))) as H.
    after_check H. }
  destruct (String.eqb (dispatchName ctx) "smtp_connect").
  { destruct (unmarshalSMTP payload) as [r|]; [|left; apply Hun].
    pose proof (CheckNetwork_shape p
                  (mkNetworkRequest (SMTPHost r) (atoiOrZero (SMTPPort r))))
      as H.
    after_check H. }
  destruct (String.eqb (dispatchName ctx) "http_request").
  { destruct (unmarshalHTTP payload) as [r|]; [|left; apply Hun].
    pose proof (checkHTTPCapability_shape p (URL r)) as H.
    after_check H. }
  destruct (String.eqb (dispatchName ctx) "exec_command").
  { destruct (unmarshalExec payload) as [r|]; [|left; apply Hun].
    pose proof (CheckExec_shape p (mkExecCapabilityRequest (ExecCommand r)))
      as H.
    destruct (IsDangerousExecution (ExecCommand r) (Args r)); after_check H. }
  left. apply Hun.
Qed.

Lemma grantsOf_None_private (p : string) :
  grantsOf c p = None -> AllowsPrivateNetwork c p = false.
Proof. unfold AllowsPrivateNetwork. now intros ->. Qed.

(** X17: a call through the middleware ends in one of two ways.  Either
    the inner handler is called exactly once, with the payload as it
    came, its answer is returned as it is, the denial handler was not
    called, and the context handed on carries the plugin name as before
    and - when there is a plugin name - the private-network flag the
    checker derived for the plugin.  Or the inner handler is not called,
    the answer is a validation-error payload with a nil error, and the
    denial handler was called at most once. *)
Theorem CapabilityMiddleware_passes_or_denies (ctx : hostlib.Context)
  (payload : string) :
  let out := hostlib.CapabilityMiddleware c next ctx payload in
  (exists ctx',
     nextCalls (snd out) = [(ctx', payload)]
     /\ fst out = next ctx' payload
     /\ denialCalls (snd out) = []
     /\ hostlib.capabilityPluginName ctx' = hostlib.capabilityPluginName ctx
     /\ hostlib.ssrfAllowPrivate ctx'
        = match hostlib.capabilityPluginName ctx with
          | Some p => Some (hostlib.AllowsPrivateNetwork c p)
          | None => hostlib.ssrfAllowPrivate ctx
          end)
  \/ (exists msg,
        nextCalls (snd out) = []
        /\ fst out = (hostlib.validationErrorJSON msg, None)
        /\ (length (denialCalls (snd out)) <= 1)%nat).
Proof.
  intros out. pose proof (CapabilityMiddleware_shape ctx payload) as H.
  cbv zeta in H. fold out in H. clearbody out.
  destruct (capabilityPluginName ctx) as [p|] eqn:Hp.
  - destruct H as [(evs0 & -> & Hn & Hd & _)|(msg & evs0 & -> & Hn & Hd)].
    + left. eexists. cbn [fst snd].
      change (EvAllowsPrivateNetwork p :: evs0 ++ ?l)%list
        with ([EvAllowsPrivateNetwork p] ++ evs0 ++ l)%list.
      rewrite !nextCalls_app, !denialCalls_app, Hn, Hd.
      split; [reflexivity|]. split; [reflexivity|]. split; [reflexivity|].
      split; [exact Hp|reflexivity].
    + right. exists msg. cbn [fst snd].
      split; [exact Hn|]. split; [reflexivity|exact Hd].
  - left. exists ctx. rewrite H. cbn. rewrite Hp. auto.
Qed.

(** X18: the middleware fails closed.  For a plugin that has no grants
    (no entry, or a nil entry), every call whose payload parses as the
    request of one of the five checked functions is answered with a
    validation error and does not reach the inner handler; and whatever
    does reach the inner handler does so with private network access
    switched off. *)
Theorem CapabilityMiddleware_fails_closed (ctx : hostlib.Context)
  (payload p : string) :
  hostlib.capabilityPluginName ctx = Some p ->
  hostlib.grantsOf c p = None ->
  let out := hostlib.CapabilityMiddleware c next ctx payload in
  (hostlib.payloadParses (dispatchName ctx) payload = true ->
   nextCalls (snd out) = []
   /\ exists msg, fst out = (hostlib.validationErrorJSON msg, None))
  /\ (forall ctx' payload',
        In (ctx', payload') (nextCalls (snd out)) ->
        payload' = payload
        /\ hostlib.ssrfAllowPrivate ctx' = Some false).
Proof.
  intros Hp Hg out. pose proof (CapabilityMiddleware_shape ctx payload) as H.
  cbv zeta in H. fold out in H. clearbody out. rewrite Hp in H.
  rewrite (grantsOf_None_private p Hg) in H.
  destruct H as [(evs0 & -> & Hn & Hd & Hparse)|(msg & evs0 & -> & Hn & Hd)];
    cbn [fst snd].
  - split; [intros Ht; rewrite (Hparse Hg) in Ht; discriminate|].
    intros ctx' payload'.
    change (EvAllowsPrivateNetwork p :: evs0 ++ ?l)%list
      with ([EvAllowsPrivateNetwork p] ++ evs0 ++ l)%list.
    rewrite !nextCalls_app, Hn. cbn.
    intros [[= <- <-]|[]]. auto.
  - split; [intros _; split; [exact Hn|now exists msg]|].
    intros ctx' payload'.
    change (EvAllowsPrivateNetwork p :: evs0)
      with ([EvAllowsPrivateNetwork p] ++ evs0)%list.
    rewrite nextCalls_app, Hn. intros [].
Qed.

(** X19: the middleware and the HTTP configuration fit together.  When
    the context carries a plugin name, the context the inner handler
    receives makes [PerformHTTPRequest] run with the SSRF protection on,
    whatever options are passed; and private addresses are allowed
    exactly when the checker allows them for the plugin, unless an option
    sets the SSRF protection anew. *)
Theorem CapabilityMiddleware_http_ssrf (ctx ctx' : hostlib.Context)
  (payload payload' p : string) (opts : list http.HTTPOption)
  (req : http.HTTPRequest) :
  hostlib.capabilityPluginName ctx = Some p ->
  In (ctx', payload')
    (nextCalls (snd (hostlib.CapabilityMiddleware c next ctx payload))) ->
  let cfg :=
    http.PerformHTTPRequest_config (hostlib.ssrfAllowPrivate ctx') opts req in
  http.ssrfProtection cfg = true
  /\ (setsSSRF opts = false ->
      http.allowPrivate cfg = hostlib.AllowsPrivateNetwork c p).
Proof.
  intros Hp Hin cfg. subst cfg.
  pose proof (CapabilityMiddleware_shape ctx payload) as H.
  cbv zeta in H. rewrite Hp in H.
  assert (Hctx : ssrfAllowPrivate ctx' = Some (AllowsPrivateNetwork c p)).
  { destruct H as [(evs0 & Hout & Hn & _)|(msg & evs0 & Hout & Hn & _)];
      rewrite Hout in Hin; cbn [snd] in Hin.
    - change (EvAllowsPrivateNetwork p :: evs0 ++ ?l)%list
        with ([EvAllowsPrivateNetwork p] ++ evs0 ++ l)%list in Hin.
      rewrite !nextCalls_app, Hn in Hin. cbn in Hin.
      destruct Hin as [[= <- <-]|[]]. reflexivity.
    - change (EvAllowsPrivateNetwork p :: evs0)
        with ([EvAllowsPrivateNetwork p] ++ evs0)%list in Hin.
      rewrite nextCalls_app, Hn in Hin. destruct Hin. }
  rewrite Hctx. unfold http.PerformHTTPRequest_config.
  destruct (applyRequestConfig_fields req
              (fold_left (fun c0 opt => http.applyOption opt c0) opts
                 (http.applyOption
                    (http.WithHTTPSSRFProtection (AllowsPrivateNetwork c p))
                    http.defaultHTTPConfig)))
    as (_ & E2 & E3 & _).
  rewrite E2, E3.
  destruct (applyOptions_ssrf opts
              (http.applyOption
                 (http.WithHTTPSSRFProtection (AllowsPrivateNetwork c p))
                 http.defaultHTTPConfig) eq_refl) as [Hprot Hallow].
  split; [exact Hprot|]. intros Hs. now rewrite (Hallow Hs).
Qed.

End MoreMiddleware.

(** ** The gatekeeper and the grant store *)

Section GatekeeperStore.

Import hostfunc capability gatekeeper.

Context {ops : GrantSetOps}.
Variable g : Gatekeeper.

Lemma storeCalls_app (xs ys : list Event) :
  storeCalls (xs ++ ys) = (storeCalls xs ++ storeCalls ys)%list.
Proof. unfold storeCalls. apply List.filter_app. Qed.

(** One request: the store is not touched, and the save flag is raised
    only by an answer "always" of the prompter, which is not asked under
    the permissive level. *)
Lemma grantOrDeny_store (st : PromptState) (req : Request)
  (gs toMerge : GrantSet) (denied : string) :
  let out := grantOrDeny g st req gs toMerge denied in
  storeCalls (events (snd out)) = storeCalls (events st)
  /\ (securityLevel g = SecurityPermissive \/ neverAlways (prompter g) ->
      shouldSave (snd out) = shouldSave st).
Proof.
  unfold grantOrDeny, evaluateWithSecurityLevel.
  destruct (String.eqb_spec (securityLevel g) SecurityPermissive) as [Hp|Hp].
  - destruct (IsBroad req);
      [destruct (String.eqb (securityLevel g) SecurityStrict)|];
      cbn; rewrite ?app_nil_r; auto.
  - pose proof (fun H : neverAlways (prompter g) => H (events st) req) as Hna.
    destruct (PromptForCapability (prompter g) (events st) req)
      as [[granted always] err].
    cbn [fst snd] in Hna.
    assert (Hflag : securityLevel g = SecurityPermissive
                    \/ neverAlways (prompter g) -> always = false).
    { intros [H|H]; [contradiction|now apply Hna]. }
    destruct (IsBroad req);
      [destruct (String.eqb (securityLevel g) SecurityStrict)|];
      destruct err as [e|]; try destruct granted; cbn [fst snd events shouldSave];
      rewrite ?storeCalls_app, ?app_nil_r; cbn [storeCalls List.filter];
      rewrite ?app_nil_r; (split; [reflexivity|]); intros H;
      try reflexivity; now rewrite (Hflag H).
Qed.

Lemma runItems_store (items : list PromptItem) :
  forall st,
    let out := runItems g items st in
    storeCalls (events (snd out)) = storeCalls (events st)
    /\ (securityLevel g = SecurityPermissive \/ neverAlways (prompter g) ->
        shouldSave (snd out) = shouldSave st).
Proof.
  induction items as [|it items IH]; intros st; [cbn; auto|].
  cbv zeta. rewrite runItems_cons.
  pose proof (grantOrDeny_store st (itemRequest it) (itemGrant it)
                (itemGrant it) (itemDenied it)) as H1.
  cbv zeta in H1.
  destruct (grantOrDeny g st _ _ _ _) as [[e|] st1]; cbn [snd] in H1;
    [exact H1|].
  specialize (IH st1). cbv zeta in IH. destruct H1 as [Hs1 Hf1].
  destruct IH as [Hs Hf]. split; [congruence|].
  intros H. rewrite (Hf H). now apply Hf1.
Qed.

(** X20: what [GrantCapabilities] does with the grant store.  It loads
    at most once and saves at most once, after the last prompt; a grant
    set is saved only if it is the very set the call returns, so a call
    that ends in an error - a denial after earlier "always" answers
    included - saves nothing; and nothing is saved under the permissive
    level, with a prompter that is not interactive, or when no answer
    was "always".  A failing save does not fail the call. *)
Theorem GrantCapabilities_persistence (required : option hostfunc.GrantSet)
  (trustAll : bool) :
  let out := gatekeeper.GrantCapabilities g required trustAll in
  (gatekeeper.storeCalls (snd out) = []
   \/ gatekeeper.storeCalls (snd out) = [gatekeeper.EvStoreLoad]
   \/ exists gs,
        fst out = Ok gs
        /\ (gatekeeper.storeCalls (snd out)
            = [gatekeeper.EvStoreLoad; gatekeeper.EvStoreSave gs]
            \/ gatekeeper.storeCalls (snd out)
               = [gatekeeper.EvStoreLoad; gatekeeper.EvStoreSave gs;
                  gatekeeper.EvStoreConfigPath]))
  /\ (forall gs, In (gatekeeper.EvStoreSave gs) (snd out) -> fst out = Ok gs)
  /\ (gatekeeper.securityLevel g = gatekeeper.SecurityPermissive
      \/ neverAlways (gatekeeper.prompter g)
      \/ gatekeeper.IsInteractive (gatekeeper.prompter g) = false ->
      forall gs, ~ In (gatekeeper.EvStoreSave gs) (snd out)).
Proof.
  intros out.
  assert (Hin : forall gs evs,
            In (EvStoreSave gs) evs -> In (EvStoreSave gs) (storeCalls evs)).
  { intros gs evs H. unfold storeCalls. apply List.filter_In. auto. }
  assert (Hmain :
    (storeCalls (snd out) = [] \/ storeCalls (snd out) = [EvStoreLoad])
    \/ (exists gs,
          fst out = Ok gs
          /\ (storeCalls (snd out) = [EvStoreLoad; EvStoreSave gs]
              \/ storeCalls (snd out)
                 = [EvStoreLoad; EvStoreSave gs; EvStoreConfigPath])
          /\ IsInteractive (prompter g) = true
          /\ ~ (securityLevel g = SecurityPermissive
                \/ neverAlways (prompter g)))).
  { subst out. unfold GrantCapabilities.
    destruct required as [required|]; [|left; now left].
    destruct (IsEmpty required); [left; now left|].
    destruct trustAll; [left; now left|].
    destruct (IsEmpty (Difference required _)); [left; now right|].
    destruct (IsInteractive (prompter g)) eqn:Hint; cbn [negb];
      [|left; now right].
    rewrite promptForCapabilities_runItems.
    pose proof (runItems_store (promptItems (Deduplicate (Difference required
                  match Load (store g) with
                  | Ok grants => grants
                  | Err _ => emptyGrantSet
                  end)))
                  (mkPromptState
                     (Clone match Load (store g) with
                            | Ok grants => grants
                            | Err _ => emptyGrantSet
                            end) false [EvStoreLoad; EvIsInteractive]))
      as [Hs Hf].
    destruct (runItems g _ _) as [[e|] st]; cbn [snd events] in Hs, Hf.
    - left. right. exact Hs.
    - destruct (shouldSave st) eqn:Hsave; [|left; right; exact Hs].
      right. exists (newGrants st).
      destruct (Save (store g) (newGrants st)); cbn [fst snd];
        rewrite storeCalls_app, Hs; (split; [reflexivity|]);
        (split; [auto|]); (split; [reflexivity|]);
        intros H; specialize (Hf H); discriminate. }
  split; [|split].
  - destruct Hmain as [[H|H]|(gs & Hok & Hs & _)]; auto.
    right. right. now exists gs.
  - intros gs H. apply Hin in H.
    destruct Hmain as [[Hs|Hs]|(gs' & Hok & Hs & _)].
    + rewrite Hs in H. destruct H.
    + rewrite Hs in H. destruct H as [H|[]]. discriminate.
    + destruct Hs as [Hs|Hs]; rewrite Hs in H; cbn in H;
        destruct H as [H|[H|H]]; try discriminate; try contradiction.
      * now injection H as <-.
      * now injection H as <-.
      * destruct H as [H|[]]. discriminate.
  - intros Hcond gs H. apply Hin in H.
    destruct Hmain as [[Hs|Hs]|(gs' & _ & _ & Hint & Hnot)].
    + rewrite Hs in H. destruct H.
    + rewrite Hs in H. destruct H as [H|[]]. discriminate.
    + destruct Hcond as [Hc|[Hc|Hc]]; [apply Hnot; now left
                                       |apply Hnot; now right|congruence].
Qed.

End GatekeeperStore.

(** ** Cleaned paths *)

Section CleanFacts.

Import filepath.

Lemma sapp_nil_r (s : string) : s +:+ "" = s.
Proof. induction s as [|x s IH]; [reflexivity|]. now rewrite append_cons, IH. Qed.

Lemma sapp_assoc (a b c : string) : (a +:+ b) +:+ c = a +:+ (b +:+ c).
Proof.
  induction a as [|x a IH]; [reflexivity|]. now rewrite !append_cons, IH.
Qed.

Lemma sapp_cancel_l (x a b : string) : x +:+ a = x +:+ b -> a = b.
Proof.
  induction x as [|c x IH]; [now rewrite !append_nil|].
  rewrite !append_cons. intros [= H]. now apply IH.
Qed.

Lemma HasPrefix_app (a b : string) : strings.HasPrefix (a +:+ b) a = true.
Proof.
  induction a as [|x a IH]; [apply HasPrefix_empty|].
  rewrite append_cons. cbn. now rewrite Ascii.eqb_refl.
Qed.

Lemma HasPrefix_slash (t : string) : strings.HasPrefix ("/" +:+ t) "/" = true.
Proof.
  change ("/" +:+ t) with (String "/" t). cbn [strings.HasPrefix].
  rewrite Ascii.eqb_refl. apply HasPrefix_empty.
Qed.

(** *** Splitting and joining *)

Lemma SplitByte_app (sep : ascii) (a b : string) :
  strings.SplitByte sep (a +:+ String sep b)
  = (strings.SplitByte sep a ++ strings.SplitByte sep b)%list.
Proof.
  induction a as [|x a IH].
  - rewrite append_nil. cbn. now rewrite Ascii.eqb_refl.
  - rewrite append_cons. cbn [strings.SplitByte]. rewrite IH.
    destruct (Ascii.eqb x sep); [reflexivity|].
    pose proof (SplitByte_not_nil sep a) as Hne.
    destruct (strings.SplitByte sep a) as [|h r]; [contradiction|reflexivity].
Qed.

Lemma Join_cons2 (e e' : string) (rest : list string) (sep : string) :
  strings.Join (e :: e' :: rest) sep
  = e +:+ sep +:+ strings.Join (e' :: rest) sep.
Proof. reflexivity. Qed.

Lemma Join_SplitByte (sep : ascii) (s : string) :
  strings.Join (strings.SplitByte sep s) (String sep "") = s.
Proof.
  induction s as [|x s IH]; [reflexivity|].
  cbn [strings.SplitByte].
  pose proof (SplitByte_not_nil sep s) as Hne.
  destruct (Ascii.eqb_spec x sep) as [->|Hx].
  - destruct (strings.SplitByte sep s) as [|h r]; [contradiction|].
    rewrite Join_cons2, IH. reflexivity.
  - destruct (strings.SplitByte sep s) as [|h [|h' r]]; [contradiction|..].
    + cbn in *. now rewrite IH.
    + rewrite Join_cons2 in *. rewrite append_cons, IH. reflexivity.
Qed.

Lemma SplitByte_Join (sep : ascii) (l : list string) :
  l <> [] ->
  Forall (fun e => strings.Contains e (String sep "") = false) l ->
  strings.SplitByte sep (strings.Join l (String sep "")) = l.
Proof.
  induction l as [|e [|e' rest] IH]; intros Hne Hall; [contradiction|..].
  - inversion Hall; subst. now apply SplitByte_no_sep.
  - inversion Hall as [|? ? He Hrest]; subst. rewrite Join_cons2.
    change (String sep "" +:+ ?t) with (String sep t).
    rewrite (SplitByte_app_sep _ _ _ He). f_equal.
    apply IH; [discriminate|exact Hrest].
Qed.

Lemma Join_app (xs ys : list string) (sep : string) :
  xs <> [] -> ys <> [] ->
  strings.Join (xs ++ ys) sep
  = strings.Join xs sep +:+ sep +:+ strings.Join ys sep.
Proof.
  intros Hx Hy. induction xs as [|e [|e' rest] IH]; [contradiction|..].
  - destruct ys as [|y ys]; [contradiction|]. reflexivity.
  - cbn [app] in *. rewrite !Join_cons2, IH by discriminate.
    now rewrite !sapp_assoc.
Qed.

Lemma Join_snoc (l : list string) (a : string) :
  strings.Join (l ++ [a]) "/"
  = (match l with [] => "" | _ => strings.Join l "/" +:+ "/" end) +:+ a.
Proof.
  destruct l as [|e l]; [reflexivity|].
  rewrite Join_app by discriminate. now rewrite sapp_assoc.
Qed.

(** A joined list opens with its first element. *)
Lemma Join_head (e : string) (rest : list string) :
  exists t, strings.Join (e :: rest) "/" = e +:+ t
            /\ (t = "" \/ strings.HasPrefix t "/" = true).
Proof.
  destruct rest as [|e' rest].
  - exists "". cbn. rewrite sapp_nil_r. auto.
  - eexists. rewrite Join_cons2. split; [reflexivity|]. right.
    apply HasPrefix_slash.
Qed.

(** *** The element loop *)

Lemma cleanElems_app (rooted : bool) (xs ys out : list string) :
  cleanElems rooted (xs ++ ys) out
  = cleanElems rooted ys (cleanElems rooted xs out).
Proof.
  revert out. induction xs as [|e xs IH]; intros out; [reflexivity|].
  cbn [app cleanElems].
  destruct (String.eqb e "" || String.eqb e "."); [apply IH|].
  destruct (String.eqb e "..").
  - destruct out as [|top below]; [destruct rooted; apply IH|].
    destruct (String.eqb top ".."); apply IH.
  - apply IH.
Qed.

Lemma normalElem_eqb (e : string) :
  normalElem e ->
  String.eqb e "" = false /\ String.eqb e "." = false
  /\ String.eqb e ".." = false.
Proof.
  intros (H1 & H2 & H3 & _).
  repeat split; now apply String.eqb_neq.
Qed.

Lemma cleanElems_normal (rooted : bool) (ys out : list string) :
  Forall normalElem ys ->
  cleanElems rooted ys out = (rev ys ++ out)%list.
Proof.
  revert out. induction ys as [|e ys IH]; intros out H; [reflexivity|].
  inversion H as [|? ? He Hys]; subst.
  destruct (normalElem_eqb e He) as (E1 & E2 & E3).
  cbn [cleanElems rev]. rewrite E1, E2, E3. cbn [orb].
  rewrite (IH _ Hys), <- app_assoc. reflexivity.
Qed.

Lemma cleanElems_dotdots (ds out : list string) :
  Forall (fun e => e = "..") ds ->
  Forall (fun e => e = "..") out ->
  cleanElems false ds out = (rev ds ++ out)%list.
Proof.
  revert out. induction ds as [|e ds IH]; intros out Hd Ho; [reflexivity|].
  inversion Hd as [|? ? He Hds]; subst. cbn [cleanElems rev String.eqb].
  cbn. rewrite <- app_assoc. cbn [app].
  destruct out as [|top below].
  - apply IH; [exact Hds|]. constructor; [reflexivity|constructor].
  - inversion Ho as [|? ? Ht Hb]; subst. cbn.
    apply IH; [exact Hds|]. constructor; [reflexivity|exact Ho].
Qed.

Lemma cleanStack_nil (rooted : bool) : cleanStack rooted [].
Proof. exists [], []. repeat split; auto. Qed.

Lemma cleanStack_push (rooted : bool) (stack : list string) (e : string) :
  cleanStack rooted stack -> normalElem e -> cleanStack rooted (e :: stack).
Proof.
  intros (ns & ds & -> & Hn & Hd & Hr) He.
  exists (e :: ns), ds. repeat split; auto.
Qed.

Lemma cleanStack_push_all (rooted : bool) (ys stack : list string) :
  cleanStack rooted stack -> Forall normalElem ys ->
  cleanStack rooted (rev ys ++ stack).
Proof.
  revert stack. induction ys as [|e ys IH]; intros stack Hs Hy; [exact Hs|].
  inversion Hy; subst. cbn [rev]. rewrite <- app_assoc. cbn [app].
  apply IH; [|assumption]. now apply cleanStack_push.
Qed.

Lemma cleanElems_shape (rooted : bool) (elems : list string) :
  Forall (fun e => strings.Contains e "/" = false) elems ->
  forall out, cleanStack rooted out ->
              cleanStack rooted (cleanElems rooted elems out).
Proof.
  induction elems as [|e elems IH]; intros Hall out Hout; [exact Hout|].
  inversion Hall as [|? ? He Hrest]; subst. cbn [cleanElems].
  destruct (String.eqb_spec e "") as [->|H1]; [now apply IH|].
  destruct (String.eqb_spec e ".") as [->|H2]; [now apply IH|]. cbn [orb].
  destruct (String.eqb_spec e "..") as [->|H3].
  - destruct Hout as (ns & ds & -> & Hn & Hd & Hr).
    destruct ns as [|n ns]; cbn [app].
    + destruct ds as [|d ds].
      * destruct rooted; apply IH; try exact Hrest;
          [apply cleanStack_nil|].
        exists [], [".."]. repeat split; auto. discriminate.
      * pose proof (List.Forall_inv Hd) as Hd1. cbv beta in Hd1. subst d.
        cbn. apply IH; [exact Hrest|].
        exists [], (".." :: ".." :: ds). repeat split; auto.
        intros ->. specialize (Hr eq_refl). discriminate.
    + inversion Hn as [|? ? Hn1 Hns]; subst.
      destruct (normalElem_eqb n Hn1) as (_ & _ & E3). rewrite E3.
      apply IH; [exact Hrest|]. exists ns, ds. auto.
  - apply IH; [exact Hrest|]. apply cleanStack_push; [exact Hout|].
    repeat split; assumption.
Qed.

Lemma cleanStack_no_slash (rooted : bool) (stack : list string) :
  cleanStack rooted stack ->
  Forall (fun e => strings.Contains e "/" = false) stack.
Proof.
  intros (ns & ds & -> & Hn & Hd & _). apply List.Forall_app. split.
  - eapply List.Forall_impl; [|exact Hn]. now intros e (_ & _ & _ & H).
  - eapply List.Forall_impl; [|exact Hd]. now intros e ->.
Qed.

(** Cleaning the elements of a stack at rest gives the stack again. *)
Lemma cleanElems_rev_stack (rooted : bool) (stack : list string) :
  cleanStack rooted stack ->
  cleanElems rooted (rev stack) [] = stack.
Proof.
  intros (ns & ds & -> & Hn & Hd & Hr).
  rewrite rev_app_distr, cleanElems_app.
  assert (H1 : cleanElems rooted (rev ds) [] = ds).
  { destruct rooted.
    - rewrite (Hr eq_refl). reflexivity.
    - rewrite cleanElems_dotdots; [now rewrite rev_involutive, app_nil_r
                                   |now apply List.Forall_rev|constructor]. }
  rewrite H1, cleanElems_normal by now apply List.Forall_rev.
  now rewrite rev_involutive.
Qed.

(** *** [Clean] on the paths it prints *)

Lemma first_char_not_slash (e : string) :
  e <> "" -> strings.Contains e "/" = false ->
  forall t, strings.HasPrefix (e +:+ t) "/" = false.
Proof.
  intros Hne Hc t. destruct e as [|a e]; [contradiction|].
  rewrite Contains_byte_cons in Hc. apply orb_false_iff in Hc as [Ha _].
  rewrite append_cons. cbn [strings.HasPrefix]. now rewrite Ha.
Qed.

Lemma cleanStack_last_nonempty (rooted : bool) (stack : list string) :
  cleanStack rooted stack ->
  Forall (fun e => e <> "" /\ strings.Contains e "/" = false) stack.
Proof.
  intros (ns & ds & -> & Hn & Hd & _). apply List.Forall_app. split.
  - eapply List.Forall_impl; [|exact Hn]. now intros e (H & _ & _ & H').
  - eapply List.Forall_impl; [|exact Hd]. intros e ->. split; [discriminate|reflexivity].
Qed.

(** What [Clean] reads back from a path it printed. *)
Lemma render_read (rooted : bool) (stack : list string) :
  cleanStack rooted stack ->
  render rooted stack <> ""
  /\ strings.HasPrefix (render rooted stack) "/" = rooted
  /\ cleanElems rooted (strings.SplitByte "/" (render rooted stack)) []
     = stack.
Proof.
  intros Hs. pose proof (cleanElems_rev_stack rooted stack Hs) as Hrev.
  pose proof (cleanStack_last_nonempty rooted stack Hs) as Hne.
  apply List.Forall_rev in Hne.
  assert (Hslash : Forall (fun e => strings.Contains e "/" = false)
                     (rev stack)).
  { eapply List.Forall_impl; [|exact Hne]. now intros e [_ H]. }
  unfold render. destruct rooted.
  - split; [discriminate|]. split; [apply HasPrefix_slash|].
    change ("/" +:+ ?t) with (String "/" t). cbn [strings.SplitByte].
    rewrite Ascii.eqb_refl.
    destruct (rev stack) as [|e out] eqn:Hout.
    + cbn. apply (f_equal (@rev string)) in Hout.
      rewrite rev_involutive in Hout. now subst stack.
    + rewrite SplitByte_Join by (discriminate || exact Hslash).
      cbn [cleanElems String.eqb orb]. exact Hrev.
  - destruct (rev stack) as [|e out] eqn:Hout.
    + split; [discriminate|]. split; [reflexivity|]. cbn.
      apply (f_equal (@rev string)) in Hout.
      rewrite rev_involutive in Hout. now subst stack.
    + inversion Hne as [|? ? [He1 He2] _]; subst.
      destruct (Join_head e out) as (t & Hj & _). rewrite Hj.
      split; [destruct e; [contradiction|discriminate]|].
      split; [now apply first_char_not_slash|].
      rewrite <- Hj, SplitByte_Join by (discriminate || exact Hslash).
      reflexivity.
Qed.

Lemma Clean_nonempty (x : string) :
  x <> "" ->
  Clean x = render (strings.HasPrefix x "/")
              (cleanElems (strings.HasPrefix x "/")
                 (strings.SplitByte "/" x) []).
Proof.
  intros Hx. unfold Clean, render.
  destruct (String.eqb_spec x ""); [contradiction|].
  destruct (strings.HasPrefix x "/"); [reflexivity|].
  cbv zeta. destruct (rev _); reflexivity.
Qed.

(** Every cleaned path is the print of a stack at rest. *)
Lemma Clean_shape (x : string) :
  exists rooted stack,
    cleanStack rooted stack /\ Clean x = render rooted stack.
Proof.
  destruct (String.eqb_spec x "") as [->|Hx].
  - exists false, []. split; [apply cleanStack_nil|reflexivity].
  - eexists _, _. split; [|now apply Clean_nonempty].
    apply cleanElems_shape; [apply SplitByte_elems|apply cleanStack_nil].
Qed.

Lemma Clean_render (rooted : bool) (stack : list string) :
  cleanStack rooted stack ->
  Clean (render rooted stack) = render rooted stack.
Proof.
  intros Hs. destruct (render_read rooted stack Hs) as (Hne & Hp & Hc).
  rewrite (Clean_nonempty _ Hne), Hp, Hc. reflexivity.
Qed.

Lemma Clean_idempotent (x : string) : Clean (Clean x) = Clean x.
Proof.
  destruct (Clean_shape x) as (rooted & stack & Hs & ->).
  now apply Clean_render.
Qed.

(** Cleaning a printed path with further elements appended. *)
Lemma Clean_render_app (rooted : bool) (stack : list string) (s : string) :
  cleanStack rooted stack ->
  Clean (render rooted stack +:+ String "/" s)
  = render rooted
      (cleanElems rooted (strings.SplitByte "/" s) stack).
Proof.
  intros Hs. destruct (render_read rooted stack Hs) as (Hne & Hp & Hc).
  assert (Hne' : render rooted stack +:+ String "/" s <> "").
  { destruct (render rooted stack); [contradiction|discriminate]. }
  assert (Hp' : strings.HasPrefix (render rooted stack +:+ String "/" s) "/"
                = rooted).
  { destruct (render rooted stack) as [|a t]; [contradiction|].
    rewrite append_cons. cbn [strings.HasPrefix] in *.
    now rewrite HasPrefix_empty in *. }
  rewrite (Clean_nonempty _ Hne'), Hp', SplitByte_app, cleanElems_app, Hc.
  reflexivity.
Qed.

Lemma render_snoc (rooted : bool) (stack : list string) (a : string) :
  exists pfx, forall b, render rooted (b :: stack) = pfx +:+ b.
Proof.
  unfold render. cbn [rev]. destruct rooted.
  - eexists. intros b. rewrite Join_snoc, <- sapp_assoc. reflexivity.
  - eexists. intros b.
    destruct (rev stack ++ [b])%list eqn:E;
      [now destruct (rev stack)|].
    rewrite <- E, Join_snoc. reflexivity.
Qed.

Lemma render_push_all (rooted : bool) (stack ys : list string) :
  stack <> [] -> ys <> [] ->
  render rooted (rev ys ++ stack)
  = render rooted stack +:+ "/" +:+ strings.Join ys "/".
Proof.
  intros Hs Hy. unfold render.
  rewrite rev_app_distr, rev_involutive.
  assert (Hr : rev stack <> []).
  { intros H. apply (f_equal (@rev string)) in H.
    rewrite rev_involutive in H. now subst. }
  destruct rooted.
  - rewrite Join_app by assumption. now rewrite sapp_assoc.
  - destruct (rev stack) as [|e out] eqn:E; [contradiction|].
    cbn [app]. change (e :: (out ++ ys))%list with ((e :: out) ++ ys)%list.
    now rewrite Join_app by (discriminate || assumption).
Qed.

(** A printed path does not open with ["//"] or ["./"]. *)
Lemma render_prefixes (rooted : bool) (stack : list string) :
  cleanStack rooted stack ->
  strings.HasPrefix (render rooted stack) "//" = false
  /\ strings.HasPrefix (render rooted stack) "./" = false.
Proof.
  intros Hs. pose proof (cleanStack_last_nonempty rooted stack Hs) as Hne.
  apply List.Forall_rev in Hne.
  assert (Hfirst : forall e out, rev stack = e :: out ->
                                 e = ".." \/ normalElem e).
  { intros e out E. destruct Hs as (ns & ds & -> & Hn & Hd & _).
    rewrite rev_app_distr in E.
    assert (Hin : In e (rev ds ++ rev ns)) by (rewrite E; now left).
    apply in_app_or in Hin as [Hin|Hin]; apply in_rev in Hin.
    - left. rewrite List.Forall_forall in Hd. now apply Hd.
    - right. rewrite List.Forall_forall in Hn. now apply Hn. }
  unfold render. destruct rooted.
  - split; [|reflexivity].
    change ("/" +:+ ?t) with (String "/" t). cbn [strings.HasPrefix].
    rewrite Ascii.eqb_refl.
    destruct (rev stack) as [|e out] eqn:E; [reflexivity|].
    inversion Hne as [|? ? [He1 He2] _]; subst.
    destruct (Join_head e out) as (t & -> & _).
    now apply first_char_not_slash.
  - destruct (rev stack) as [|e out] eqn:E; [split; reflexivity|].
    inversion Hne as [|? ? [He1 He2] _]; subst.
    destruct (Join_head e out) as (t & -> & Ht). split.
    + destruct e as [|a e]; [contradiction|].
      rewrite Contains_byte_cons in He2.
      apply orb_false_iff in He2 as [Ha _].
      rewrite append_cons. cbn [strings.HasPrefix]. now rewrite Ha.
    + destruct (Hfirst e out eq_refl) as [->|(_ & Hdot & _ & _)].
      * reflexivity.
      * destruct e as [|a [|b e]]; [contradiction|..].
        -- destruct (Ascii.eqb_spec "." a) as [<-|Hn];
             [contradiction|].
           rewrite append_cons. cbn [strings.HasPrefix].
           destruct (Ascii.eqb_spec "." a); [contradiction|reflexivity].
        -- rewrite !append_cons. cbn [strings.HasPrefix].
           destruct (Ascii.eqb "." a); [|reflexivity].
           rewrite !Contains_byte_cons in He2.
           apply orb_false_iff in He2 as [_ He2].
           apply orb_false_iff in He2 as [Hb _]. now rewrite Hb.
Qed.

End CleanFacts.

(** ** Plugin paths: which references a repository takes *)

Section MorePluginPath.

Import filepath repository.

Lemma Join2 (a b : string) :
  filepath.Join [a; b]
  = if String.eqb a "" then (if String.eqb b "" then "" else Clean b)
    else Clean (a +:+ String "/" b).
Proof.
  cbn [filepath.Join]. destruct (String.eqb a ""); [|reflexivity].
  destruct (String.eqb b ""); reflexivity.
Qed.

(** Printing is one-to-one on stacks at rest. *)
Lemma render_inj (r1 r2 : bool) (s1 s2 : list string) :
  cleanStack r1 s1 -> cleanStack r2 s2 ->
  render r1 s1 = render r2 s2 -> r1 = r2 /\ s1 = s2.
Proof.
  intros H1 H2 E.
  destruct (render_read r1 s1 H1) as (_ & Hp1 & Hc1).
  destruct (render_read r2 s2 H2) as (_ & Hp2 & Hc2).
  rewrite E in Hp1, Hc1.
  assert (r1 = r2) as -> by congruence. split; congruence.
Qed.

Lemma cleanElems_skip (rooted : bool) (ys out : list string) :
  Forall (fun e => e = "" \/ e = ".") ys ->
  cleanElems rooted ys out = out.
Proof.
  induction ys as [|e ys IH]; intros H; [reflexivity|].
  inversion H as [|? ? He Hys]; subst. cbn [cleanElems].
  destruct He as [-> | ->]; cbn; now apply IH.
Qed.

(** The root and the joined path, as stacks: the elements of the printed
    reference are worked off on top of the stack of the root. *)
Lemma fullPath_stack (root refStr : string) :
  strings.HasPrefix refStr "/" = false ->
  exists rooted stackR,
    cleanStack rooted stackR
    /\ Clean root = render rooted stackR
    /\ Clean (filepath.Join [root; refStr])
       = render rooted
           (cleanElems rooted (strings.SplitByte "/" refStr) stackR).
Proof.
  intros Hrel. rewrite Join2.
  destruct (String.eqb_spec root "") as [->|Hroot].
  - exists false, []. split; [apply cleanStack_nil|]. split; [reflexivity|].
    destruct (String.eqb_spec refStr "") as [->|Href]; [reflexivity|].
    rewrite Clean_idempotent, (Clean_nonempty _ Href), Hrel. reflexivity.
  - exists (strings.HasPrefix root "/"),
      (cleanElems (strings.HasPrefix root "/") (strings.SplitByte "/" root) []).
    assert (Hs : cleanStack (strings.HasPrefix root "/")
                   (cleanElems (strings.HasPrefix root "/")
                      (strings.SplitByte "/" root) [])).
    { apply cleanElems_shape; [apply SplitByte_elems|apply cleanStack_nil]. }
    split; [exact Hs|]. split; [now apply Clean_nonempty|].
    rewrite Clean_idempotent.
    assert (Hne : root +:+ String "/" refStr <> "").
    { destruct root; [contradiction|discriminate]. }
    assert (Hp : strings.HasPrefix (root +:+ String "/" refStr) "/"
                 = strings.HasPrefix root "/").
    { destruct root as [|a t]; [contradiction|].
      rewrite append_cons. cbn [strings.HasPrefix].
      now rewrite !HasPrefix_empty. }
    rewrite (Clean_nonempty _ Hne), Hp, SplitByte_app, cleanElems_app.
    reflexivity.
Qed.

Lemma pluginPath_unfold (r : FSPluginRepository) (ref : values.PluginReference) :
  strings.HasPrefix (values.String_ ref) "/" = false ->
  pluginPath r ref
  = let cleanPath := Clean (filepath.Join [root r; values.String_ ref]) in
    if negb (strings.HasPrefix cleanPath (Clean (root r) +:+ "/"))
       && negb (String.eqb cleanPath (Clean (root r)))
    then Err (ErrSecurityPathTraversal (values.String_ ref))
    else Ok cleanPath.
Proof.
  intros H. unfold pluginPath, IsAbs, PathSeparator. now rewrite H.
Qed.

Lemma normal_not_abs (refStr : string) :
  Forall normalElem (strings.SplitByte "/" refStr) ->
  strings.HasPrefix refStr "/" = false.
Proof.
  intros H. destruct refStr as [|a t]; [reflexivity|].
  cbn [strings.HasPrefix]. rewrite HasPrefix_empty.
  destruct (Ascii.eqb_spec "/" a) as [<-|]; [|reflexivity].
  cbn [strings.SplitByte] in H. rewrite Ascii.eqb_refl in H.
  inversion H as [|? ? (Hne & _) _]. contradiction.
Qed.

Lemma root_stack_nil (rooted : bool) (stackR : list string) :
  cleanStack rooted stackR ->
  (render rooted stackR = "/" \/ render rooted stackR = ".") <-> stackR = [].
Proof.
  intros Hs. split.
  - intros [H|H].
    + apply (render_inj rooted true stackR []); auto using cleanStack_nil.
    + apply (render_inj rooted false stackR []); auto using cleanStack_nil.
  - intros ->. destruct rooted; [now left|now right].
Qed.

(** X21: a reference whose printed form is made of ordinary path
    elements - none empty, ["."] or [".."] - is taken exactly when the
    root does not clean to ["/"] or ["."]: then its path is the cleaned
    root, a slash, and the printed reference.  A repository whose root
    cleans to ["/"] or ["."] (the file-system root, the current
    directory) rejects every such reference as a path traversal, and
    whatever reference it does take resolves to the root itself. *)
Theorem pluginPath_ordinary (r : repository.FSPluginRepository)
  (ref : values.PluginReference) :
  let cleanRoot := filepath.Clean (repository.root r) in
  (Forall normalElem (strings.SplitByte "/" (values.String_ ref)) ->
   repository.pluginPath r ref
   = if String.eqb cleanRoot "/" || String.eqb cleanRoot "."
     then Err (repository.ErrSecurityPathTraversal (values.String_ ref))
     else Ok (cleanRoot +:+ "/" +:+ values.String_ ref))
  /\ (cleanRoot = "/" \/ cleanRoot = "." ->
      forall p, repository.pluginPath r ref = Ok p -> p = cleanRoot).
Proof.
  intros cleanRoot. subst cleanRoot. split.
  - intros Hnormal.
    pose proof (normal_not_abs _ Hnormal) as Hrel.
    rewrite (pluginPath_unfold r ref Hrel). cbv zeta.
    destruct (fullPath_stack (root r) (values.String_ ref) Hrel)
      as (rooted & stackR & Hs & Hroot & Hfull).
    rewrite (cleanElems_normal _ _ _ Hnormal) in Hfull.
    rewrite Hfull, Hroot.
    assert (Hs' : cleanStack rooted
                    (rev (strings.SplitByte "/" (values.String_ ref))
                     ++ stackR)).
    { now apply cleanStack_push_all. }
    assert (Hys : strings.SplitByte "/" (values.String_ ref) <> [])
      by apply SplitByte_not_nil.
    assert (Hneq : render rooted
                     (rev (strings.SplitByte "/" (values.String_ ref))
                      ++ stackR) <> render rooted stackR).
    { intros E. apply render_inj in E as [_ E]; [|assumption..].
      apply (f_equal (@length string)) in E.
      rewrite length_app, length_rev in E.
      destruct (strings.SplitByte "/" (values.String_ ref));
        [contradiction|cbn in E; lia]. }
    destruct stackR as [|top below].
    + (* the root cleans to "/" or "." *)
      destruct (render_prefixes rooted _ Hs') as [H1 H2].
      rewrite app_nil_r in *.
      destruct rooted.
      * change (render true []) with "/" in *.
        change ("/" +:+ "/") with "//". rewrite H1. cbn [negb andb].
        destruct (String.eqb_spec
                    (render true
                       (rev (strings.SplitByte "/" (values.String_ ref))))
                    "/"); [contradiction|reflexivity].
      * change (render false []) with "." in *.
        change ("." +:+ "/") with "./". rewrite H2. cbn [negb andb].
        destruct (String.eqb_spec
                    (render false
                       (rev (strings.SplitByte "/" (values.String_ ref))))
                    "."); [contradiction|reflexivity].
    + rewrite render_push_all by (discriminate || assumption).
      rewrite Join_SplitByte.
      assert (Hnot : String.eqb (render rooted (top :: below)) "/"
                     || String.eqb (render rooted (top :: below)) "."
                     = false).
      { apply orb_false_iff.
        split; apply String.eqb_neq; intros E;
          assert (Hnil : top :: below = [])
            by (apply (root_stack_nil rooted); [exact Hs|auto]);
          discriminate. }
      rewrite Hnot.
      rewrite <- (sapp_assoc (render rooted (top :: below)) "/"
                    (values.String_ ref)).
      now rewrite HasPrefix_app.
  - intros Hroot p. unfold pluginPath, IsAbs, PathSeparator.
    destruct (strings.HasPrefix (values.String_ ref) "/"); [discriminate|].
    destruct (Clean_shape (filepath.Join [root r; values.String_ ref]))
      as (rooted & stack & Hs & ->).
    destruct (render_prefixes rooted stack Hs) as [H1 H2].
    destruct Hroot as [-> | ->].
    + change ("/" +:+ "/") with "//". rewrite H1. cbn [negb andb].
      destruct (String.eqb_spec (render rooted stack) "/");
        [now intros [= <-]|discriminate].
    + change ("." +:+ "/") with "./". rewrite H2. cbn [negb andb].
      destruct (String.eqb_spec (render rooted stack) ".");
        [now intros [= <-]|discriminate].
Qed.

Lemma pluginPath_ordinary_witness :
  let ref := values.mkPluginReference "ghcr.io" "org" "repo" "file" "1.0" in
  repository.pluginPath (repository.mkFSPluginRepository "/var/cache/") ref
  = Ok "/var/cache/ghcr.io/org/repo/file:1.0"
  /\ repository.pluginPath (repository.mkFSPluginRepository "./") ref
     = Err (repository.ErrSecurityPathTraversal "ghcr.io/org/repo/file:1.0")
  /\ forall p,
       repository.pluginPath (repository.mkFSPluginRepository "./")
         (values.mkPluginReference "" "" "" "." "") = Ok p ->
       p = ".".
Proof.
  intros ref.
  assert (Hn : Forall normalElem
                 (strings.SplitByte "/" (values.String_ ref))).
  { vm_compute. repeat constructor; discriminate. }
  destruct (pluginPath_ordinary
              (repository.mkFSPluginRepository "/var/cache/") ref)
    as [H1 _].
  destruct (pluginPath_ordinary (repository.mkFSPluginRepository "./") ref)
    as [H2 _].
  destruct (pluginPath_ordinary (repository.mkFSPluginRepository "./")
              (values.mkPluginReference "" "" "" "." "")) as [_ H3].
  split; [exact (H1 Hn)|]. split; [exact (H2 Hn)|].
  intros p Hp. apply (H3 (or_intror eq_refl) p Hp).
Defined.

(** X22: a reference whose printed form holds nothing but empty and
    ["."] elements - the empty name and the name ["."], which
    [ParsePluginReference] accepts, among them - resolves to the
    repository root itself, and [Delete] of such a reference removes the
    whole root directory. *)
Theorem pluginPath_degenerate (fsOk : repository.FsOp -> bool)
  (r : repository.FSPluginRepository) (ref : values.PluginReference) :
  strings.HasPrefix (values.String_ ref) "/" = false ->
  Forall (fun e => e = "" \/ e = ".")
    (strings.SplitByte "/" (values.String_ ref)) ->
  repository.pluginPath r ref = Ok (filepath.Clean (repository.root r))
  /\ snd (repository.Delete fsOk r ref)
     = [repository.OpRemoveAll (filepath.Clean (repository.root r))]
  /\ (fsOk (repository.OpRemoveAll (filepath.Clean (repository.root r)))
      = true ->
      fst (repository.Delete fsOk r ref) = None).
Proof.
  intros Hrel Hdeg.
  assert (Hpath : pluginPath r ref = Ok (Clean (root r))).
  { rewrite (pluginPath_unfold r ref Hrel). cbv zeta.
    destruct (fullPath_stack (root r) (values.String_ ref) Hrel)
      as (rooted & stackR & Hs & Hroot & Hfull).
    rewrite (cleanElems_skip _ _ _ Hdeg) in Hfull.
    rewrite Hfull, <- Hroot, String.eqb_refl, andb_false_r. reflexivity. }
  split; [exact Hpath|]. unfold Delete. rewrite Hpath. cbn [fst snd].
  split; [reflexivity|]. now intros ->.
Qed.

Lemma pluginPath_degenerate_witness :
  exists ref,
    values.ParsePluginReference "." = Ok ref
    /\ snd (repository.Delete (fun _ => true)
              (repository.mkFSPluginRepository "/var/cache/plugins") ref)
       = [repository.OpRemoveAll "/var/cache/plugins"].
Proof.
  exists (values.mkPluginReference "" "" "" "." "").
  split; [reflexivity|].
  assert (H1 : strings.HasPrefix
                 (values.String_ (values.mkPluginReference "" "" "" "." ""))
                 "/" = false) by reflexivity.
  assert (H2 : Forall (fun e => e = "" \/ e = ".")
                 (strings.SplitByte "/"
                    (values.String_
                       (values.mkPluginReference "" "" "" "." "")))).
  { cbn. constructor; [now right|constructor]. }
  destruct (pluginPath_degenerate (fun _ => true)
              (repository.mkFSPluginRepository "/var/cache/plugins")
              (values.mkPluginReference "" "" "" "." "") H1 H2)
    as (_ & Hd & _).
  exact Hd.
Defined.

End MorePluginPath.

(** ** Storing a plugin and finding it again *)

Section StoreFind.

Import filepath repository.

Variable fsOk : FsOp -> bool.
Variable encode : values.PluginMetadata -> string.
Variable decode : string -> option values.PluginMetadata.

Lemma pluginPath_clean (r : FSPluginRepository) (ref : values.PluginReference)
  (path : string) :
  pluginPath r ref = Ok path ->
  exists rooted stack, cleanStack rooted stack /\ path = render rooted stack.
Proof.
  unfold pluginPath.
  destruct (IsAbs (values.String_ ref)); [discriminate|].
  destruct (Clean_shape (filepath.Join [root r; values.String_ ref]))
    as (rooted & stack & Hs & E).
  match goal with
  | |- context [if ?b then Err _ else _] => destruct b
  end; [discriminate|].
  intros [= <-]. now exists rooted, stack.
Qed.

(** A file in a cleaned directory. *)
Lemma Join_file (rooted : bool) (stack : list string) (name : string) :
  cleanStack rooted stack -> normalElem name ->
  filepath.Join [render rooted stack; name] = render rooted (name :: stack)
  /\ Clean (render rooted (name :: stack)) = render rooted (name :: stack).
Proof.
  intros Hs Hn. destruct (render_read rooted stack Hs) as (Hne & _ & _).
  split; [|apply Clean_render; now apply cleanStack_push].
  rewrite Join2.
  destruct (String.eqb_spec (render rooted stack) ""); [contradiction|].
  rewrite (Clean_render_app rooted stack name Hs).
  destruct Hn as (H1 & H2 & H3 & H4).
  rewrite (SplitByte_no_sep _ _ H4).
  rewrite (cleanElems_normal rooted [name] stack); [reflexivity|].
  constructor; [repeat split; assumption|constructor].
Qed.

Lemma normalElem_file (name : string) :
  name = "plugin.wasm" \/ name = "metadata.json" \/ name = "digest.txt" ->
  normalElem name.
Proof.
  intros [-> | [-> | ->]]; repeat split; (discriminate || reflexivity).
Qed.

(** The operations of a [Store] that succeeds. *)
Lemma Store_Ok (r : FSPluginRepository) (plugin : entities.Plugin)
  (wasm wasmPath : string) (ops : list FsOp) :
  Store fsOk r plugin wasm = (Ok wasmPath, ops) ->
  exists path,
    pluginPath r (entities.Reference plugin) = Ok path
    /\ wasmPath = filepath.Join [path; "plugin.wasm"]
    /\ ops
       = [OpMkdirAll path 488%Z;
          OpCreate (Clean (filepath.Join [path; "plugin.wasm"]));
          OpCopy (Clean (filepath.Join [path; "plugin.wasm"])) wasm;
          OpCreate (Clean (filepath.Join [path; "metadata.json"]));
          OpEncodeMetadata (Clean (filepath.Join [path; "metadata.json"]))
            (entities.Metadata plugin);
          OpClose (Clean (filepath.Join [path; "metadata.json"]));
          OpWriteFile (filepath.Join [path; "digest.txt"])
            (values.DigestString (entities.Digest plugin)) 384%Z;
          OpClose (Clean (filepath.Join [path; "plugin.wasm"]))].
Proof.
  unfold Store, saveMetadata, saveDigest.
  destruct (pluginPath r (entities.Reference plugin)) as [path|e];
    [|discriminate].
  repeat match goal with
         | |- context [if negb (fsOk ?op) then _ else _] =>
             destruct (fsOk op); cbn [negb]; [|discriminate]
         | |- context [if fsOk ?op then _ else _] =>
             destruct (fsOk op); [|discriminate]
         end.
  intros [= <- <-]. exists path. auto.
Qed.

(** X23: what [Store] writes, [Find] reads.  After a [Store] that
    succeeds - every file operation carried out on any file system -
    [Find] of the plugin's reference locates the binary at the path
    [Store] returned, holding the bytes given, with the metadata as
    stored if the JSON coding gives them back, and with the digest that
    [ParseDigest] reads from the printed digest: for a digest with
    algorithm ["sha256"] or ["sha512"], [Find] returns the very plugin
    stored; a plugin stored with another algorithm - the zero digest
    included - is stored without complaint and [Find] then fails or
    returns another digest. *)
Theorem Store_then_Find (r : repository.FSPluginRepository)
  (plugin : entities.Plugin) (wasm wasmPath : string)
  (ops : list repository.FsOp) (fs : repository.FS) :
  repository.Store fsOk r plugin wasm = (Ok wasmPath, ops) ->
  decode (encode (entities.Metadata plugin)) = Some (entities.Metadata plugin) ->
  let fs' := repository.applyOps encode fs ops in
  repository.files fs' !! wasmPath = Some wasm
  /\ repository.Find decode fs' r (entities.Reference plugin)
     = match values.ParseDigest (values.DigestString (entities.Digest plugin))
       with
       | Ok d =>
           Ok (entities.NewPlugin (entities.Reference plugin) d
                 (entities.Metadata plugin), wasmPath)
       | Err e => Err (repository.ErrParseDigest e)
       end
  /\ (values.algorithm (entities.Digest plugin) = "sha256"
      \/ values.algorithm (entities.Digest plugin) = "sha512" ->
      repository.Find decode fs' r (entities.Reference plugin)
      = Ok (plugin, wasmPath))
  /\ (values.algorithm (entities.Digest plugin) = "" ->
      is_ok (repository.Find decode fs' r (entities.Reference plugin))
      = false).
Proof.
  intros Hstore Hjson fs'. subst fs'.
  destruct (Store_Ok _ _ _ _ _ Hstore) as (path & Hpath & -> & ->).
  destruct (pluginPath_clean _ _ _ Hpath) as (rooted & stack & Hs & ->).
  destruct (Join_file rooted stack "plugin.wasm" Hs
              (normalElem_file _ (or_introl eq_refl))) as [Hw Hw'].
  destruct (Join_file rooted stack "metadata.json" Hs
              (normalElem_file _ (or_intror (or_introl eq_refl))))
    as [Hm Hm'].
  destruct (Join_file rooted stack "digest.txt" Hs
              (normalElem_file _ (or_intror (or_intror eq_refl))))
    as [Hd Hd'].
  destruct (render_snoc rooted stack "") as (pfx & Hpfx).
  assert (Hwm : render rooted ("plugin.wasm" :: stack)
                <> render rooted ("metadata.json" :: stack)).
  { rewrite !Hpfx. intros E. apply sapp_cancel_l in E. discriminate. }
  assert (Hwd : render rooted ("plugin.wasm" :: stack)
                <> render rooted ("digest.txt" :: stack)).
  { rewrite !Hpfx. intros E. apply sapp_cancel_l in E. discriminate. }
  assert (Hmd : render rooted ("metadata.json" :: stack)
                <> render rooted ("digest.txt" :: stack)).
  { rewrite !Hpfx. intros E. apply sapp_cancel_l in E. discriminate. }
  assert (Hfind :
    Find decode
      (applyOps encode fs
         [OpMkdirAll (render rooted stack) 488%Z;
          OpCreate (Clean (filepath.Join [render rooted stack; "plugin.wasm"]));
          OpCopy (Clean (filepath.Join [render rooted stack; "plugin.wasm"]))
            wasm;
          OpCreate
            (Clean (filepath.Join [render rooted stack; "metadata.json"]));
          OpEncodeMetadata
            (Clean (filepath.Join [render rooted stack; "metadata.json"]))
            (entities.Metadata plugin);
          OpClose
            (Clean (filepath.Join [render rooted stack; "metadata.json"]));
          OpWriteFile (filepath.Join [render rooted stack; "digest.txt"])
            (values.DigestString (entities.Digest plugin)) 384%Z;
          OpClose
            (Clean (filepath.Join [render rooted stack; "plugin.wasm"]))])
      r (entities.Reference plugin)
    = match values.ParseDigest (values.DigestString (entities.Digest plugin))
      with
      | Ok d =>
          Ok (entities.NewPlugin (entities.Reference plugin) d
                (entities.Metadata plugin),
              filepath.Join [render rooted stack; "plugin.wasm"])
      | Err e => Err (ErrParseDigest e)
      end).
  { unfold Find, loadMetadata, loadDigest, Stat. rewrite Hpath.
    rewrite Hw, Hm, Hd, Hw', Hm', Hd'.
    cbn [applyOps fold_left applyOp files dirs].
    repeat (rewrite lookup_insert_eq
            || rewrite lookup_insert_ne by congruence).
    cbn [default negb]. rewrite append_nil, Hjson.
    destruct (values.ParseDigest _); [|reflexivity].
    now destruct (entities.Metadata plugin). }
  split; [|split; [exact Hfind|split]].
  - rewrite Hw, Hw', Hm, Hm', Hd.
    cbn [applyOps fold_left applyOp files dirs].
    repeat (rewrite lookup_insert_eq
            || rewrite lookup_insert_ne by congruence).
    cbn [default]. now rewrite append_nil.
  - intros Halg. rewrite Hfind, (ParseDigest_DigestString _ Halg).
    now destruct plugin.
  - intros Halg. rewrite Hfind.
    destruct (values.ParseDigest _) as [d|e] eqn:Hp; [|reflexivity].
    exfalso. unfold values.ParseDigest, values.DigestString in Hp.
    rewrite Halg in Hp.
    change ("" +:+ ":" +:+ ?v) with ("" +:+ String ":" v) in Hp.
    rewrite SplitN2_byte_app in Hp by reflexivity. discriminate.
Qed.

Lemma HasPrefix_dot (c : string) : strings.HasPrefix "." (c +:+ "/") = false.
Proof.
  destruct c as [|a c]; [reflexivity|].
  rewrite append_cons. cbn [strings.HasPrefix].
  destruct (Ascii.eqb a "."); [|reflexivity].
  destruct c; reflexivity.
Qed.

(** The binary of a plugin lies below the plugin's directory. *)
Lemma wasm_below (rooted : bool) (stack : list string) :
  cleanStack rooted stack ->
  render rooted stack <> "." ->
  below (render rooted stack) (render rooted ("plugin.wasm" :: stack)).
Proof.
  intros Hs Hdot. right.
  destruct stack as [|top rest].
  - destruct rooted; [reflexivity|now contradiction Hdot].
  - change ("plugin.wasm" :: top :: rest)
      with (rev ["plugin.wasm"] ++ top :: rest)%list.
    rewrite render_push_all by discriminate.
    cbn [strings.Join].
    destruct (String.eqb_spec (render rooted (top :: rest)) "/") as [E|_].
    + rewrite E. reflexivity.
    + rewrite <- sapp_assoc. apply HasPrefix_app.
Qed.

(** X24: what [Delete] removes, [Find] no longer finds.  After a
    [Delete] that succeeds, on any file system, [Find] of the same
    reference reports that the plugin is not found (for a repository
    whose root is not the current directory). *)
Theorem Delete_then_Find (r : repository.FSPluginRepository)
  (ref : values.PluginReference) (ops : list repository.FsOp)
  (fs : repository.FS) :
  filepath.Clean (repository.root r) <> "." ->
  repository.Delete fsOk r ref = (None, ops) ->
  repository.Find decode (repository.applyOps encode fs ops) r ref
  = Err (repository.PluginNotFoundError ref).
Proof.
  intros Hroot Hdel. unfold Delete in Hdel.
  destruct (pluginPath r ref) as [path|e] eqn:Hpath; [|discriminate].
  destruct (fsOk (OpRemoveAll path)); [|discriminate].
  injection Hdel as <-.
  assert (Hdot : path <> ".").
  { intros ->. revert Hpath. unfold pluginPath, PathSeparator.
    destruct (IsAbs (values.String_ ref)); [discriminate|].
    destruct (String.eqb_spec
                (Clean (filepath.Join [root r; values.String_ ref]))
                (Clean (root r))) as [E|_].
    - rewrite andb_false_r. intros [= E']. apply Hroot. rewrite <- E.
      exact E'.
    - rewrite andb_true_r.
      destruct (strings.HasPrefix _ _) eqn:Hp; [|discriminate].
      cbn [negb]. intros [= E'].
      change (Clean (filepath.Join [root r; values.String_ ref]) = ".") in E'.
      rewrite E' in Hp. now rewrite HasPrefix_dot in Hp. }
  destruct (pluginPath_clean _ _ _ Hpath) as (rooted & stack & Hs & ->).
  destruct (Join_file rooted stack "plugin.wasm" Hs
              (normalElem_file _ (or_introl eq_refl))) as [Hw _].
  pose proof (wasm_below rooted stack Hs Hdot) as Hbelow.
  unfold Find, Stat. rewrite Hpath, Hw.
  cbn [applyOps fold_left applyOp files dirs].
  rewrite (proj2 (map_lookup_filter_None _ _ _)).
  - rewrite bool_decide_eq_false_2; [reflexivity|].
    rewrite elem_of_filter. intros [H _]. now apply H.
  - right. intros x _ H. now apply H.
Qed.

End StoreFind.

Section StoreFindScenarios.

Import repository.

Lemma Store_then_Find_witness :
  let encode := fun m : values.PluginMetadata => values.metaName m in
  let decode := fun s : string => Some (values.mkPluginMetadata s "1" "" []) in
  let r := repository.mkFSPluginRepository "/cache" in
  let plugin :=
    entities.NewPlugin (values.mkPluginReference "" "" "" "file" "")
      (values.mkDigest "sha256" "abc")
      (values.mkPluginMetadata "file" "1" "" []) in
  let out := repository.Store (fun _ => true) r plugin "wasm" in
  fst out = Ok "/cache/file/plugin.wasm"
  /\ repository.Find decode
       (repository.applyOps encode (repository.mkFS ∅ ∅) (snd out)) r
       (entities.Reference plugin)
     = Ok (plugin, "/cache/file/plugin.wasm").
Proof.
  intros encode decode r plugin out.
  assert (Hfst : fst out = Ok "/cache/file/plugin.wasm") by reflexivity.
  assert (Hstore : repository.Store (fun _ => true) r plugin "wasm"
                   = (Ok "/cache/file/plugin.wasm", snd out)).
  { rewrite <- Hfst. subst out. apply surjective_pairing. }
  assert (Hjson : decode (encode (entities.Metadata plugin))
                  = Some (entities.Metadata plugin)) by reflexivity.
  split; [exact Hfst|].
  exact (proj1 (proj2 (proj2
           (Store_then_Find (fun _ => true) encode decode r plugin "wasm"
              "/cache/file/plugin.wasm" (snd out) (repository.mkFS ∅ ∅)
              Hstore Hjson)))
           (or_introl eq_refl)).
Defined.

Lemma Delete_then_Find_witness :
  let encode := fun m : values.PluginMetadata => values.metaName m in
  let decode := fun s : string => Some (values.mkPluginMetadata s "1" "" []) in
  let r := repository.mkFSPluginRepository "/cache" in
  let ref := values.mkPluginReference "" "" "" "file" "" in
  let fs :=
    repository.mkFS {["/cache/file/plugin.wasm" := "wasm"]} ∅ in
  repository.Delete (fun _ => true) r ref
  = (None, [repository.OpRemoveAll "/cache/file"])
  /\ repository.Find decode
       (repository.applyOps encode fs [repository.OpRemoveAll "/cache/file"])
       r ref
     = Err (repository.PluginNotFoundError ref).
Proof.
  intros encode decode r ref fs.
  assert (Hroot : filepath.Clean (repository.root r) <> ".") by discriminate.
  assert (Hdel : repository.Delete (fun _ => true) r ref
                 = (None, [repository.OpRemoveAll "/cache/file"]))
    by reflexivity.
  split; [exact Hdel|].
  exact (Delete_then_Find (fun _ => true) encode decode r ref _ fs Hroot Hdel).
Defined.

End StoreFindScenarios.


Section MoreMiddlewareScenarios.

Import hostlib.

Lemma CapabilityMiddleware_fails_closed_witness :
  let ctx := mkContext (Some "dns_lookup") (Some "dns") None in
  let out :=
    hostlib.CapabilityMiddleware sampleChecker (ext := sampleExternals) echo
      ctx "{hostname}" in
  capabilityPluginName ctx = Some "dns"
  /\ grantsOf sampleChecker "dns" = None
  /\ payloadParses (ext := sampleExternals) (dispatchName ctx) "{hostname}"
     = true
  /\ nextCalls (snd out) = []
  /\ exists msg, fst out = (validationErrorJSON (Externals := sampleExternals) msg, None).
Proof.
  intros ctx out.
  pose proof (CapabilityMiddleware_fails_closed sampleChecker
                (ext := sampleExternals) echo ctx "{hostname}" "dns"
                eq_refl eq_refl) as [H _].
  split; [reflexivity|]. split; [reflexivity|]. split; [reflexivity|].
  exact (H eq_refl).
Defined.

Lemma CapabilityMiddleware_http_ssrf_witness :
  let ctx := mkContext (Some "http_request") (Some "web") None in
  let ctx' := withSSRFAllowPrivate ctx false in
  let req :=
    http.mkHTTPRequest [] None "GET" "https://example.com/x" [] 0 0 in
  let cfg :=
    http.PerformHTTPRequest_config (ssrfAllowPrivate ctx')
      [http.WithHTTPMaxRedirects 3] req in
  capabilityPluginName ctx = Some "web"
  /\ In (ctx', "garbage")
       (nextCalls
          (snd (hostlib.CapabilityMiddleware sampleChecker
                  (ext := sampleExternals) echo ctx "garbage")))
  /\ setsSSRF [http.WithHTTPMaxRedirects 3] = false
  /\ http.ssrfProtection cfg = true
  /\ http.allowPrivate cfg = AllowsPrivateNetwork sampleChecker "web".
Proof.
  intros ctx ctx' req cfg.
  assert (Hin : In (ctx', "garbage")
                  (nextCalls
                     (snd (hostlib.CapabilityMiddleware sampleChecker
                             (ext := sampleExternals) echo ctx "garbage")))).
  { left. reflexivity. }
  pose proof (CapabilityMiddleware_http_ssrf sampleChecker
                (ext := sampleExternals) echo ctx ctx' "garbage" "garbage"
                "web" [http.WithHTTPMaxRedirects 3] req eq_refl Hin)
    as [Hprot Hallow].
  split; [reflexivity|]. split; [exact Hin|]. split; [reflexivity|].
  split; [exact Hprot|exact (Hallow eq_refl)].
Defined.

End MoreMiddlewareScenarios.

(** ** The secure dialer: what is dialed, and how long a host is pinned *)

Section DialerFacts.

Import netutil.

Context {lib : NetLib}.

Local Open Scope Z_scope.

Lemma dials_app (xs ys : list DialEvent) :
  dials (xs ++ ys) = (dials xs ++ dials ys)%list.
Proof. unfold dials. apply flat_map_app. Qed.

Lemma lookups_app (xs ys : list DialEvent) :
  lookups (xs ++ ys) = (lookups xs ++ lookups ys)%list.
Proof. unfold lookups. apply flat_map_app. Qed.

(** A validation dials nothing and asks no resolver; it passes exactly
    when [ValidateAddress] allows the address. *)
Lemma validate_spec (d : SecureDialer) (addr : string) :
  dials (snd (validate d addr)) = []
  /\ lookups (snd (validate d addr)) = []
  /\ (fst (validate d addr) = None
      <-> Allowed (ValidateAddress addr (netfilterOpts d)) = true)
  /\ (forall e, fst (validate d addr) = Some e ->
                e = SSRFBlockedError addr
                      (Reason (ValidateAddress addr (netfilterOpts d)))).
Proof.
  unfold validate.
  destruct (Allowed (ValidateAddress addr (netfilterOpts d))); cbn.
  - repeat split; auto; discriminate.
  - destruct (hasOnBlocked d); cbn; repeat split; auto; try discriminate;
      now intros e [= <-].
Qed.

Lemma pinning_quiet (d : SecureDialer) (host : string) (a : IP) :
  dials (if hasOnDNSPinning d then [EvOnDNSPinning host a] else []) = []
  /\ lookups (if hasOnDNSPinning d then [EvOnDNSPinning host a] else []) = [].
Proof. now destruct (hasOnDNSPinning d). Qed.

Lemma vettedFor_cacheIP (d : SecureDialer) (now : Z) (host h : string)
  (a b : IP) :
  vettedFor (cacheIP d now host a) h b <-> vettedFor d h b.
Proof. reflexivity. Qed.

Lemma cacheVetted_cacheIP (d : SecureDialer) (now : Z) (host : string)
  (a : IP) :
  cacheVetted d -> vettedFor d host a -> cacheVetted (cacheIP d now host a).
Proof.
  intros Hc Ha h entry. cbn [cacheIP cache].
  destruct (decide (h = host)) as [->|Hne].
  - rewrite lookup_insert_eq. intros [= <-]. exact Ha.
  - rewrite lookup_insert_ne by congruence. apply Hc.
Qed.

Lemma getCached_Some (d : SecureDialer) (now : Z) (host : string) (a : IP) :
  getCached d now host = Some a ->
  exists entry, cache d !! host = Some entry /\ ip entry = a.
Proof.
  unfold getCached. destruct (cache d !! host) as [entry|]; [|discriminate].
  destruct (_ >=? _); [discriminate|]. intros [= <-]. now exists entry.
Qed.

(** One call: a dialer whose pinned addresses are all validated stays
    so, its settings stay, and what it dials is a validated address of
    the host asked for, at the port asked for, once. *)
Lemma DialContext_step (d : SecureDialer) (w : World) (t1 t2 : Z)
  (nw addr : string) :
  cacheVetted d ->
  let out := DialContext d w t1 t2 nw addr in
  cacheVetted (snd (fst out))
  /\ netfilterOpts (snd (fst out)) = netfilterOpts d
  /\ (forall timeout nw' target,
        In (timeout, nw', target) (dials (snd out)) ->
        exists host port a,
          SplitHostPort addr = Ok (host, port)
          /\ target = JoinHostPort (IPString a) port
          /\ nw' = nw
          /\ vettedFor d host a).
Proof.
  intros Hc out. subst out. unfold DialContext.
  destruct (SplitHostPort addr) as [[host port]|e];
    [|cbn; split; [exact Hc|split; [reflexivity|intros ? ? ? []]]].
  destruct (getCached d t1 host) as [a|] eqn:Hget.
  { cbn. split; [exact Hc|]. split; [reflexivity|].
    intros timeout nw' target [[= <- <- <-]|[]].
    destruct (getCached_Some _ _ _ _ Hget) as (entry & He & <-).
    exists host, port, (ip entry). repeat split. now apply (Hc host). }
  destruct (ParseIP host) as [a|] eqn:Hparse.
  { unfold validateWithNetfilter.
    set (va := if String.eqb port "" then host else JoinHostPort host port).
    destruct (validate_spec d va) as (Hd & _ & Hok & _).
    destruct (validate d va) as [[e|] evs] eqn:Hv; cbn [fst snd] in *.
    - split; [exact Hc|]. split; [reflexivity|]. rewrite Hd. intros ? ? ? [].
    - assert (Hvet : vettedFor d host a).
      { right. split; [exact Hparse|]. exists port. now apply Hok. }
      cbn [dialIP fst snd].
      split; [now apply cacheVetted_cacheIP|]. split; [reflexivity|].
      rewrite dials_app, Hd. cbn.
      intros timeout nw' target [[= <- <- <-]|[]].
      exists host, port, a. auto. }
  destruct (LookupIPAddr w host) as [ips|e];
    [|cbn; split; [exact Hc|split; [reflexivity|intros ? ? ? []]]].
  destruct (selectIP ips) as [a|];
    [|cbn; split; [exact Hc|split; [reflexivity|intros ? ? ? []]]].
  unfold validateResolvedIP.
  destruct (validate_spec d (IPString a)) as (Hd & _ & Hok & _).
  destruct (pinning_quiet d host a) as [Hp _].
  destruct (validate d (IPString a)) as [[e|] evs] eqn:Hv; cbn [fst snd] in *.
  - split; [exact Hc|]. split; [reflexivity|].
    change (EvLookupIPAddr host :: ?l)%list
      with ([EvLookupIPAddr host] ++ l)%list.
    rewrite !dials_app, Hp, Hd. intros ? ? ? [].
  - assert (Hvet : vettedFor d host a) by (left; now apply Hok).
    cbn [dialIP fst snd]. split; [now apply cacheVetted_cacheIP|].
    split; [reflexivity|].
    change (EvLookupIPAddr host :: ?l)%list
      with ([EvLookupIPAddr host] ++ l)%list.
    rewrite !dials_app, Hp, Hd. cbn.
    intros timeout nw' target [[= <- <- <-]|[]].
    exists host, port, a. auto.
Qed.

Lemma vettedFor_opts (d d' : SecureDialer) (host : string) (a : IP) :
  netfilterOpts d' = netfilterOpts d -> vettedFor d host a ->
  vettedFor d' host a.
Proof. unfold vettedFor. now intros ->. Qed.

Lemma cacheVetted_empty (d : SecureDialer) : cache d = ∅ -> cacheVetted d.
Proof. intros H host entry. rewrite H, lookup_empty. discriminate. Qed.

Lemma dialAll_vetted (calls : list DialCall) :
  forall d d0 : SecureDialer,
    netfilterOpts d = netfilterOpts d0 ->
    cacheVetted d ->
    Forall
      (fun ce =>
         forall timeout nw target,
           In (timeout, nw, target) (dials (snd ce)) ->
           exists host port a,
             SplitHostPort (callAddress (fst ce)) = Ok (host, port)
             /\ target = JoinHostPort (IPString a) port
             /\ nw = callNetwork (fst ce)
             /\ vettedFor d0 host a)
      (snd (dialAll d calls)).
Proof.
  induction calls as [|c rest IH]; intros d d0 Ho Hc; [constructor|].
  cbn [dialAll].
  pose proof (DialContext_step d (callWorld c) (callSince c) (callNow c)
                (callNetwork c) (callAddress c) Hc) as Hstep.
  cbv zeta in Hstep.
  destruct (DialContext d (callWorld c) (callSince c) (callNow c)
              (callNetwork c) (callAddress c)) as [[res d'] evs].
  cbn [fst snd] in Hstep. destruct Hstep as (Hc' & Ho' & Hdial).
  specialize (IH d' d0 (eq_trans Ho' Ho) Hc').
  destruct (dialAll d' rest) as [d'' trace]. cbn [snd] in *.
  constructor; [|exact IH]. cbn [fst snd].
  intros timeout nw target Hin.
  destruct (Hdial _ _ _ Hin) as (host & port & a & H1 & H2 & H3 & H4).
  exists host, port, a. repeat split; auto.
  now apply (vettedFor_opts d).
Qed.

(** X25: a dialer that starts with an empty cache never dials an address
    that did not pass its validation, in any sequence of calls and
    whatever the resolver answers: every dial goes to the port asked
    for, on the network asked for, at an address that [ValidateAddress]
    allowed under the dialer's options - as the address looked up for
    the host of that call, or as that host itself when it is an IP
    literal.  (A pinned literal is validated together with the port of
    the call that pinned it, not with the port of each later call.) *)
Theorem dialAll_only_validated (d : netutil.SecureDialer)
  (calls : list DialCall) :
  netutil.cache d = ∅ ->
  Forall
    (fun ce =>
       forall timeout nw target,
         In (timeout, nw, target) (dials (snd ce)) ->
         exists host port a,
           netutil.SplitHostPort (callAddress (fst ce)) = Ok (host, port)
           /\ target = netutil.JoinHostPort (netutil.IPString a) port
           /\ nw = callNetwork (fst ce)
           /\ vettedFor d host a)
    (snd (dialAll d calls)).
Proof.
  intros Hempty. apply dialAll_vetted; [reflexivity|].
  now apply cacheVetted_empty.
Qed.

Lemma Sub_lt_geb (t u ttl : Z) :
  Sub t u < ttl -> (Sub t u >=? ttl) = false.
Proof. intros H. rewrite Z.geb_leb. apply Z.leb_gt. exact H. Qed.

Lemma Sub_le_geb (t u ttl : Z) :
  ttl <= Sub t u -> (Sub t u >=? ttl) = true.
Proof. intros H. rewrite Z.geb_leb. apply Z.leb_le. exact H. Qed.

(** X26: DNS pinning.  A call that found nothing usable in the cache and
    got as far as dialing has pinned the address it dialed: for the time
    to live, counted from the moment the entry was written (five minutes
    when [CacheTTL] is zero), every call for the same host - at whatever
    port - dials that address and nothing else: no resolver is asked, no
    validation is run, the cache is not written and the entry's age is
    not reset, whatever the resolver would answer now.  Once the age has
    reached the time to live the entry is no longer used. *)
Theorem DialContext_pins (d d' : netutil.SecureDialer) (w : netutil.World)
  (t1 t2 : Z) (nw addr host port : string)
  (res : result netutil.DialError netutil.Conn)
  (evs : list netutil.DialEvent) :
  netutil.SplitHostPort addr = Ok (host, port) ->
  netutil.getCached d t1 host = None ->
  netutil.DialContext d w t1 t2 nw addr = (res, d', evs) ->
  dials evs <> [] ->
  exists a,
    dials evs
    = [(effectiveTimeout d, nw,
        netutil.JoinHostPort (netutil.IPString a) port)]
    /\ forall (w' : netutil.World) (t1' t2' : Z) (nw' addr' port' : string),
         netutil.SplitHostPort addr' = Ok (host, port') ->
         (netutil.Sub t1' t2 < effectiveTTL d ->
          netutil.DialContext d' w' t1' t2' nw' addr'
          = (fst (netutil.dialIP d' w' nw' a port'), d',
             [netutil.EvDial (effectiveTimeout d) nw'
                (netutil.JoinHostPort (netutil.IPString a) port')]))
         /\ (effectiveTTL d <= netutil.Sub t1' t2 ->
             netutil.getCached d' t1' host = None).
Proof.
  intros Hsplit Hmiss Hcall Hdialed. unfold DialContext in Hcall.
  rewrite Hsplit, Hmiss in Hcall.
  assert (Hpinned : forall a evs0,
            dials evs0 = [] ->
            (res, d', evs)
            = (fst (dialIP (cacheIP d t2 host a) w nw a port),
               cacheIP d t2 host a,
               (evs0 ++ snd (dialIP (cacheIP d t2 host a) w nw a port))%list)
            -> exists a,
                 dials evs
                 = [(effectiveTimeout d, nw, JoinHostPort (IPString a) port)]
                 /\ forall (w' : World) (t1' t2' : Z)
                      (nw' addr' port' : string),
                      SplitHostPort addr' = Ok (host, port') ->
                      (Sub t1' t2 < effectiveTTL d ->
                       DialContext d' w' t1' t2' nw' addr'
                       = (fst (dialIP d' w' nw' a port'), d',
                          [EvDial (effectiveTimeout d) nw'
                             (JoinHostPort (IPString a) port')]))
                      /\ (effectiveTTL d <= Sub t1' t2 ->
                          getCached d' t1' host = None)).
  { intros a evs0 Hq [= -> -> ->]. exists a. split.
    - rewrite dials_app, Hq. reflexivity.
    - intros w' t1' t2' nw' addr' port' Hsplit'. split.
      + intros Hage. unfold DialContext, getCached. rewrite Hsplit'.
        cbn [cacheIP cache CacheTTL]. rewrite lookup_insert_eq.
        cbn [timestamp ip]. fold (effectiveTTL d).
        rewrite (Sub_lt_geb _ _ _ Hage). reflexivity.
      + intros Hage. unfold getCached.
        cbn [cacheIP cache CacheTTL]. rewrite lookup_insert_eq.
        cbn [timestamp ip]. fold (effectiveTTL d).
        now rewrite (Sub_le_geb _ _ _ Hage). }
  destruct (ParseIP host) as [a|].
  { unfold validateWithNetfilter in Hcall.
    set (va := if String.eqb port "" then host else JoinHostPort host port)
      in Hcall.
    destruct (validate_spec d va) as (Hd & _).
    destruct (validate d va) as [[e|] evs0]; cbn [fst snd] in *.
    - injection Hcall as <- <- <-. now contradiction Hdialed.
    - apply (Hpinned a evs0 Hd). now rewrite <- Hcall. }
  destruct (LookupIPAddr w host) as [ips|e];
    [|injection Hcall as <- <- <-; now contradiction Hdialed].
  destruct (selectIP ips) as [a|];
    [|injection Hcall as <- <- <-; now contradiction Hdialed].
  unfold validateResolvedIP in Hcall.
  destruct (validate_spec d (IPString a)) as (Hd & _).
  destruct (pinning_quiet d host a) as [Hp _].
  destruct (validate d (IPString a)) as [[e|] evs0]; cbn [fst snd] in *.
  - injection Hcall as <- <- <-. exfalso. apply Hdialed.
    change (EvLookupIPAddr host :: ?l)%list
      with ([EvLookupIPAddr host] ++ l)%list.
    now rewrite !dials_app, Hp, Hd.
  - apply (Hpinned a
             (EvLookupIPAddr host
              :: (if hasOnDNSPinning d then [EvOnDNSPinning host a] else [])
              ++ evs0)%list).
    + change (EvLookupIPAddr host :: ?l)%list
        with ([EvLookupIPAddr host] ++ l)%list.
      now rewrite !dials_app, Hp, Hd.
    + rewrite <- Hcall. cbn [dialIP fst snd]. f_equal.
      cbn [app]. now rewrite <- app_assoc.
Qed.

End DialerFacts.
